(** * Function ranking pipeline: a shallow embedding and its properties

  The development follows the scripts of the repository:
  - [rank_func.py]: feature extraction, min-max normalisation and the
    heuristic triviality / importance score;
  - [ml.py]: the label-candidate sampler, the training entry point and the
    score combiner;
  - [verify.py]: the id-preservation check;
  - [label.py]: the heuristic labels of the candidates.

  Python floats are modelled by exact rationals ([Q]); Python [str] values
  by [list ascii], one element per code point in U+0000..U+00FF; Python
  dictionaries with string keys by [gmap string _]. *)

From Stdlib Require Import QArith Qminmax Qround Qabs Lqa Lia ZArith Ascii String List.
From stdpp Require Import base option gmap list strings sorting.

Local Open Scope Z_scope.

(** ** Python strings *)

Module PyStr.

Abbreviation text := (list ascii).

Definition lit (s : string) : text := list_ascii_of_string s.

Definition code_point (c : ascii) : N := N_of_ascii c.

Definition in_range (lo hi : N) (c : ascii) : bool :=
  (N.leb lo (code_point c) && N.leb (code_point c) hi)%bool.

(** [str.isspace] on one character, which is also the class [\s] of a
    [str] pattern. *)
Definition isspace (c : ascii) : bool :=
  (in_range 9 13 c || in_range 28 32 c
   || N.eqb (code_point c) 133 || N.eqb (code_point c) 160)%bool.

(** The class [\w] of a [str] pattern: alphanumeric or underscore. *)
Definition isword (c : ascii) : bool :=
  (in_range 48 57 c || in_range 65 90 c || in_range 97 122 c
   || N.eqb (code_point c) 95
   || N.eqb (code_point c) 170 || in_range 178 179 c
   || N.eqb (code_point c) 181 || in_range 185 186 c
   || in_range 188 190 c || in_range 192 214 c
   || in_range 216 246 c || in_range 248 255 c)%bool.

Definition eqc (a b : ascii) : bool := Ascii.eqb a b.

Fixpoint startswith (p s : text) : bool :=
  match p, s with
  | [], _ => true
  | _ :: _, [] => false
  | a :: p', b :: s' => (eqc a b && startswith p' s')%bool
  end.

(** [sub in s] *)
Fixpoint contains (sub s : text) : bool :=
  (startswith sub s ||
   match s with
   | [] => false
   | _ :: s' => contains sub s'
   end)%bool.

(** The pattern [\s*\w] matched at the head of [s]. *)
Fixpoint match_spaces_word (s : text) : bool :=
  match s with
  | [] => false
  | c :: s' =>
      if isword c then true
      else if isspace c then match_spaces_word s'
      else false
  end.

(** [re.search(r":\s*\w", s)] as a truth value. *)
Fixpoint search_colon_word (s : text) : bool :=
  match s with
  | [] => false
  | c :: s' =>
      ((eqc c ":" && match_spaces_word s') || search_colon_word s')%bool
  end.

(** A colon immediately followed by a word character. *)
Fixpoint colon_then_word (s : text) : bool :=
  match s with
  | [] => false
  | c :: s' =>
      ((eqc c ":" && match s' with [] => false | w :: _ => isword w end)
       || colon_then_word s')%bool
  end.

(** Line boundaries of [str.splitlines]. *)
Definition is_linebreak (c : ascii) : bool :=
  (in_range 10 13 c || in_range 28 30 c || N.eqb (code_point c) 133)%bool.

Definition LF : ascii := "010"%char.
Definition CR : ascii := "013"%char.

(** [str.splitlines]: [cur] is the line being read, [after_cr] tells that
    the previous character was a carriage return, whose line feed is part
    of the same boundary. *)
Fixpoint splitlines_from (after_cr : bool) (cur s : text) : list text :=
  match s with
  | [] => match cur with [] => [] | _ => [cur] end
  | c :: s' =>
      if (after_cr && eqc c LF)%bool then splitlines_from false cur s'
      else if is_linebreak c then cur :: splitlines_from (eqc c CR) [] s'
      else splitlines_from false (cur ++ [c]) s'
  end.

Definition splitlines (s : text) : list text := splitlines_from false [] s.

Fixpoint lstrip (s : text) : text :=
  match s with
  | [] => []
  | c :: s' => if isspace c then lstrip s' else s
  end.

Definition rstrip (s : text) : text := rev (lstrip (rev s)).

Definition strip (s : text) : text := rstrip (lstrip s).

(** [str.lower] on one code point of the range. *)
Definition lower_char (c : ascii) : ascii :=
  if (in_range 65 90 c
      || (in_range 192 222 c && negb (N.eqb (code_point c) 215)))%bool
  then ascii_of_N (code_point c + 32) else c.

Definition lower (s : text) : text := map lower_char s.

(** [s1 + s2] and [sep.join(parts)] *)
Fixpoint join (sep : text) (parts : list text) : text :=
  match parts with
  | [] => []
  | [p] => p
  | p :: rest => p ++ sep ++ join sep rest
  end.

(** *** The keyword pattern (lines 75-78), case-insensitive *)

Definition eqc_nocase (p c : ascii) : bool :=
  (eqc p c || (in_range 65 90 c && eqc p (lower_char c)))%bool.

(** A literal matched at the head of [s]: the rest after it. *)
Fixpoint match_literal (p s : text) : option text :=
  match p, s with
  | [], _ => Some s
  | _ :: _, [] => None
  | a :: p', b :: s' => if eqc_nocase a b then match_literal p' s' else None
  end.

Fixpoint skip_word (s : text) : text :=
  match s with
  | [] => []
  | c :: s' => if isword c then skip_word s' else s
  end.

(** A literal followed by [\w+] (greedy). *)
Definition match_literal_word (p s : text) : option text :=
  match match_literal p s with
  | Some (c :: s') => if isword c then Some (skip_word s') else None
  | _ => None
  end.

Definition keyword_literals : list string :=
  ["get"; "set"; "to_"; "from_"; "format"; "util"; "helper"; "json";
   "str"; "parse"]%string.

Definition keyword_calls : list string :=
  ["len("; "join("; "split("]%string.

Fixpoint first_match (ms : list (text -> option text)) (s : text)
  : option text :=
  match ms with
  | [] => None
  | m :: ms' => match m s with Some r => Some r | None => first_match ms' s end
  end.

(** The alternation of the pattern, tried in the order it is written. *)
Definition match_keyword (s : text) : option text :=
  first_match
    (map (fun k => match_literal (lit k)) keyword_literals
     ++ [match_literal_word (lit "is_"); match_literal_word (lit "has_")]
     ++ map (fun k => match_literal (lit k)) keyword_calls) s.

(** [len(pattern.findall(s))]: a left-to-right scan for non-overlapping
    matches.  [skip] counts the characters of the current match that are
    still to be passed over; [prev_word] tells whether the character before
    the current position is a word character (for [\b]). *)
Fixpoint count_keywords (skip : nat) (prev_word : bool) (s : text) : nat :=
  match s with
  | [] => O
  | c :: s' =>
      match skip with
      | S k => count_keywords k (isword c) s'
      | O =>
          if (negb prev_word && isword c)%bool then
            match match_keyword s with
            | Some rest =>
                S (count_keywords (length s - length rest - 1) (isword c) s')
            | None => count_keywords O (isword c) s'
            end
          else count_keywords O (isword c) s'
      end
  end.

Definition keyword_findall_count (s : text) : nat :=
  count_keywords O false s.


End PyStr.

(** ** Python lists *)

Module PyList.

(** A stable sort: [x] is put in front of the first element it may precede.
    With [le x y] true for equal keys, equal elements keep their order. *)
Fixpoint insert_by {A} (le : A -> A -> bool) (x : A) (l : list A) : list A :=
  match l with
  | [] => [x]
  | y :: l' => if le x y then x :: l else y :: insert_by le x l'
  end.

Definition stable_sort {A} (le : A -> A -> bool) (l : list A) : list A :=
  foldr (insert_by le) [] l.

(** The order a boolean comparison stands for. *)
Definition le_rel {A} (le : A -> A -> bool) : relation A :=
  fun x y => le x y = true.

(** [l[:stop]] *)
Definition slice_to {A} (stop : Z) (l : list A) : list A :=
  if 0 <=? stop then take (Z.to_nat stop) l
  else take (Z.to_nat (Z.of_nat (length l) + stop)) l.

(** [l[start:]] *)
Definition slice_from {A} (start : Z) (l : list A) : list A :=
  if 0 <=? start then drop (Z.to_nat start) l
  else drop (Z.to_nat (Z.of_nat (length l) + start)) l.

End PyList.

(** ** The part of Python's [ast] module the script observes *)

Module Ast.
Import PyStr.

(** Node classes tested by [isinstance]; every other class is [ast_Other].
    A node carries the attributes the script reads: [len(node.values)] of a
    [BoolOp], [len(node.args.args)] of a function or lambda, and the result
    of [ast.get_docstring] for a module or function. *)
Inductive node_type :=
| ast_Module (doc : option text)
| ast_FunctionDef (n_params : nat) (doc : option text)
| ast_Lambda (n_params : nat)
| ast_Call | ast_Return | ast_Assign | ast_AugAssign
| ast_Import | ast_ImportFrom
| ast_If | ast_For | ast_While | ast_IfExp | ast_Try
| ast_ExceptHandler | ast_With
| ast_BoolOp (n_values : nat)
| ast_Other.

(** A node with its child nodes, in [ast.iter_child_nodes] order. *)
#[warnings="-register-all"]
Inductive AST := Node (ty : node_type) (children : list AST).

Definition node_ty (t : AST) : node_type := let (ty, _) := t in ty.
Definition child_nodes (t : AST) : list AST := let (_, cs) := t in cs.

Fixpoint size (t : AST) : nat :=
  match t with
  | Node _ cs => S (list_sum (map size cs))
  end.

(** All nodes of a tree, depth first. *)
Fixpoint nodes_of (t : AST) : list AST :=
  match t with
  | Node _ cs => t :: flat_map nodes_of cs
  end.

(** [ast.walk]: breadth first, from a queue of pending nodes.  The fuel
    bounds the number of nodes yielded; [size t] is enough for [t]. *)
Fixpoint walk_queue (fuel : nat) (queue : list AST) : list AST :=
  match fuel, queue with
  | S fuel', n :: queue' => n :: walk_queue fuel' (queue' ++ child_nodes n)
  | _, _ => []
  end.

Definition walk (t : AST) : list AST := walk_queue (size t) [t].

(** [isinstance(node, BRANCH_NODES)] *)
Definition is_branch (ty : node_type) : bool :=
  match ty with
  | ast_If | ast_For | ast_While | ast_IfExp | ast_Try
  | ast_ExceptHandler | ast_With => true
  | _ => false
  end.

Definition is_FunctionDef (ty : node_type) : bool :=
  match ty with ast_FunctionDef _ _ => true | _ => false end.
Definition is_Lambda (ty : node_type) : bool :=
  match ty with ast_Lambda _ => true | _ => false end.
Definition is_Call (ty : node_type) : bool :=
  match ty with ast_Call => true | _ => false end.
Definition is_Return (ty : node_type) : bool :=
  match ty with ast_Return => true | _ => false end.
Definition is_Assign (ty : node_type) : bool :=
  match ty with ast_Assign => true | _ => false end.
Definition is_AugAssign (ty : node_type) : bool :=
  match ty with ast_AugAssign => true | _ => false end.
Definition is_Import (ty : node_type) : bool :=
  match ty with ast_Import => true | _ => false end.
Definition is_ImportFrom (ty : node_type) : bool :=
  match ty with ast_ImportFrom => true | _ => false end.

(** [len(node.args.args)] *)
Definition n_args (ty : node_type) : Z :=
  match ty with
  | ast_FunctionDef n _ | ast_Lambda n => Z.of_nat n
  | _ => 0
  end.

(** [ast.get_docstring(node)] *)
Definition get_docstring (t : AST) : option text :=
  match node_ty t with
  | ast_Module d | ast_FunctionDef _ d => d
  | _ => None
  end.

End Ast.

(** ** rank_func.py *)

Module RankFunc.
Import PyStr PyList Ast.

(** Line 117: the flag computed from the code text. *)
Definition has_type_annotations (code : text) : bool :=
  ((contains (lit ":") code && contains (lit "->") code)
   || (contains (lit ":") code && search_colon_word code))%bool.

(** The condition as the specification words it. *)
Definition spec_has_type_annotations (code : text) : bool :=
  ((contains (lit ":") code && contains (lit "->") code)
   || colon_then_word code)%bool.

(** *** Values and objects *)

(** The values json.load produces and the script stores in rows. *)
#[warnings="-register-all"]
Inductive value :=
| VNone
| VBool (b : bool)
| VInt (n : Z)
| VFloat (q : Q)
| VStr (s : text)
| VList (l : list value)
| VDict (d : list (string * value)).

(** What the script takes from outside the repository: CPython's parser
    ([None] when ast.parse raises) and [str()] of a value that is not a
    string. *)
Class Runtime := {
  ast_parse : text -> option AST;
  py_repr : value -> text
}.

(** An element of [graphNodes]: a dictionary object, or any other value. *)
Inductive obj :=
| Dict (d : gmap string value)
| Atom (v : value).

(** The store: the object at address [a] is [h !! a]. *)
Abbreviation addr := nat.
Abbreviation heap := (list obj).

Definition dict_at (h : heap) (a : addr) : gmap string value :=
  match h !! a with
  | Some (Dict d) => d
  | _ => ∅
  end.

(** An update of the content of a dictionary object. *)
Definition on_dict (f : gmap string value -> gmap string value) (o : obj)
  : obj :=
  match o with
  | Dict d => Dict (f d)
  | Atom _ => o
  end.

(** [h[a][k] = v], in place. *)
Definition setitem (a : addr) (k : string) (v : value) (h : heap) : heap :=
  alter (on_dict (insert k v)) a h.

(** [r.get(k, d)] *)
Definition get (r : gmap string value) (k : string) (d : value) : value :=
  default d (r !! k).

(** Truth value of an object. *)
Definition truthy (v : value) : bool :=
  match v with
  | VNone => false
  | VBool b => b
  | VInt n => negb (n =? 0)
  | VFloat q => negb (Qeq_bool q 0)
  | VStr s => match s with [] => false | _ => true end
  | VList l => match l with [] => false | _ => true end
  | VDict d => match d with [] => false | _ => true end
  end.

(** [x or y] *)
Definition py_or (x y : value) : value := if truthy x then x else y.

(** A value as operand of arithmetic or of a comparison with a number;
    [None] stands for the TypeError of the other classes. *)
Definition num (v : value) : option Q :=
  match v with
  | VBool b => Some (if b then 1%Q else 0%Q)
  | VInt n => Some (inject_Z n)
  | VFloat q => Some q
  | _ => None
  end.

Definition py_str `{Runtime} (v : value) : text :=
  match v with
  | VStr s => s
  | _ => py_repr v
  end.

(** *** AST helpers (lines 29-73) *)

Definition safe_parse `{Runtime} (code_str : value) : option AST :=
  match code_str with
  | VStr s =>
      if truthy code_str then
        match ast_parse s with
        | Some t => Some t
        | None =>
            let wrapped :=
              lit "def __wrapper__():" ++ [LF]
              ++ join [LF] (map (fun ln => lit "    " ++ ln) (splitlines s)) in
            ast_parse wrapped
        end
      else None
  | _ => None
  end.

Definition compute_cyclomatic_complexity (tree : option AST) : Z :=
  match tree with
  | None => 0
  | Some t =>
      let count :=
        fold_left
          (fun count node =>
             let count :=
               if is_branch (node_ty node) then count + 1 else count in
             match node_ty node with
             | ast_BoolOp n => count + Z.max 0 (Z.of_nat n - 1)
             | _ => count
             end)
          (walk t) 0 in
      Z.max 1 (count + 1)
  end.

Definition count_nodes_of_type (tree : option AST) (t : node_type -> bool)
  : Z :=
  match tree with
  | None => 0
  | Some tr => Z.of_nat (length (filter (fun n => t (node_ty n) = true) (walk tr)))
  end.

Definition nonempty (o : option text) : option text :=
  match o with
  | Some (_ :: _) => o
  | _ => None
  end.

Definition extract_docstring_length (tree : option AST) : Z :=
  match tree with
  | None => 0
  | Some t =>
      match nonempty (get_docstring t) with
      | Some doc => Z.of_nat (length doc)
      | None =>
          match
            list_find
              (fun n => is_FunctionDef (node_ty n) = true
                        /\ is_Some (nonempty (get_docstring n)))
              (walk t)
          with
          | Some (_, n) => Z.of_nat (length (default [] (get_docstring n)))
          | None => 0
          end
      end
  end.

(** Lines 94-108. *)
Definition count_params (tree : option AST) : Z :=
  match tree with
  | None => 0
  | Some t =>
      match filter (fun n => is_FunctionDef (node_ty n) = true) (walk t) with
      | f :: _ => n_args (node_ty f)
      | [] =>
          match filter (fun n => is_Lambda (node_ty n) = true) (walk t) with
          | l :: _ => n_args (node_ty l)
          | [] => 0
          end
      end
  end.

(** *** Row construction (lines 81-139) *)

Definition count_loc (code : text) : Z :=
  Z.of_nat (length (filter (fun ln => strip ln <> []) (splitlines code))).

Definition is_one_liner (code : text) : bool :=
  ((count_loc code <=? 3)
   && (Z.of_nat (length (splitlines (strip code))) <=? 3))%bool.

Definition code_snippet (code : text) : text :=
  if (1000 <? length code)%nat then take 1000 code ++ lit "..." else code.

Definition int_of_bool (b : bool) : Z := if b then 1 else 0.

(** [dict(node) if isinstance(node, dict) else {"id": str(node)}] *)
Definition original_node `{Runtime} (node : obj) : gmap string value :=
  match node with
  | Dict d => d
  | Atom v => {[ "id" := VStr (py_str v) ]}
  end.

(** The body of the loop: the content of the new row for one node. *)
Definition build_row `{Runtime} (node : obj) : gmap string value :=
  let original_node := original_node node in
  let node_id := get original_node "id" VNone in
  let label := py_or (get original_node "label" (VStr [])) (VStr []) in
  let code := py_or (get original_node "code" (VStr [])) (VStr []) in
  let loc := count_loc (py_str code) in
  let tree := safe_parse code in
  let complexity := compute_cyclomatic_complexity tree in
  let num_funcs := count_nodes_of_type tree is_FunctionDef in
  let num_params := count_params tree in
  let num_calls := count_nodes_of_type tree is_Call in
  let num_returns := count_nodes_of_type tree is_Return in
  let num_assigns :=
    count_nodes_of_type tree is_Assign
    + count_nodes_of_type tree is_AugAssign in
  let num_imports :=
    count_nodes_of_type tree is_Import
    + count_nodes_of_type tree is_ImportFrom in
  let doc_len := extract_docstring_length tree in
  let keyword_matches := Z.of_nat (keyword_findall_count (py_str code)) in
  let one_liner := int_of_bool (is_one_liner (py_str code)) in
  let has_type_annotations :=
    int_of_bool (has_type_annotations (py_str code)) in
  <["code_snippet" := VStr (code_snippet (py_str code))]>
  (<["has_type_annotations" := VInt has_type_annotations]>
  (<["one_liner" := VInt one_liner]>
  (<["keyword_matches" := VInt keyword_matches]>
  (<["doc_len" := VInt doc_len]>
  (<["num_imports" := VInt num_imports]>
  (<["num_assigns" := VInt num_assigns]>
  (<["num_returns" := VInt num_returns]>
  (<["num_calls" := VInt num_calls]>
  (<["num_params" := VInt num_params]>
  (<["num_funcs" := VInt num_funcs]>
  (<["complexity" := VFloat (inject_Z complexity)]>
  (<["loc" := VInt loc]>
  (<["label" := label]>
  (<["id" := node_id]> original_node)))))))))))))).

(** One turn of the loop over [nodes]: the row is a new dictionary object,
    appended to [rows]. *)
Definition extract_node `{Runtime} (st : heap * list addr) (node : addr)
  : heap * list addr :=
  let '(h, rows) := st in
  match h !! node with
  | Some o => (h ++ [Dict (build_row o)], rows ++ [length h])
  | None => (h, rows)
  end.

Definition stage_extract `{Runtime} (nodes : list addr) (h : heap)
  : heap * list addr :=
  fold_left extract_node nodes (h, []).

(** *** Normalisation (lines 141-159) *)

Definition numeric_cols : list string :=
  ["loc"; "complexity"; "num_funcs"; "num_params"; "num_calls";
   "num_returns"; "num_assigns"; "num_imports"; "doc_len";
   "keyword_matches"]%string.

Definition list_min (v : Q) (vals : list Q) : Q := fold_left Qmin vals v.
Definition list_max (v : Q) (vals : list Q) : Q := fold_left Qmax vals v.

Definition min_max (vals : list Q) : list Q :=
  match vals with
  | [] => []
  | v :: vs =>
      let mn := list_min v vs in
      let mx := list_max v vs in
      if Qlt_le_dec (Qabs (mx - mn)) 1e-12 then map (fun _ => 0%Q) vals
      else map (fun v => (v - mn) / (mx - mn))%Q vals
  end.

(** [[r.get(c, 0) for r in rows]], read as numbers. *)
Definition col_vals (h : heap) (rows : list addr) (c : string)
  : option (list Q) :=
  mapM (fun r => num (get (dict_at h r) c (VInt 0))) rows.

(** The loop of lines 157-159 writes into the row objects: the inner loop
    over the columns for row [r] of index [i], and the loop over the rows. *)
Definition write_norm_row (col_norm : list (string * list Q)) (h : heap)
    (ir : nat * addr) : heap :=
  let '(i, r) := ir in
  fold_left
    (fun h cn => setitem r (fst cn +:+ "_norm") (VFloat (nth i (snd cn) 0%Q)) h)
    col_norm h.

Definition write_norms (col_norm : list (string * list Q))
    (rows : list addr) (h : heap) : heap :=
  fold_left (write_norm_row col_norm) (imap pair rows) h.

Definition stage_normalize (rows : list addr) (h : heap) : option heap :=
  col_norm ← mapM (fun c => vals ← col_vals h rows c;
                            Some (c, min_max vals)) numeric_cols;
  Some (write_norms col_norm rows h).

(** *** Heuristic score (lines 161-214) *)

Definition weights : gmap string Q :=
  {[ "loc_norm" := 0.35%Q; "complexity_norm" := 0.20%Q;
     "num_calls_norm" := 0.05%Q; "num_params_norm" := 0.05%Q;
     "keyword_matches_norm" := 0.20%Q; "doc_len_norm" := 0.05%Q;
     "num_imports_norm" := 0.05%Q ]}.

Definition weight (k : string) : Q := default 0%Q (weights !! k).

Definition critical_names : list string :=
  ["__init__"; "decorator"; "on_event"; "setup"; "configure"; "mount"]%string.
Definition critical_files : list string :=
  ["applications"; "routing"; "endpoints"; "schemas"; "models"]%string.

(** [any(k in s for k in vocabulary)] *)
Definition any_in (vocabulary : list string) (s : text) : bool :=
  existsb (fun k => contains (lit k) s) vocabulary.

(** The weighted sum of lines 181-189. *)
Definition base_score (r : gmap string value) : option Q :=
  loc_n ← num (get r "loc_norm" (VFloat 0));
  comp_n ← num (get r "complexity_norm" (VFloat 0));
  calls_n ← num (get r "num_calls_norm" (VFloat 0));
  params_n ← num (get r "num_params_norm" (VFloat 0));
  kw_n ← num (get r "keyword_matches_norm" (VFloat 0));
  doc_n ← num (get r "doc_len_norm" (VFloat 0));
  imports_n ← num (get r "num_imports_norm" (VFloat 0));
  Some (weight "loc_norm" * (1 - loc_n)
        + weight "complexity_norm" * (1 - comp_n)
        + weight "num_calls_norm" * (1 - calls_n)
        + weight "num_params_norm" * (1 - params_n)
        + weight "keyword_matches_norm" * kw_n
        + weight "doc_len_norm" * (1 - doc_n)
        + weight "num_imports_norm" * (1 - imports_n))%Q.

(** The condition of line 191, with its short-circuit evaluation. *)
Definition is_trivial_one_liner (r : gmap string value) : option bool :=
  if truthy (get r "one_liner" (VInt 0)) then
    calls ← num (get r "num_calls" (VInt 0));
    if Qle_bool calls 1 then
      comp ← num (get r "complexity" (VInt 0));
      Some (Qle_bool comp 2)
    else Some false
  else Some false.

(** The condition of line 201. *)
Definition is_critical `{Runtime} (r : gmap string value) : bool :=
  let name := lower (py_str (get r "label" (VStr []))) in
  let file_id := lower (py_str (get r "id" (VStr []))) in
  (any_in critical_names name || any_in critical_files file_id)%bool.

(** The condition of line 206. *)
Definition is_documented (r : gmap string value) : option bool :=
  if truthy (get r "has_type_annotations" (VInt 0)) then Some true
  else
    doc ← num (get r "doc_len" (VInt 0));
    Some (negb (Qle_bool doc 80)).

Definition compute_triviality `{Runtime} (r : gmap string value) : option Q :=
  score ← base_score r;
  trivial ← is_trivial_one_liner r;
  let score := if trivial : bool then Qmin 1 (score + 0.10)%Q else score in
  let score := if is_critical r then Qmax 0 (score - 0.15)%Q else score in
  documented ← is_documented r;
  let score := if documented : bool then Qmax 0 (score - 0.08)%Q else score in
  Some (Qmax 0 (Qmin 1 score))%Q.

(** [round(x)]: to the nearest integer, ties to the even one. *)
Definition round_half_even (x : Q) : Z :=
  let f := Qfloor x in
  match (x - inject_Z f ?= 1 # 2)%Q with
  | Lt => f
  | Gt => f + 1
  | Eq => if Z.even f then f else f + 1
  end.

(** [round(x, 4)] *)
Definition round4 (x : Q) : Q :=
  (inject_Z (round_half_even (x * 10000)) / 10000)%Q.

(** The body of the loop of lines 212-214, on the content of one row. *)
Definition score_row `{Runtime} (r : gmap string value)
  : option (gmap string value) :=
  t ← compute_triviality r;
  let r := <["triviality" := VFloat (round4 t)]> r in
  t' ← num (get r "triviality" VNone);
  Some (<["importance" := VFloat (round4 (1 - t'))]> r).

(** One turn of the loop: both keys are written into the row object. *)
Definition score_in_place `{Runtime} (r : addr) (h : heap) : option heap :=
  t ← compute_triviality (dict_at h r);
  let h := setitem r "triviality" (VFloat (round4 t)) h in
  t' ← num (get (dict_at h r) "triviality" VNone);
  Some (setitem r "importance" (VFloat (round4 (1 - t'))) h).

Fixpoint stage_score `{Runtime} (rows : list addr) (h : heap) : option heap :=
  match rows with
  | [] => Some h
  | r :: rows' => h' ← score_in_place r h; stage_score rows' h'
  end.

(** *** Output (lines 216-249) *)

(** [sorted(xs, key=key, reverse=True)]: stable, largest key first. *)
Definition sorted_desc {A} (key : A -> Q) (l : list A) : list A :=
  stable_sort (fun x y => Qle_bool (key y) (key x)) l.

Definition rows_sorted (rows : list addr) (h : heap) : option (list addr) :=
  keyed ← mapM (fun r => k ← num (get (dict_at h r) "importance" (VFloat 0));
                         Some (k, r)) rows;
  Some (map snd (sorted_desc fst keyed)).

Definition csv_columns : list string :=
  ["id"; "label"; "importance"; "triviality"; "loc"; "complexity";
   "num_funcs"; "num_params"; "num_calls"; "num_returns"; "num_assigns";
   "num_imports"; "doc_len"; "keyword_matches"; "one_liner";
   "has_type_annotations"]%string.

(** One line of the table: the cells of the fixed columns only. *)
Definition csv_row (r : gmap string value) : list (string * option value) :=
  map (fun c => (c, r !! c)) csv_columns.

(** The state of the script when it has written its outputs: the store, the
    list [rows] and the list [rows_sorted]. *)
Record final_state := {
  st_heap : heap;
  st_rows : list addr;
  st_rows_sorted : list addr
}.

(** The script from [nodes] (object [i] of the input lives at address [i])
    to its final state; [None] when an exception escapes. *)
Definition rank_functions `{Runtime} (nodes : list obj) : option final_state :=
  let h0 : heap := nodes in
  let '(h1, rows) := stage_extract (seq 0 (length nodes)) h0 in
  h2 ← stage_normalize rows h1;
  h3 ← stage_score rows h2;
  sorted ← rows_sorted rows h3;
  Some {| st_heap := h3; st_rows := rows; st_rows_sorted := sorted |}.

(** *** The loops read as functions on the contents of the rows *)

(** What the loop of lines 157-159 does to the content of row [i]. *)
Definition norm_row (col_norm : list (string * list Q)) (i : nat)
    (d : gmap string value) : gmap string value :=
  fold_left
    (fun d cn => <[fst cn +:+ "_norm" := VFloat (nth i (snd cn) 0%Q)]> d)
    col_norm d.

Definition col_norms (ds : list (gmap string value))
  : option (list (string * list Q)) :=
  mapM (fun c => vals ← mapM (fun d => num (get d c (VInt 0))) ds;
                 Some (c, min_max vals)) numeric_cols.

(** The contents of the rows when the script ends, in input order. *)
Definition scored_rows `{Runtime} (nodes : list obj)
  : option (list (gmap string value)) :=
  let ds := map build_row nodes in
  col_norm ← col_norms ds;
  mapM score_row (imap (norm_row col_norm) ds).

(** *** Trees of a unit that is one statement *)

(** A module whose body is [body]; the same body inside the synthetic
    function [__wrapper__], which takes no parameter and has no docstring. *)
Definition module_of (body : list AST) : AST := Node (ast_Module None) body.

Definition wrapper_of (body : list AST) : AST :=
  Node (ast_Module None)
       [Node (ast_FunctionDef 0 None) (Node ast_Other [] :: body)].

(** [return <constant>] *)
Definition return_constant : AST := Node ast_Return [Node ast_Other []].


(** A parser that rejects every text: all trees are absent. *)
Definition no_parser : Runtime :=
  {| ast_parse := fun _ => None; py_repr := fun _ => [] |}.


(** The keys [compute_triviality] reads as numbers, and all it reads. *)
Definition scorer_numbers : list string :=
  ["loc_norm"; "complexity_norm"; "num_calls_norm"; "num_params_norm";
   "keyword_matches_norm"; "doc_len_norm"; "num_imports_norm";
   "num_calls"; "complexity"; "doc_len"]%string.

Definition scorer_reads : list string :=
  scorer_numbers ++ ["one_liner"; "has_type_annotations"; "label"; "id"]%string.

(** The keys the script writes into a row. *)
Definition written_keys : list string :=
  ["id"; "label"; "loc"; "complexity"; "num_funcs"; "num_params";
   "num_calls"; "num_returns"; "num_assigns"; "num_imports"; "doc_len";
   "keyword_matches"; "one_liner"; "has_type_annotations"; "code_snippet"]
  ++ map (fun c => c +:+ "_norm") numeric_cols
  ++ ["triviality"; "importance"].

(** The invariant of a scored row. *)
Definition score_invariant (r : gmap string value) : Prop :=
  exists triviality importance : Q,
    r !! "triviality" = Some (VFloat triviality)
    /\ r !! "importance" = Some (VFloat importance)
    /\ (triviality + importance == 1)%Q
    /\ (0 <= triviality <= 1)%Q /\ (0 <= importance <= 1)%Q.

(** [function_rankings] of the ranked document. *)
Definition function_rankings (st : final_state) : list (gmap string value) :=
  map (dict_at (st_heap st)) (st_rows_sorted st).

(** The rows of the ranked table. *)
Definition ranked_table (st : final_state)
  : list (list (string * option value)) :=
  map csv_row (function_rankings st).

(** The rows in the order of the input nodes. *)
Definition rows_in_input_order (st : final_state) : list (gmap string value) :=
  map (dict_at (st_heap st)) (st_rows st).

(** What one node adds to the count of lines 50-53. *)
Definition decision_points (node : AST) : Z :=
  (if is_branch (node_ty node) then 1 else 0)
  + match node_ty node with
    | ast_BoolOp n => Z.max 0 (Z.of_nat n - 1)
    | _ => 0
    end.

Definition sum_Z (l : list Z) : Z := foldr Z.add 0 l.

(** The sort key of line 217, for a row whose importance is a number. *)
Definition importance_key (r : gmap string value) : Q :=
  default 0%Q (num (get r "importance" (VFloat 0))).

(** The text handed to the parser on the second attempt (line 40). *)
Definition wrapped (s : text) : text :=
  lit "def __wrapper__():" ++ [LF]
  ++ join [LF] (map (fun ln => lit "    " ++ ln) (splitlines s)).

(** Lines 235-249: the columns of the table.  [pd.DataFrame(rows)] has a
    column for every key of some row, and the pandas branch keeps the fixed
    columns found among them; the csv branch writes all fixed columns. *)
Definition has_key (rows : list (gmap string value)) (c : string) : bool :=
  existsb (fun r => bool_decide (is_Some (r !! c))) rows.

Definition cols_present (rows : list (gmap string value)) : list string :=
  filter (fun c => has_key rows c = true) csv_columns.

Definition table_columns (PANDAS_OK : bool) (rows : list (gmap string value))
  : list string :=
  if PANDAS_OK then cols_present rows else csv_columns.

End RankFunc.

(** ** ml.py *)

Module ML.
Import PyStr PyList.

(** *** Frames *)

(** A cell of a frame read by [pd.read_csv]: missing, a number, or text. *)
Inductive cell :=
| NaN
| Num (q : Q)
| Str (s : text).

(** A frame: its column labels and its rows, in index order.  A column a row
    has no entry for reads as [NaN]. *)
Record DataFrame := {
  columns : list string;
  records : list (gmap string cell)
}.

#[global] Instance Q_eq_dec : EqDecision Q.
Proof. solve_decision. Defined.

#[global] Instance cell_eq_dec : EqDecision cell.
Proof. solve_decision. Defined.

Definition cell_at (r : gmap string cell) (c : string) : cell :=
  default NaN (r !! c).

(** Equality of keys as [drop_duplicates] and [merge] see it. *)
Definition cell_eqb (a b : cell) : bool :=
  match a, b with
  | NaN, NaN => true
  | Num x, Num y => Qeq_bool x y
  | Str x, Str y => bool_decide (x = y)
  | _, _ => false
  end.

(** What the script can raise. *)
Inductive exn :=
| FileNotFoundError
| KeyError (column : string)
| ValueError (message : string)
| TypeError.

Inductive outcome (A : Type) :=
| Ok (a : A)
| Raise (e : exn).
Arguments Ok {A} a.
Arguments Raise {A} e.

#[global] Instance outcome_bind : MBind outcome :=
  fun A B (k : A -> outcome B) (m : outcome A) =>
    match m with
    | Ok a => k a
    | Raise e => Raise e
    end.

Fixpoint traverse {A B} (f : A -> outcome B) (l : list A) : outcome (list B) :=
  match l with
  | [] => Ok []
  | x :: l' => y ← f x; ys ← traverse f l'; Ok (y :: ys)
  end.

Definition require_column (c : string) (df : DataFrame) : outcome unit :=
  if bool_decide (c ∈ columns df) then Ok tt else Raise (KeyError c).

(** A cell of a numeric column: [None] is NaN; text in such a column makes
    the numeric operations of the script raise. *)
Definition float_cell (v : cell) : outcome (option Q) :=
  match v with
  | NaN => Ok None
  | Num q => Ok (Some q)
  | Str _ => Raise TypeError
  end.

(** [df[c]] as a column of floats. *)
Definition float_column (c : string) (df : DataFrame)
  : outcome (list (option Q)) :=
  _ ← require_column c df;
  traverse (fun r => float_cell (cell_at r c)) (records df).

(** [df[c] = vals] *)
Definition assign (c : string) (vals : list cell) (df : DataFrame)
  : DataFrame :=
  {| columns := if bool_decide (c ∈ columns df) then columns df
                else columns df ++ [c];
     records := zip_with (fun r v => <[c := v]> r) (records df) vals |}.

(** A cell read as a float: [None] for a missing one. *)
Definition float_of (v : cell) : option Q :=
  match v with
  | Num q => Some q
  | _ => None
  end.

(** Orders of [sort_values], missing keys last. *)
Definition desc_le (x y : option Q) : bool :=
  match x, y with
  | _, None => true
  | None, Some _ => false
  | Some a, Some b => Qle_bool b a
  end.

Definition asc_le (x y : option Q) : bool :=
  match x, y with
  | _, None => true
  | None, Some _ => false
  | Some a, Some b => Qle_bool a b
  end.

(** Rows paired with their sort key, sorted by it. *)
Definition sort_keyed {A} (le : option Q -> option Q -> bool)
    (l : list (option Q * A)) : list (option Q * A) :=
  stable_sort (fun x y => le (fst x) (fst y)) l.

(** [Series.median()]: missing values are skipped. *)
Definition median (vals : list (option Q)) : option Q :=
  let present := stable_sort Qle_bool (omap id vals) in
  let n := length present in
  if (n =? 0)%nat then None
  else if Nat.odd n then present !! (n / 2)%nat
  else
    a ← present !! (n / 2 - 1)%nat;
    b ← present !! (n / 2)%nat;
    Some ((a + b) / 2)%Q.

(** [df.head(n)] and [df.tail(n)] on the list of rows. *)
Definition head {A} (n : Z) (l : list A) : list A := slice_to n l.
Definition tail {A} (n : Z) (l : list A) : list A :=
  if n =? 0 then [] else slice_from (- n) l.

(** [drop_duplicates(subset=["id"])]: the first row of each id is kept. *)
Fixpoint drop_duplicates_id (seen : list cell) (l : list (gmap string cell))
  : list (gmap string cell) :=
  match l with
  | [] => []
  | r :: l' =>
      if existsb (cell_eqb (cell_at r "id")) seen
      then drop_duplicates_id seen l'
      else r :: drop_duplicates_id (cell_at r "id" :: seen) l'
  end.

(** *** The label-candidate sampler (lines 28-47) *)

Definition opt_cell (o : option Q) : cell :=
  match o with
  | Some q => Num q
  | None => NaN
  end.

Definition label_cols : list string :=
  ["id"; "label"; "importance"; "triviality"; "loc"; "complexity";
   "num_calls"; "num_params"; "doc_len"; "keyword_matches"; "one_liner";
   "has_type_annotations"]%string.

(** [if c not in candidates.columns: candidates[c] = ""] *)
Definition ensure_column (c : string) (df : DataFrame) : DataFrame :=
  if bool_decide (c ∈ columns df) then df
  else assign c (map (fun _ => Str []) (records df)) df.

(** The three bands, before they are concatenated. *)
Record bands := {
  top : list (gmap string cell);
  mid : list (gmap string cell);
  bottom : list (gmap string cell)
}.

(** The cells of a row the sampler works with. *)
Definition id_of (r : gmap string cell) : cell := cell_at r "id".
Definition importance_of (r : gmap string cell) : option Q :=
  float_of (cell_at r "importance").
Definition dist_of (r : gmap string cell) : option Q :=
  float_of (cell_at r "dist_med").

(** Rows whose id is a string. *)
Definition string_ids (l : list (gmap string cell)) : Prop :=
  Forall (fun r => exists s, id_of r = Str s) l.





(** The two orders of the sampler, on rows. *)
Definition by_importance (a b : gmap string cell) : bool :=
  desc_le (importance_of a) (importance_of b).
Definition by_distance (a b : gmap string cell) : bool :=
  asc_le (dist_of a) (dist_of b).

(** A row with its distance to the median [m] in column [dist_med]. *)
Definition distance_to (m : option Q) (r : gmap string cell) : option Q :=
  i ← importance_of r; m' ← m; Some (Qabs (i - m')).

Definition with_dist_med (m : option Q) (r : gmap string cell)
  : gmap string cell :=
  <["dist_med" := opt_cell (distance_to m r)]> r.

Definition select_bands (df : DataFrame) (n_top n_bottom n_mid : Z)
  : outcome bands :=
  imps ← float_column "importance" df;
  let df_sorted := map snd (sort_keyed desc_le (zip imps (records df))) in
  let imps_sorted := map fst (sort_keyed desc_le (zip imps (records df))) in
  let top := head n_top df_sorted in
  let bottom := tail n_bottom df_sorted in
  let median_imp := median imps_sorted in
  let dist_med :=
    map (fun imp => i ← imp; m ← median_imp; Some (Qabs (i - m))) imps_sorted in
  let with_dist :=
    zip_with (fun d r => (d, <["dist_med" := opt_cell d]> r))
             dist_med df_sorted in
  let mid := slice_to n_mid (map snd (sort_keyed asc_le with_dist)) in
  Ok {| top := top; mid := mid; bottom := bottom |}.



(** The ids of a table of candidates. *)
Definition candidate_ids (out : DataFrame) : list cell :=
  map id_of (records out).

(** The frame sorted by importance, and then by distance to the median. *)
Definition by_importance_sorted (df : DataFrame) : list (gmap string cell) :=
  stable_sort by_importance (records df).

Definition by_distance_sorted (df : DataFrame) : list (gmap string cell) :=
  let s := by_importance_sorted df in
  stable_sort by_distance
    (map (with_dist_med (median (map importance_of s))) s).

Definition prepare_label_candidates (df : DataFrame) (n_top n_bottom n_mid : Z)
  : outcome DataFrame :=
  b ← select_bands df n_top n_bottom n_mid;
  let concat :=
    {| columns := if bool_decide ("dist_med" ∈ columns df) then columns df
                  else columns df ++ ["dist_med"];
       records := top b ++ mid b ++ bottom b |} in
  _ ← require_column "id" concat;
  let candidates :=
    {| columns := columns concat;
       records := drop_duplicates_id [] (records concat) |} in
  let candidates := fold_left (fun df c => ensure_column c df) label_cols candidates in
  Ok (ensure_column "human_label" candidates).

(** *** Training and inference (lines 52-128) *)

(** The classifier the script delegates to (scikit-learn's pipeline of a
    scaler and a random forest): cross-validation, whose scores are only
    printed; fitting on feature vectors and 0/1 classes; and the probability
    of class 1 the fitted pipeline gives to a feature vector.  Each of them
    may raise. *)
Class Classifier := {
  model : Type;
  cross_validate : list (list Q) -> list bool -> outcome unit;
  fit : list (list Q) -> list bool -> outcome model;
  predict_proba_core : model -> list Q -> outcome Q
}.

Definition feature_cols : list string :=
  ["loc"; "complexity"; "num_calls"; "num_params"; "doc_len";
   "keyword_matches"; "num_imports"; "one_liner";
   "has_type_annotations"]%string.

(** [fillna(0).astype(float)] on one cell. *)
Definition filled_float (v : cell) : outcome Q :=
  match v with
  | NaN => Ok 0%Q
  | Num q => Ok q
  | Str _ => Raise (ValueError "could not convert string to float")
  end.

Definition build_feature_matrix (df : DataFrame)
  : outcome (list (list Q) * list string) :=
  let features := filter (fun c => c ∈ columns df) feature_cols in
  X ← traverse
         (fun r => traverse (fun c => filled_float (cell_at r c)) features)
         (records df);
  Ok (X, features).

Definition is_missing (v : cell) : bool :=
  match v with NaN => true | _ => false end.

Definition is_category (v : cell) : bool :=
  match v with
  | Str s => (bool_decide (s = lit "utility") || bool_decide (s = lit "core"))%bool
  | _ => false
  end.

(** Lines 75-76: the rows of the labels frame that are kept. *)
Definition valid_labels (lab : DataFrame) : list (gmap string cell) :=
  let lab := filter (fun r => is_missing (cell_at r "id") = false
                              /\ is_missing (cell_at r "human_label") = false)
                    (records lab) in
  filter (fun r => is_category (cell_at r "human_label") = true) lab.

(** [df_features.merge(lab, on="id", how="inner")]: for every row of the
    left frame, in order, one row per label row with the same id. *)
Definition merge_inner {A} (left : list (cell * A))
    (lab : list (gmap string cell)) : list (A * cell) :=
  flat_map
    (fun '(i, x) =>
       map (fun l => (x, cell_at l "human_label"))
           (filter (fun l => cell_eqb i (cell_at l "id") = true) lab))
    left.

(** [astype(float)] on one cell. *)
Definition filled_or_nan (v : cell) : outcome (option Q) :=
  match v with
  | NaN => Ok None
  | Num q => Ok (Some q)
  | Str _ => Raise (ValueError "could not convert string to float")
  end.

Definition combined_score (importance : option (option Q)) (prob : Q)
  : option Q :=
  match importance with
  | Some imp => i ← imp; Some (0.4 * i + 0.6 * prob)%Q
  | None => Some prob
  end.


(** What lines 109-117 make of one row, and its sort key. *)
Definition combined_row (has_importance : bool) (r : gmap string cell) (p : Q)
  : option Q * gmap string cell :=
  let score :=
    combined_score
      (if has_importance then Some (float_of (cell_at r "importance"))
       else None) p in
  (score, <["combined_score" := opt_cell score]>
            (<["model_prob_core" := Num p]> r)).

(** Lines 104-120, given the probabilities of the rows. *)
Definition combine (df : DataFrame) (prob_core : list Q) : outcome DataFrame :=
  let df_out := assign "model_prob_core" (map Num prob_core) df in
  scores ←
    (if bool_decide ("importance" ∈ columns df_out) then
       imps ← traverse (fun r => filled_or_nan (cell_at r "importance"))
                        (records df_out);
       Ok (zip_with (fun i p => combined_score (Some i) p) imps prob_core)
     else Ok (map (combined_score None) prob_core));
  let df_out := assign "combined_score" (map opt_cell scores) df_out in
  Ok {| columns := columns df_out;
        records := map snd (sort_keyed desc_le (zip scores (records df_out))) |}.





(** The feature vectors of the rows, and the rows joined with the labels. *)
Definition feature_names (df : DataFrame) : list string :=
  filter (fun c => c ∈ columns df) feature_cols.



(** What [train_and_evaluate] leaves behind. *)
Record training := {
  warned : bool;
  train_X : list (list Q);
  train_y : list bool;
  predictions : DataFrame
}.

Definition train_and_evaluate `{Classifier} (df lab : DataFrame)
  : outcome training :=
  '(X_all, feature_names) ← build_feature_matrix df;
  _ ← require_column "id" df;
  let df_features := zip (map (fun r => cell_at r "id") (records df)) X_all in
  _ ← (if bool_decide ("human_label" ∈ columns lab) then Ok tt
       else Raise (ValueError "labels.csv must contain a 'human_label' column with values 'utility' or 'core'"));
  _ ← require_column "id" lab;
  let lab := valid_labels lab in
  let merged := merge_inner df_features lab in
  let warned := bool_decide (length merged < 20)%nat in
  let X := map fst merged in
  let y := map (fun m => cell_eqb (snd m) (Str (lit "core"))) merged in
  _ ← cross_validate X y;
  pipe ← fit X y;
  prob_core ← traverse (predict_proba_core pipe) X_all;
  df_out ← combine df prob_core;
  Ok {| warned := warned; train_X := X; train_y := y; predictions := df_out |}.

(** *** The command line (lines 130-153) *)

Record args := {
  prepare_labels : bool;
  train : bool;
  candidates : Z
}.

Inductive action :=
| WroteCandidates (c : DataFrame)
| Trained (t : training)
| LabelsNotFound
| PrintedHelp.

(** [ranked] and [labels] are the two tables on disk, when they exist. *)
Definition main `{Classifier} (a : args) (ranked labels : option DataFrame)
  : outcome action :=
  match ranked with
  | None => Raise FileNotFoundError
  | Some df =>
      if prepare_labels a then
        let n := candidates a in
        c ← prepare_label_candidates df 50 50 (n - 100);
        Ok (WroteCandidates c)
      else if train a then
        match labels with
        | None => Ok LabelsNotFound
        | Some lab => t ← train_and_evaluate df lab; Ok (Trained t)
        end
      else Ok PrintedHelp
  end.

End ML.

(** ** verify.py *)

Module Verify.
Import PyStr PyList.

(** An id as the loaders return it: [None] when a node or row has none. *)
Abbreviation id := (option text).

(** How the process ends: [sys.exit(code)], or an uncaught exception. *)
Inductive status :=
| Exit (code : Z)
| Uncaught.

(** [set(a) - set(b)], as a list without repetition. *)
Definition set_difference (a b : list id) : list id :=
  filter (fun x => x ∉ b) (remove_dups a).

Fixpoint text_le (a b : text) : bool :=
  match a, b with
  | [], _ => true
  | _ :: _, [] => false
  | x :: a', y :: b' =>
      if N.ltb (code_point x) (code_point y) then true
      else if N.ltb (code_point y) (code_point x) then false
      else text_le a' b'
  end.

(** [sorted(list(s))]: [None] cannot be ordered with anything else. *)
Definition sorted_ids (l : list id) : option (list id) :=
  if (existsb (fun x => bool_decide (x = None)) l && (1 <? length l)%nat)%bool
  then None
  else Some (stable_sort
               (fun x y => match x, y with
                           | Some a, Some b => text_le a b
                           | _, _ => true
                           end) l).

(** A line of the report: fixed text, a count, or an id as it is. *)
Inductive line :=
| Text (s : string)
| Count (s : string) (n : nat)
| Item (i : id).

(** ["\n".join(report_lines)] raises on an item that is not a string. *)
Definition joinable (report_lines : list line) : bool :=
  forallb (fun l => match l with Item None => false | _ => true end)
          report_lines.

Definition nonempty {A} (l : list A) : bool :=
  match l with [] => false | _ => true end.

(** The report and the flag [ok] of lines 57-87. *)
Definition report (in_ids out_json_ids csv_ids : list id)
    (missing_in_json missing_in_csv extra_in_json extra_in_csv : list id)
  : bool * list line :=
  let ok := true in
  let report_lines :=
    [Count "Input nodes: " (length in_ids);
     Count "Output JSON rows: " (length out_json_ids);
     Count "Output CSV rows: " (length csv_ids);
     Text ""] in
  let '(ok, report_lines) :=
    if nonempty missing_in_json then
      (false,
       report_lines
       ++ [Text "MISSING IN ranked_functions.json (IDs present in input but NOT in output JSON):"]
       ++ map Item (take 200 missing_in_json))
    else (ok, report_lines ++ [Text "No missing IDs in ranked_functions.json"]) in
  let report_lines := report_lines ++ [Text ""] in
  let '(ok, report_lines) :=
    if nonempty missing_in_csv then
      (false,
       report_lines
       ++ [Text "MISSING IN ranked_functions_scores.csv (IDs present in input but NOT in output CSV):"]
       ++ map Item (take 200 missing_in_csv))
    else (ok, report_lines ++ [Text "No missing IDs in ranked_functions_scores.csv"]) in
  let report_lines := report_lines ++ [Text ""] in
  let report_lines :=
    if nonempty extra_in_json then
      report_lines
      ++ [Text "EXTRA IDs in ranked_functions.json not present in input (unexpected):"]
      ++ map Item (take 50 extra_in_json)
    else report_lines in
  let report_lines :=
    if nonempty extra_in_csv then
      report_lines
      ++ [Text "EXTRA IDs in ranked_functions_scores.csv not present in input (unexpected):"]
      ++ map Item (take 50 extra_in_csv)
    else report_lines in
  (ok, report_lines).

Definition main (in_ids out_json_ids csv_ids : list id) : status :=
  match
    sorted_ids (set_difference in_ids out_json_ids),
    sorted_ids (set_difference in_ids csv_ids),
    sorted_ids (set_difference out_json_ids in_ids),
    sorted_ids (set_difference csv_ids in_ids)
  with
  | Some missing_in_json, Some missing_in_csv,
    Some extra_in_json, Some extra_in_csv =>
      let '(ok, report_lines) :=
        report in_ids out_json_ids csv_ids
               missing_in_json missing_in_csv extra_in_json extra_in_csv in
      if joinable report_lines then
        if negb ok then Exit 2 else Exit 0
      else Uncaught
  | _, _, _, _ => Uncaught
  end.

(** The loaders of the two outputs (lines 19-36): the ids of the file, and
    no id when the file does not exist.  The loader of the input has no such
    test: without the input file the exception escapes. *)
Definition load_out_ids (file : option (list id)) : list id := default [] file.

Definition run (input out_json out_csv : option (list id)) : status :=
  match input with
  | None => Uncaught
  | Some in_ids => main in_ids (load_out_ids out_json) (load_out_ids out_csv)
  end.

End Verify.

(** ** label.py *)

Module Label.
Import PyStr PyList ML.

(** What the script takes from Python's built-ins on the cells of a row:
    [str(x)] of a number, and [float(s)] and [int(s)] of a text, [None] when
    they raise ValueError ([float(s)] may be nan, which is [Some None]). *)
Class Builtins := {
  str_of_number : Q -> text;
  float_of_text : text -> option (option Q);
  int_of_text : text -> option Z
}.

(** [row.get(c, d)] on a row of a frame with the columns [cols]. *)
Definition row_get (cols : list string) (row : gmap string cell)
    (c : string) (d : cell) : cell :=
  if bool_decide (c ∈ cols) then cell_at row c else d.

Definition py_str `{Builtins} (v : cell) : text :=
  match v with
  | NaN => lit "nan"
  | Num q => str_of_number q
  | Str s => s
  end.

(** [float(x)]: nan is [None]. *)
Definition py_float `{Builtins} (v : cell) : outcome (option Q) :=
  match v with
  | NaN => Ok None
  | Num q => Ok (Some q)
  | Str s =>
      match float_of_text s with
      | Some x => Ok x
      | None => Raise (ValueError "could not convert string to float")
      end
  end.

(** [int(x)]: a number is truncated towards zero, nan is refused. *)
Definition py_int `{Builtins} (v : cell) : outcome Z :=
  match v with
  | NaN => Raise (ValueError "cannot convert float NaN to integer")
  | Num q => Ok (Z.quot (Qnum q) (Zpos (Qden q)))
  | Str s =>
      match int_of_text s with
      | Some n => Ok n
      | None => Raise (ValueError "invalid literal for int() with base 10")
      end
  end.

(** [x <= y] and [x >= y] for a float [x] that may be nan. *)
Definition float_le (x : option Q) (y : Q) : bool :=
  match x with
  | Some a => Qle_bool a y
  | None => false
  end.

Definition float_ge (x : option Q) (y : Q) : bool :=
  match x with
  | Some a => Qle_bool y a
  | None => false
  end.

Definition util_keywords : list string :=
  ["util"; "helper"; "parse"; "to_"; "from_"; "convert";
   "str"; "format"; "encode"; "decode"; "validate"; "calc";
   "sum"; "avg"; "is_"; "has_"; "print"; "len"; "split"; "join";
   "replace"]%string.

Definition core_keywords : list string :=
  ["route"; "app"; "endpoint"; "request"; "response"; "schema"; "model";
   "router"; "startup"; "shutdown"; "include"; "register"; "mount";
   "middleware"; "api"; "handler"; "process"; "dispatch"; "run"]%string.

Definition utility : text := lit "utility".
Definition core : text := lit "core".
Definition uncertain : text := [].

(** Lines 16-52. *)
Definition guess_label `{Builtins} (cols : list string)
    (row : gmap string cell) : outcome text :=
  let name := lower (py_str (row_get cols row "label" (Str []))) in
  let file_id := lower (py_str (row_get cols row "id" (Str []))) in
  loc ← py_float (row_get cols row "loc" (Num 0));
  comp ← py_float (row_get cols row "complexity" (Num 0));
  kw ← py_float (row_get cols row "keyword_matches" (Num 0));
  one_liner ← py_int (row_get cols row "one_liner" (Num 0));
  if (RankFunc.any_in util_keywords name || negb (one_liner =? 0)
      || float_le loc 3 || float_ge kw 2)%bool
  then Ok utility
  else if (RankFunc.any_in core_keywords name || float_ge comp 6
           || float_ge loc 20)%bool
  then Ok core
  else if (contains (lit "utils") file_id
           || contains (lit "helpers") file_id)%bool
  then Ok utility
  else if (contains (lit "applications") file_id
           || contains (lit "routing") file_id
           || contains (lit "endpoints") file_id)%bool
  then Ok core
  else Ok uncertain.

(** The numbers of the printed summary (lines 58-62). *)
Record counts := {
  n_total : nat;
  n_core : nat;
  n_util : nat;
  n_uncertain : nat
}.

(** What the script writes: the labelled table, the table of the uncertain
    rows when there is one, and the summary. *)
Record written := {
  labels_out : DataFrame;
  uncertain_out : option DataFrame;
  summary : counts
}.

Definition labelled (l : text) (df : DataFrame) : list (gmap string cell) :=
  filter (fun r => cell_at r "human_label" = Str l) (records df).

(** The script (lines 11-14 and 55-82) on the table of candidates, when the
    file exists. *)
Definition auto_label `{Builtins} (candidates : option DataFrame)
  : outcome written :=
  match candidates with
  | None => Raise FileNotFoundError
  | Some df =>
      labels ← traverse (guess_label (columns df)) (records df);
      let df := assign "human_label" (map Str labels) df in
      let n_uncertain := length (labelled uncertain df) in
      Ok {| labels_out := df;
            uncertain_out :=
              if (0 <? n_uncertain)%nat
              then Some {| columns := columns df;
                           records := labelled uncertain df |}
              else None;
            summary := {| n_total := length (records df);
                          n_core := length (labelled core df);
                          n_util := length (labelled utility df);
                          n_uncertain := n_uncertain |} |}
  end.

End Label.

(** * Properties *)

Section PyStrFacts.
Import PyStr.

Lemma startswith_spec (p s : text) :
  startswith p s = true <-> exists post, s = p ++ post.
Proof.
  revert s; induction p as [|a p IH]; intros s; simpl.
  - split; eauto.
  - destruct s as [|b s]; simpl.
    + split; [discriminate | intros [post H]; discriminate].
    + unfold eqc. rewrite andb_true_iff, Ascii.eqb_eq, IH. split.
      * intros [-> [post ->]]. eauto.
      * intros [post H]. injection H as -> ->. eauto.
Qed.

Lemma contains_spec (sub s : text) :
  contains sub s = true <-> exists pre post, s = pre ++ sub ++ post.
Proof.
  induction s as [|c s IH]; simpl.
  - rewrite orb_false_r, startswith_spec. split.
    + intros [post H]. exists [], post. exact H.
    + intros [pre [post H]]. destruct pre; simpl in H; [eauto | discriminate].
  - rewrite orb_true_iff, startswith_spec, IH. split.
    + intros [[post H] | [pre [post H]]].
      * exists [], post. exact H.
      * exists (c :: pre), post. simpl. now rewrite H.
    + intros [pre [post H]]. destruct pre as [|d pre]; simpl in H.
      * left. eauto.
      * right. injection H as _ H. eauto.
Qed.

Lemma isword_not_isspace (c : ascii) : isword c = true -> isspace c = false.
Proof.
  destruct c as [[] [] [] [] [] [] [] []]; vm_compute; congruence.
Qed.

Lemma match_spaces_word_spec (s : text) :
  match_spaces_word s = true <->
  exists ws w post,
    s = ws ++ w :: post /\ forallb isspace ws = true /\ isword w = true.
Proof.
  induction s as [|c s IH]; simpl.
  - split; [discriminate |].
    intros (ws & w & post & H & _). destruct ws; discriminate.
  - destruct (isword c) eqn:Hw.
    + split; [intros _ | trivial]. exists [], c, s. auto.
    + destruct (isspace c) eqn:Hs.
      * rewrite IH. split.
        -- intros (ws & w & post & -> & Hws & Hw').
           exists (c :: ws), w, post. simpl. rewrite Hs. auto.
        -- intros (ws & w & post & H & Hws & Hw').
           destruct ws as [|d ws]; simpl in *.
           ++ injection H as -> ->. congruence.
           ++ injection H as -> ->. apply andb_true_iff in Hws as [_ Hws].
              exists ws, w, post. auto.
      * split; [discriminate |].
        intros (ws & w & post & H & Hws & Hw').
        destruct ws as [|d ws]; simpl in *; injection H as -> ->.
        -- congruence.
        -- apply andb_true_iff in Hws as [Hd _]. congruence.
Qed.

Lemma search_colon_word_spec (s : text) :
  search_colon_word s = true <->
  exists pre ws w post,
    s = pre ++ ":"%char :: ws ++ w :: post
    /\ forallb isspace ws = true /\ isword w = true.
Proof.
  induction s as [|c s IH]; simpl.
  - split; [discriminate |].
    intros (pre & ws & w & post & H & _). destruct pre; discriminate.
  - unfold eqc at 1.
    rewrite orb_true_iff, andb_true_iff, Ascii.eqb_eq, IH,
      match_spaces_word_spec.
    split.
    + intros [[-> (ws & w & post & -> & Hws & Hw)]
             | (pre & ws & w & post & -> & Hws & Hw)].
      * exists [], ws, w, post. auto.
      * exists (c :: pre), ws, w, post. auto.
    + intros (pre & ws & w & post & H & Hws & Hw).
      destruct pre as [|d pre]; simpl in H; injection H as -> ->.
      * left. split; [reflexivity |]. exists ws, w, post. auto.
      * right. exists pre, ws, w, post. auto.
Qed.

Lemma search_colon_word_contains (s : text) :
  search_colon_word s = true -> contains (lit ":") s = true.
Proof.
  rewrite search_colon_word_spec, contains_spec.
  intros (pre & ws & w & post & -> & _). exists pre, (ws ++ w :: post).
  reflexivity.
Qed.

End PyStrFacts.

Section TypeAnnotations.
Import PyStr RankFunc.

(** C7, as stated, fails: in ["x: y"] the colon is followed by a space, so
    no colon is immediately followed by a word character and there is no
    arrow, yet the flag is set. *)
Lemma has_type_annotations_not_immediate :
  has_type_annotations (lit "x: y") = true
  /\ spec_has_type_annotations (lit "x: y") = false.
Proof. split; vm_compute; reflexivity. Qed.

(** C7 (amended): the flag is set exactly when the text contains both a
    colon and an arrow, or a colon followed by any run (possibly empty) of
    whitespace characters and then a word character. *)
Theorem has_type_annotations_iff (code : text) :
  has_type_annotations code = true <->
  ((exists pre post, code = pre ++ lit ":" ++ post)
   /\ (exists pre post, code = pre ++ lit "->" ++ post))
  \/ (exists pre ws w post,
        code = pre ++ ":"%char :: ws ++ w :: post
        /\ forallb isspace ws = true /\ isword w = true).
Proof.
  unfold has_type_annotations.
  rewrite orb_true_iff, !andb_true_iff, <- !contains_spec,
    <- search_colon_word_spec.
  split.
  - intros [H | [_ H]]; auto.
  - intros [H | H]; auto using search_colon_word_contains.
Qed.

End TypeAnnotations.

(** ** ast.walk yields every node once *)

Section WalkFacts.
Import Ast.

Lemma size_nodes_of : forall t : AST, size t = length (nodes_of t).
Proof.
  fix IH 1. intros [ty cs]. simpl. f_equal.
  induction cs as [|c cs IHcs]; simpl; [done |].
  by rewrite length_app, <- IH, IHcs.
Qed.

Lemma walk_queue_Permutation (fuel : nat) :
  forall queue : list AST,
    (length (flat_map nodes_of queue) <= fuel)%nat ->
    walk_queue fuel queue ≡ₚ flat_map nodes_of queue.
Proof.
  induction fuel as [|fuel IH]; intros [|[ty cs] queue] Hlen; simpl in *;
    try done; [lia |].
  constructor. rewrite IH.
  - rewrite flat_map_app. apply Permutation_app_comm.
  - rewrite flat_map_app, length_app in *. lia.
Qed.

Lemma walk_Permutation (t : AST) : walk t ≡ₚ nodes_of t.
Proof.
  unfold walk. rewrite walk_queue_Permutation.
  - simpl. by rewrite app_nil_r.
  - simpl. rewrite app_nil_r, size_nodes_of. done.
Qed.

End WalkFacts.

(** ** Lists and sorting *)

Section PyListFacts.
Import PyList.
Context {A : Type} (le : A -> A -> bool).

Lemma map_fmap {B C} (f : B -> C) (l : list B) : map f l = f <$> l.
Proof. induction l as [|x l IH]; simpl; [done | by rewrite IH]. Qed.

Lemma insert_by_Permutation (x : A) (l : list A) :
  insert_by le x l ≡ₚ x :: l.
Proof.
  induction l as [|y l IH]; simpl; [done |].
  destruct (le x y); [done |].
  rewrite IH. apply Permutation_swap.
Qed.

Lemma stable_sort_Permutation (l : list A) : stable_sort le l ≡ₚ l.
Proof.
  induction l as [|x l IH]; simpl; [done |].
  fold (stable_sort le l). rewrite insert_by_Permutation. by f_equiv.
Qed.



Lemma insert_by_map {B} (f : B -> A) (x : B) (l : list B) :
  insert_by le (f x) (map f l)
  = map f (insert_by (fun a b => le (f a) (f b)) x l).
Proof.
  induction l as [|y l IH]; simpl; [done |].
  destruct (le (f x) (f y)); simpl; [done | by rewrite IH].
Qed.

Lemma stable_sort_map {B} (f : B -> A) (l : list B) :
  stable_sort le (map f l)
  = map f (stable_sort (fun a b => le (f a) (f b)) l).
Proof.
  induction l as [|x l IH]; simpl; [done |].
  fold (stable_sort le (map f l)). rewrite IH. apply insert_by_map.
Qed.

Hypothesis le_total : forall x y, le x y = true \/ le y x = true.

Lemma insert_by_HdRel (a x : A) (l : list A) :
  le a x = true -> HdRel (le_rel le) a l -> HdRel (le_rel le) a (insert_by le x l).
Proof.
  intros Hax Hl. destruct l as [|y l]; simpl.
  - by constructor.
  - destruct (le x y); constructor; [done |].
    by apply HdRel_inv in Hl.
Qed.

Lemma insert_by_Sorted (x : A) (l : list A) :
  Sorted (le_rel le) l -> Sorted (le_rel le) (insert_by le x l).
Proof.
  induction 1 as [|y l Hs IH Hhd]; simpl.
  - repeat constructor.
  - destruct (le x y) eqn:Hxy.
    + constructor; [by constructor |]. by constructor.
    + constructor; [done |]. apply insert_by_HdRel; [|done].
      destruct (le_total x y); congruence.
Qed.

Lemma stable_sort_Sorted (l : list A) : Sorted (le_rel le) (stable_sort le l).
Proof.
  induction l as [|x l IH]; simpl; [constructor |].
  by apply insert_by_Sorted.
Qed.

Hypothesis le_trans : forall x y z,
  le x y = true -> le y z = true -> le x z = true.


End PyListFacts.

(** ** verify.py: the exit status *)

Section VerifyFacts.
Import PyList Verify.

Lemma set_difference_nil (a b : list id) :
  set_difference a b = [] <-> a ⊆ b.
Proof.
  unfold set_difference. split.
  - intros H x Hx. destruct (decide (x ∈ b)) as [|Hn]; [done |].
    assert (x ∈ filter (fun x => x ∉ b) (remove_dups a)) as Hin.
    { apply list_elem_of_filter. split; [done |]. by apply elem_of_remove_dups. }
    rewrite H in Hin. by apply elem_of_nil in Hin.
  - intros H. apply elem_of_nil_inv. intros x Hx.
    apply list_elem_of_filter in Hx as [Hn Hx].
    rewrite elem_of_remove_dups in Hx. exact (Hn (H x Hx)).
Qed.

Lemma set_difference_Forall (P : id -> Prop) (a b : list id) :
  Forall P a -> Forall P (set_difference a b).
Proof.
  rewrite !Forall_forall. intros H x Hx. apply H.
  unfold set_difference in Hx.
  apply list_elem_of_filter in Hx as [_ Hx]. by rewrite elem_of_remove_dups in Hx.
Qed.

Lemma sorted_ids_strings (l : list id) :
  Forall is_Some l ->
  exists l', sorted_ids l = Some l' /\ l' ≡ₚ l.
Proof.
  intros H. eexists. split; [| apply stable_sort_Permutation].
  unfold sorted_ids. destruct (existsb _ l) eqn:Hex; [| reflexivity].
  exfalso. apply existsb_exists in Hex.
  destruct Hex as (x & Hx & Hnone). apply bool_decide_eq_true in Hnone.
  apply list_elem_of_In in Hx. rewrite Forall_forall in H.
  destruct (H x Hx) as [? ->]. discriminate.
Qed.

Lemma nonempty_Permutation {B} (l k : list B) :
  l ≡ₚ k -> nonempty l = nonempty k.
Proof.
  intros H. apply Permutation_length in H.
  destruct l, k; simpl in *; congruence.
Qed.

Lemma joinable_app (l k : list line) :
  joinable (l ++ k) = (joinable l && joinable k)%bool.
Proof. apply forallb_app. Qed.

Lemma joinable_items (l : list id) :
  Forall is_Some l -> joinable (map Item l) = true.
Proof.
  induction 1 as [|x l [y ->] _ IH]; simpl; [done |]. exact IH.
Qed.

Lemma report_ok (a b c m1 m2 e1 e2 : list id) :
  fst (report a b c m1 m2 e1 e2)
  = (negb (nonempty m1) && negb (nonempty m2))%bool.
Proof.
  unfold report.
  destruct (nonempty m1), (nonempty m2), (nonempty e1), (nonempty e2);
    reflexivity.
Qed.

Lemma report_joinable (a b c m1 m2 e1 e2 : list id) :
  Forall is_Some m1 -> Forall is_Some m2 ->
  Forall is_Some e1 -> Forall is_Some e2 ->
  joinable (snd (report a b c m1 m2 e1 e2)) = true.
Proof.
  intros H1 H2 H3 H4. unfold report.
  pose proof (joinable_items _ (Forall_take _ 200%nat _ H1)) as J1.
  pose proof (joinable_items _ (Forall_take _ 200%nat _ H2)) as J2.
  pose proof (joinable_items _ (Forall_take _ 50%nat _ H3)) as J3.
  pose proof (joinable_items _ (Forall_take _ 50%nat _ H4)) as J4.
  destruct (nonempty m1), (nonempty m2), (nonempty e1), (nonempty e2);
    cbn [snd]; rewrite ?joinable_app, ?J1, ?J2, ?J3, ?J4; reflexivity.
Qed.

(** C6, as stated, fails: the ranked JSON holds the extra id ["b"], so the id
    sets differ, and the command still exits with status 0. *)
Lemma verify_extra_id_exit_zero :
  let a := Some (PyStr.lit "a") in
  let b := Some (PyStr.lit "b") in
  (b ∈ [a; b]) /\ (b ∉ [a]) /\ main [a] [a; b] [a] = Exit 0.
Proof.
  cbv zeta. split; [| split].
  - set_solver.
  - intros H. apply list_elem_of_singleton in H. discriminate.
  - vm_compute. reflexivity.
Qed.

(** C6 (amended): on ids that are strings, the command exits with status 2
    when some input id is missing from the ranked JSON or from the ranked
    table, and with status 0 otherwise; ids found only in an output are
    listed in the report and do not change the status. *)
Theorem verify_exit_status (in_ids out_json_ids csv_ids : list id) :
  Forall is_Some in_ids ->
  Forall is_Some out_json_ids ->
  Forall is_Some csv_ids ->
  main in_ids out_json_ids csv_ids
  = if bool_decide (in_ids ⊆ out_json_ids /\ in_ids ⊆ csv_ids)
    then Exit 0 else Exit 2.
Proof.
  intros Hin Hjson Hcsv. unfold main.
  destruct (sorted_ids_strings (set_difference in_ids out_json_ids))
    as (m1 & -> & P1); [by apply set_difference_Forall |].
  destruct (sorted_ids_strings (set_difference in_ids csv_ids))
    as (m2 & -> & P2); [by apply set_difference_Forall |].
  destruct (sorted_ids_strings (set_difference out_json_ids in_ids))
    as (e1 & -> & P3); [by apply set_difference_Forall |].
  destruct (sorted_ids_strings (set_difference csv_ids in_ids))
    as (e2 & -> & P4); [by apply set_difference_Forall |].
  pose proof (report_ok in_ids out_json_ids csv_ids m1 m2 e1 e2) as Hok.
  pose proof (report_joinable in_ids out_json_ids csv_ids m1 m2 e1 e2) as Hj.
  destruct (report in_ids out_json_ids csv_ids m1 m2 e1 e2) as [ok ls].
  simpl in Hok, Hj. rewrite Hj.
  2: rewrite P1. 3: rewrite P2. 4: rewrite P3. 5: rewrite P4.
  2-5: by apply set_difference_Forall.
  subst ok.
  rewrite (nonempty_Permutation _ _ P1), (nonempty_Permutation _ _ P2).
  case_bool_decide as Hsub.
  - destruct Hsub as [S1 S2].
    apply set_difference_nil in S1, S2. rewrite S1, S2. reflexivity.
  - destruct (set_difference in_ids out_json_ids) eqn:E1;
      destruct (set_difference in_ids csv_ids) eqn:E2; simpl; try reflexivity.
    exfalso. apply Hsub. by rewrite <- !set_difference_nil.
Qed.

Lemma verify_exit_status_witness :
  main [Some (PyStr.lit "a"); Some (PyStr.lit "b")]
       [Some (PyStr.lit "b")]
       [Some (PyStr.lit "a"); Some (PyStr.lit "b")]
  = Exit 2.
Proof.
  rewrite (verify_exit_status
             [Some (PyStr.lit "a"); Some (PyStr.lit "b")]
             [Some (PyStr.lit "b")]
             [Some (PyStr.lit "a"); Some (PyStr.lit "b")]).
  - vm_compute. reflexivity.
  - repeat constructor; eexists; reflexivity.
  - repeat constructor; eexists; reflexivity.
  - repeat constructor; eexists; reflexivity.
Defined.

End VerifyFacts.

(** ** rank_func.py: the score of one row *)

Section ScoreFacts.
Import PyStr PyList Ast RankFunc.
Context `{RT : Runtime}.

Local Open Scope Q_scope.

Lemma clamp_bounds (x : Q) : 0 <= Qmax 0 (Qmin 1 x) <= 1.
Proof.
  split; [apply Q.le_max_l |].
  apply Q.max_lub; [lra | apply Q.le_min_l].
Qed.

Lemma compute_triviality_bounds (r : gmap string value) (t : Q) :
  compute_triviality r = Some t -> 0 <= t <= 1.
Proof.
  unfold compute_triviality. intros H.
  destruct (base_score r) as [score|]; [| discriminate].
  destruct (is_trivial_one_liner r) as [trivial|]; [| discriminate].
  destruct (is_documented r) as [documented|]; [| discriminate].
  simpl in H. injection H as <-. apply clamp_bounds.
Qed.

Lemma round_half_even_Z (x : Q) (z : Z) :
  x == inject_Z z -> round_half_even x = z.
Proof.
  intros Hx. unfold round_half_even.
  rewrite (Qfloor_comp _ _ Hx), Qfloor_Z.
  assert ((x - inject_Z z ?= 1 # 2) = Lt) as ->; [| reflexivity].
  rewrite <- Qlt_alt. lra.
Qed.

Lemma round_half_even_bounds (x : Q) (n : Z) :
  0 <= x <= inject_Z n -> (0 <= round_half_even x <= n)%Z.
Proof.
  intros [H0 Hn]. unfold round_half_even.
  pose proof (Qfloor_le x) as Hfl. pose proof (Qlt_floor x) as Hlt.
  assert (0 <= Qfloor x)%Z as Hf0.
  { change 0%Z with (Qfloor 0). by apply Qfloor_resp_le. }
  assert (Qfloor x <= n)%Z as Hfn.
  { rewrite <- (Qfloor_Z n). by apply Qfloor_resp_le. }
  assert (inject_Z (Qfloor x) < x -> (Qfloor x + 1 <= n)%Z) as Hstep.
  { intros Hx. assert (inject_Z (Qfloor x) < inject_Z n) as Hq by lra.
    rewrite <- Zlt_Qlt in Hq. lia. }
  destruct (x - inject_Z (Qfloor x) ?= 1 # 2) eqn:Hc.
  - apply Qeq_alt in Hc. destruct (Z.even (Qfloor x)); [lia |].
    split; [lia |]. apply Hstep. lra.
  - lia.
  - apply Qgt_alt in Hc. split; [lia |]. apply Hstep. lra.
Qed.

(** [round4] of a score in [0, 1] is [k / 10000] for some [0 <= k <= 10000]. *)
Lemma round4_unit (t : Q) :
  0 <= t <= 1 ->
  exists k : Z, (0 <= k <= 10000)%Z /\ round4 t = inject_Z k / 10000.
Proof.
  intros Ht. exists (round_half_even (t * 10000)). split; [| reflexivity].
  apply round_half_even_bounds. change (inject_Z 10000) with 10000. lra.
Qed.

Lemma round4_complement (k : Z) :
  round4 (1 - inject_Z k / 10000) == inject_Z (10000 - k) / 10000.
Proof.
  unfold round4. rewrite (round_half_even_Z _ (10000 - k)); [reflexivity |].
  unfold Z.sub. rewrite inject_Z_plus, inject_Z_opp.
  change (inject_Z 10000) with 10000. field.
Qed.

(** The two values the scoring loop stores. *)
Lemma round4_pair (t : Q) :
  0 <= t <= 1 ->
  let triviality := round4 t in
  let importance := round4 (1 - triviality) in
  triviality + importance == 1
  /\ 0 <= triviality <= 1 /\ 0 <= importance <= 1.
Proof.
  intros Ht. cbv zeta.
  destruct (round4_unit t Ht) as (k & Hk & ->).
  rewrite round4_complement. unfold Z.sub.
  rewrite inject_Z_plus, inject_Z_opp. change (inject_Z 10000) with 10000.
  assert (0 <= inject_Z k <= 10000) as Hq.
  { change 0 with (inject_Z 0). change 10000 with (inject_Z 10000).
    rewrite <- !Zle_Qle. lia. }
  split; [field |].
  split; split.
  - apply Qle_shift_div_l; lra.
  - apply Qle_shift_div_r; lra.
  - apply Qle_shift_div_l; lra.
  - apply Qle_shift_div_r; lra.
Qed.

Lemma score_row_invariant (r r' : gmap string value) :
  score_row r = Some r' -> score_invariant r'.
Proof.
  unfold score_row. intros H.
  destruct (compute_triviality r) as [t|] eqn:Ht; [| discriminate].
  simpl in H. unfold get in H. rewrite lookup_insert_eq in H.
  simpl in H. injection H as <-.
  apply compute_triviality_bounds in Ht.
  destruct (round4_pair t Ht) as (Hsum & Htr & Him).
  exists (round4 t), (round4 (1 - round4 t)).
  rewrite lookup_insert_eq, lookup_insert_ne, lookup_insert_eq by done.
  auto.
Qed.

End ScoreFacts.

(** ** rank_func.py: the loops over the store *)

Section StoreFacts.
Import PyStr PyList Ast RankFunc.
Context `{RT : Runtime}.

Local Open Scope nat_scope.

Lemma mapM_map {A B C} (f : A -> B) (g : B -> option C) (l : list A) :
  mapM g (map f l) = mapM (fun x => g (f x)) l.
Proof. induction l as [|x l IH]; simpl; [done | by rewrite IH]. Qed.

Lemma dict_at_app_r (pre : heap) (ds : list (gmap string value)) (i : nat) :
  (i < length ds)%nat ->
  dict_at (pre ++ map Dict ds) (length pre + i) = default ∅ (ds !! i).
Proof.
  intros Hi. unfold dict_at.
  rewrite lookup_app_r by lia.
  replace (length pre + i - length pre)%nat with i by lia.
  rewrite map_fmap, list_lookup_fmap.
  by destruct (ds !! i).
Qed.

Lemma dict_at_rows (pre : heap) (ds : list (gmap string value)) :
  map (dict_at (pre ++ map Dict ds)) (seq (length pre) (length ds)) = ds.
Proof.
  rewrite map_fmap. apply list_eq. intros i.
  rewrite list_lookup_fmap.
  destruct (decide (i < length ds)%nat) as [Hi|Hi].
  - rewrite lookup_seq_lt by done. simpl.
    rewrite dict_at_app_r by done.
    destruct (lookup_lt_is_Some_2 ds i Hi) as [d ->]. done.
  - rewrite lookup_seq_ge by lia. rewrite lookup_ge_None_2 by lia. done.
Qed.

(** *** Extraction appends one new object per node *)

Lemma stage_extract_fold (h0 : heap) (m : nat) :
  forall (k : nat) (new : heap) (acc : list addr),
    (k + m <= length h0)%nat ->
    fold_left extract_node (seq k m) (h0 ++ new, acc)
    = (h0 ++ new ++ map (fun o => Dict (build_row o)) (take m (drop k h0)),
       acc ++ seq (length h0 + length new) m).
Proof.
  induction m as [|m IH]; intros k new acc Hk; simpl.
  - by rewrite !app_nil_r.
  - destruct (lookup_lt_is_Some_2 h0 k) as [o Ho]; [lia |].
    rewrite lookup_app_l, Ho by lia.
    rewrite <- (assoc_L (++)), IH by lia.
    rewrite (drop_S _ _ _ Ho). simpl.
    rewrite <- !(assoc_L (++)). simpl.
    rewrite !length_app. simpl.
    do 3 f_equal. f_equal. lia.
Qed.

Lemma stage_extract_spec (nodes : list obj) :
  stage_extract (seq 0 (length nodes)) nodes
  = (nodes ++ map (fun o => Dict (build_row o)) nodes,
     seq (length nodes) (length nodes)).
Proof.
  unfold stage_extract.
  pose proof (stage_extract_fold nodes (length nodes) 0 [] []) as H.
  rewrite app_nil_r in H. rewrite H by lia.
  simpl. rewrite drop_0, firstn_all, Nat.add_0_r. done.
Qed.

(** *** Normalisation updates the row objects where they are *)

Lemma on_dict_compose (f g : gmap string value -> gmap string value) (o : obj) :
  on_dict f (on_dict g o) = on_dict (fun d => f (g d)) o.
Proof. by destruct o. Qed.

Lemma write_norm_row_alter (cn : list (string * list Q)) (i : nat) (r : addr) :
  forall h : heap,
    write_norm_row cn h (i, r) = alter (on_dict (norm_row cn i)) r h.
Proof.
  unfold write_norm_row, norm_row.
  induction cn as [|c cn IH]; intros h; simpl.
  - symmetry. apply list_alter_id. by intros [].
  - rewrite IH. unfold setitem.
    rewrite list_alter_alter_eq.
    apply list_alter_ext; [| done].
    intros o _. by destruct o.
Qed.

Lemma alter_new_row (pre : heap) (f : gmap string value -> gmap string value)
    (d : gmap string value) (rest : heap) :
  alter (on_dict f) (length pre) (pre ++ Dict d :: rest)
  = pre ++ Dict (f d) :: rest.
Proof.
  rewrite alter_app_r_alt by lia.
  by replace (length pre - length pre)%nat with O by lia.
Qed.

Lemma write_norms_fold (cn : list (string * list Q))
    (ds : list (gmap string value)) :
  forall (pre : heap) (j : nat),
    fold_left (write_norm_row cn)
      (imap (fun i r => (j + i, r)%nat) (seq (length pre) (length ds)))
      (pre ++ map Dict ds)
    = pre ++ map Dict (imap (fun i => norm_row cn (j + i)) ds).
Proof.
  induction ds as [|d ds IH]; intros pre j; [done |].
  cbn [length seq map]. rewrite !imap_cons. cbn [fold_left].
  rewrite write_norm_row_alter, alter_new_row.
  rewrite (imap_ext _ (fun i r => (S j + i, r)))
    by (intros; simpl; f_equal; lia).
  replace (pre ++ Dict (norm_row cn (j + 0) d) :: map Dict ds)
    with ((pre ++ [Dict (norm_row cn (j + 0) d)]) ++ map Dict ds)
    by (by rewrite <- (assoc_L (++))).
  replace (S (length pre)) with (length (pre ++ [Dict (norm_row cn (j + 0) d)]))
    by (rewrite length_app; simpl; lia).
  rewrite IH, <- (assoc_L (++)). simpl. do 3 f_equal.
  apply imap_ext. intros. simpl. f_equal. lia.
Qed.

Lemma stage_normalize_spec (pre : heap) (ds : list (gmap string value)) :
  stage_normalize (seq (length pre) (length ds)) (pre ++ map Dict ds)
  = cn ← col_norms ds; Some (pre ++ map Dict (imap (norm_row cn) ds)).
Proof.
  unfold stage_normalize, col_norms, col_vals.
  erewrite (mapM_ext _ (fun c =>
      vals ← mapM (fun d => num (get d c (VInt 0))) ds; Some (c, min_max vals))).
  - destruct (mapM _ numeric_cols) as [cn|]; [| done]. simpl.
    f_equal. exact (write_norms_fold cn ds pre 0).
  - intros c. simpl.
    rewrite <- (mapM_map (dict_at (pre ++ map Dict ds))
                         (fun d => num (get d c (VInt 0)))).
    by rewrite dict_at_rows.
Qed.

(** *** Scoring updates the row objects where they are *)

Lemma score_in_place_spec (pre : heap) (d : gmap string value) (rest : heap) :
  score_in_place (length pre) (pre ++ Dict d :: rest)
  = d' ← score_row d; Some (pre ++ Dict d' :: rest).
Proof.
  unfold score_in_place, score_row.
  assert (forall x, dict_at (pre ++ Dict x :: rest) (length pre) = x) as Hat.
  { intros x. unfold dict_at. by rewrite list_lookup_middle. }
  rewrite Hat. destruct (compute_triviality d) as [t|]; [| done]. simpl.
  unfold setitem. rewrite alter_new_row, Hat.
  unfold get. rewrite lookup_insert_eq. simpl.
  by rewrite alter_new_row.
Qed.

Lemma stage_score_spec (ds : list (gmap string value)) :
  forall pre : heap,
    stage_score (seq (length pre) (length ds)) (pre ++ map Dict ds)
    = ds' ← mapM score_row ds; Some (pre ++ map Dict ds').
Proof.
  induction ds as [|d ds IH]; intros pre; simpl; [done |].
  rewrite score_in_place_spec.
  destruct (score_row d) as [d'|]; [| done]. simpl.
  replace (pre ++ Dict d' :: map Dict ds)
    with ((pre ++ [Dict d']) ++ map Dict ds)
    by (by rewrite <- (assoc_L (++))).
  replace (S (length pre)) with (length (pre ++ [Dict d']))
    by (rewrite length_app; simpl; lia).
  rewrite IH.
  destruct (mapM score_row ds) as [ds'|]; [| done]. simpl.
  by rewrite <- (assoc_L (++)).
Qed.

End StoreFacts.

(** ** rank_func.py: the keys of a row *)

Section RowFacts.
Import PyStr PyList Ast RankFunc.
Context `{RT : Runtime}.

Local Open Scope nat_scope.

Ltac lookup_chain :=
  repeat (rewrite lookup_insert_ne by done); rewrite ?lookup_insert_eq.

(** What [build_row] stores under the keys the later stages read. *)
Lemma build_row_numeric (o : obj) (c : string) :
  c ∈ numeric_cols -> exists v, build_row o !! c = Some v /\ is_Some (num v).
Proof.
  intros Hc. unfold numeric_cols in Hc.
  repeat (apply elem_of_cons in Hc as [-> | Hc]);
    [.. | by apply elem_of_nil in Hc];
    unfold build_row; cbv zeta; lookup_chain; eexists; (split; [reflexivity |]);
    simpl; eauto.
Qed.

(** Keys outside the extractor's own are copied from the node. *)
Lemma build_row_frame (o : obj) (k : string) :
  k ∉ written_keys -> build_row o !! k = original_node o !! k.
Proof.
  intros Hk. unfold build_row. cbv zeta.
  repeat (rewrite lookup_insert_ne;
          [| intros <-; apply Hk; unfold written_keys; simpl; set_solver]).
  done.
Qed.

Lemma norm_row_snoc (cn : list (string * list Q)) (c : string * list Q)
    (i : nat) (d : gmap string value) :
  norm_row (cn ++ [c]) i d
  = <[fst c +:+ "_norm" := VFloat (nth i (snd c) 0%Q)]> (norm_row cn i d).
Proof. unfold norm_row. by rewrite fold_left_app. Qed.

Lemma norm_row_lookup_ne (cn : list (string * list Q)) (i : nat)
    (d : gmap string value) (k : string) :
  k ∉ map (fun c => c +:+ "_norm") (map fst cn) ->
  norm_row cn i d !! k = d !! k.
Proof.
  induction cn as [|c cn IH] using rev_ind; intros Hk; [done |].
  rewrite norm_row_snoc. rewrite !map_app in Hk. simpl in Hk.
  apply not_elem_of_app in Hk as [Hk1 Hk2].
  rewrite lookup_insert_ne; [by apply IH |].
  intros <-. apply Hk2. by apply list_elem_of_singleton.
Qed.

Lemma norm_row_lookup_float (cn : list (string * list Q)) (i : nat)
    (d : gmap string value) (c : string) :
  c ∈ map fst cn ->
  exists q, norm_row cn i d !! (c +:+ "_norm") = Some (VFloat q).
Proof.
  induction cn as [|x cn IH] using rev_ind; intros Hc.
  - by apply elem_of_nil in Hc.
  - rewrite norm_row_snoc. rewrite map_app in Hc. simpl in Hc.
    destruct (decide (fst x +:+ "_norm" = c +:+ "_norm")) as [->|Hne].
    + rewrite lookup_insert_eq. eauto.
    + rewrite lookup_insert_ne by done. apply IH.
      apply elem_of_app in Hc as [Hc | Hc]; [done |].
      apply list_elem_of_singleton in Hc. by subst.
Qed.

Lemma col_norms_columns (ds : list (gmap string value))
    (cn : list (string * list Q)) :
  col_norms ds = Some cn -> map fst cn = numeric_cols.
Proof.
  unfold col_norms. intros H. apply mapM_Some in H.
  induction H as [|c y cs ys Hy _ IH]; [done |].
  simpl. rewrite IH. f_equal.
  destruct (mapM _ ds); simpl in Hy; [| discriminate].
  by injection Hy as <-.
Qed.

Lemma col_norms_total (ds : list (gmap string value)) :
  (forall d c, d ∈ ds -> c ∈ numeric_cols ->
               exists v, d !! c = Some v /\ is_Some (num v)) ->
  is_Some (col_norms ds).
Proof.
  intros H. unfold col_norms. apply mapM_is_Some, Forall_forall.
  intros c Hc. simpl.
  assert (is_Some (mapM (fun d => num (get d c (VInt 0%Z))) ds)) as [vals ->].
  { apply mapM_is_Some, Forall_forall. intros d Hd. simpl.
    destruct (H d c Hd Hc) as (v & Hv & Hnum).
    unfold get. by rewrite Hv. }
  simpl. eauto.
Qed.

End RowFacts.

(** ** rank_func.py: the script as a whole *)

Section ScriptFacts.
Import PyStr PyList Ast RankFunc.
Context `{RT : Runtime}.

Local Open Scope nat_scope.

Ltac in_list :=
  apply list_elem_of_In; simpl; repeat (first [left; reflexivity | right]).

Lemma compute_triviality_total (r : gmap string value) :
  (forall k, k ∈ scorer_numbers ->
             exists v, r !! k = Some v /\ is_Some (num v)) ->
  is_Some (compute_triviality r).
Proof.
  intros H.
  destruct (H "loc_norm") as (v1 & E1 & [q1 N1]); [in_list |].
  destruct (H "complexity_norm") as (v2 & E2 & [q2 N2]); [in_list |].
  destruct (H "num_calls_norm") as (v3 & E3 & [q3 N3]); [in_list |].
  destruct (H "num_params_norm") as (v4 & E4 & [q4 N4]); [in_list |].
  destruct (H "keyword_matches_norm") as (v5 & E5 & [q5 N5]); [in_list |].
  destruct (H "doc_len_norm") as (v6 & E6 & [q6 N6]); [in_list |].
  destruct (H "num_imports_norm") as (v7 & E7 & [q7 N7]); [in_list |].
  destruct (H "num_calls") as (v8 & E8 & [q8 N8]); [in_list |].
  destruct (H "complexity") as (v9 & E9 & [q9 N9]); [in_list |].
  destruct (H "doc_len") as (v10 & E10 & [q10 N10]); [in_list |].
  unfold compute_triviality, base_score, is_trivial_one_liner, is_documented,
    get.
  rewrite E1, E2, E3, E4, E5, E6, E7, E8, E9, E10. simpl.
  rewrite N1, N2, N3, N4, N5, N6, N7, N8, N9, N10. simpl.
  destruct (truthy (default (VInt 0%Z) (r !! "one_liner"))); simpl;
    [destruct (Qle_bool q8 1); simpl |];
    (destruct (truthy (default (VInt 0%Z) (r !! "has_type_annotations")));
     simpl; eauto).
Qed.

Lemma normalized_row_ready (cn : list (string * list Q)) (i : nat) (o : obj) :
  map fst cn = numeric_cols ->
  forall k, k ∈ scorer_numbers ->
            exists v, norm_row cn i (build_row o) !! k = Some v
                      /\ is_Some (num v).
Proof.
  intros Hcn k Hk.
  assert (forall c, c ∈ numeric_cols ->
            exists v, norm_row cn i (build_row o) !! (c +:+ "_norm") = Some v
                      /\ is_Some (num v)) as Hnorm.
  { intros c Hc. rewrite <- Hcn in Hc.
    destruct (norm_row_lookup_float cn i (build_row o) c Hc) as [q Hq].
    exists (VFloat q). split; [done |]. simpl. eauto. }
  assert (forall c, c ∈ numeric_cols ->
            exists v, norm_row cn i (build_row o) !! c = Some v
                      /\ is_Some (num v)) as Hraw.
  { intros c Hc. rewrite norm_row_lookup_ne.
    - by apply build_row_numeric.
    - rewrite Hcn. revert Hc. unfold numeric_cols. intros Hc.
      repeat (apply elem_of_cons in Hc as [-> | Hc]);
        [.. | by apply elem_of_nil in Hc];
        apply (bool_decide_unpack _); vm_compute; exact I. }
  unfold scorer_numbers in Hk.
  repeat (apply elem_of_cons in Hk as [-> | Hk]);
    [.. | by apply elem_of_nil in Hk].
  - apply (Hnorm "loc"). in_list.
  - apply (Hnorm "complexity"). in_list.
  - apply (Hnorm "num_calls"). in_list.
  - apply (Hnorm "num_params"). in_list.
  - apply (Hnorm "keyword_matches"). in_list.
  - apply (Hnorm "doc_len"). in_list.
  - apply (Hnorm "num_imports"). in_list.
  - apply Hraw. in_list.
  - apply Hraw. in_list.
  - apply Hraw. in_list.
Qed.

Lemma score_row_total (r : gmap string value) :
  is_Some (compute_triviality r) -> is_Some (score_row r).
Proof.
  intros [t Ht]. unfold score_row. rewrite Ht. simpl.
  unfold get. rewrite lookup_insert_eq. simpl. eauto.
Qed.

(** The rows of every input are scored, one per node. *)
Lemma scored_rows_total (nodes : list obj) :
  exists ds, scored_rows nodes = Some ds
             /\ length ds = length nodes
             /\ Forall score_invariant ds.
Proof.
  unfold scored_rows.
  destruct (col_norms_total (map build_row nodes)) as [cn Hcn].
  { intros d c Hd Hc. rewrite map_fmap in Hd.
    apply list_elem_of_fmap in Hd as (o & -> & _).
    by apply build_row_numeric. }
  rewrite Hcn. simpl.
  pose proof (col_norms_columns _ _ Hcn) as Hcols.
  destruct (mapM score_row (imap (norm_row cn) (map build_row nodes)))
    as [ds|] eqn:Hds.
  - exists ds. split; [done |]. split.
    + apply length_mapM in Hds. rewrite <- Hds, length_imap. apply length_map.
    + apply mapM_Some in Hds. clear -Hds.
      induction Hds as [|x y xs ys Hxy _ IH]; constructor; [| done].
      by eapply score_row_invariant.
  - exfalso. apply mapM_None in Hds. apply Exists_exists in Hds.
    destruct Hds as (r & Hr & Hnone).
    apply list_elem_of_lookup in Hr as [i Hi].
    rewrite list_lookup_imap, map_fmap, list_lookup_fmap in Hi.
    destruct (nodes !! i) as [o|]; [| done]. simpl in Hi. injection Hi as <-.
    destruct (score_row_total (norm_row cn i (build_row o))) as [? Hs].
    + apply compute_triviality_total. by apply normalized_row_ready.
    + congruence.
Qed.

Lemma rows_sorted_total (pre : heap) (ds : list (gmap string value)) :
  Forall score_invariant ds ->
  exists sorted,
    rows_sorted (seq (length pre) (length ds)) (pre ++ map Dict ds)
    = Some sorted
    /\ sorted ≡ₚ seq (length pre) (length ds).
Proof.
  intros Hinv. unfold rows_sorted.
  destruct (mapM _ (seq (length pre) (length ds))) as [keyed|] eqn:Hk.
  - simpl. eexists. split; [reflexivity |].
    rewrite map_fmap. unfold sorted_desc.
    rewrite stable_sort_Permutation.
    apply mapM_Some in Hk. clear -Hk.
    induction Hk as [|r y rs ys Hy _ IH]; [done |].
    rewrite fmap_cons, IH.
    destruct (num _); simpl in Hy; [| discriminate].
    by injection Hy as <-.
  - exfalso. apply mapM_None in Hk. apply Exists_exists in Hk.
    destruct Hk as (r & Hr & Hnone).
    apply elem_of_seq in Hr as [Hr1 Hr2].
    replace r with (length pre + (r - length pre)) in Hnone by lia.
    rewrite dict_at_app_r in Hnone by lia.
    destruct (lookup_lt_is_Some_2 ds (r - length pre)) as [d Hd]; [lia |].
    rewrite Hd in Hnone. simpl in Hnone.
    rewrite Forall_forall in Hinv.
    destruct (Hinv d) as (t & i & _ & Hi & _).
    { by eapply list_elem_of_lookup_2. }
    unfold get in Hnone. rewrite Hi in Hnone. simpl in Hnone. discriminate.
Qed.

(** The script ends normally on every input.  Its store then holds the
    input objects as they were, followed by one row object per node. *)
Lemma rank_functions_spec (nodes : list obj) :
  exists ds sorted,
    scored_rows nodes = Some ds
    /\ length ds = length nodes
    /\ Forall score_invariant ds
    /\ sorted ≡ₚ seq (length nodes) (length nodes)
    /\ rank_functions nodes
       = Some {| st_heap := nodes ++ map Dict ds;
                 st_rows := seq (length nodes) (length nodes);
                 st_rows_sorted := sorted |}.
Proof.
  destruct (scored_rows_total nodes) as (ds & Hds & Hlen & Hinv).
  destruct (rows_sorted_total nodes ds Hinv) as (sorted & Hsorted & Hperm).
  rewrite Hlen in Hsorted, Hperm.
  exists ds, sorted. do 4 (split; [done |]).
  unfold rank_functions. rewrite stage_extract_spec.
  pose proof (stage_normalize_spec nodes (map build_row nodes)) as Hn.
  rewrite length_map, map_map in Hn. rewrite Hn. clear Hn.
  unfold scored_rows in Hds.
  destruct (col_norms (map build_row nodes)) as [cn|]; [| discriminate].
  simpl in Hds |- *.
  pose proof (stage_score_spec (imap (norm_row cn) (map build_row nodes)) nodes)
    as Hs.
  rewrite length_imap, length_map in Hs. rewrite Hs, Hds. simpl.
  by rewrite Hsorted.
Qed.

Lemma function_rankings_Permutation (nodes : list obj)
    (ds : list (gmap string value)) (sorted : list addr) :
  length ds = length nodes ->
  sorted ≡ₚ seq (length nodes) (length nodes) ->
  function_rankings {| st_heap := nodes ++ map Dict ds;
                       st_rows := seq (length nodes) (length nodes);
                       st_rows_sorted := sorted |}
  ≡ₚ ds.
Proof.
  intros Hlen Hperm. unfold function_rankings. simpl.
  rewrite map_fmap, Hperm, <- map_fmap.
  rewrite <- Hlen at 2. by rewrite dict_at_rows.
Qed.

End ScriptFacts.

Section ScoreInvariant.
Import PyStr PyList Ast RankFunc.

(** C1: on every input the script scores every row, and every row of the
    ranked document carries a triviality and an importance that sum to 1 and
    both lie in [0, 1] (floats read as exact rationals). *)
Theorem triviality_importance_invariant `{RT : Runtime} (nodes : list obj) :
  exists st,
    rank_functions nodes = Some st
    /\ length (function_rankings st) = length nodes
    /\ Forall score_invariant (function_rankings st).
Proof.
  destruct (rank_functions_spec nodes)
    as (ds & sorted & _ & Hlen & Hinv & Hperm & Hrun).
  eexists. split; [exact Hrun |].
  pose proof (function_rankings_Permutation nodes ds sorted Hlen Hperm) as Hp.
  split.
  - by rewrite Hp.
  - by rewrite Hp.
Qed.

End ScoreInvariant.

(** ** rank_func.py: a unit of one line *)

Section OneLine.
Import PyStr PyList Ast RankFunc.

Local Open Scope nat_scope.

Lemma splitlines_from_one_line (s : text) :
  forall cur : text,
    Forall (fun c => is_linebreak c = false) s ->
    cur ++ s <> [] ->
    splitlines_from false cur s = [cur ++ s].
Proof.
  induction s as [|c s IH]; intros cur Hs Hne; simpl.
  - rewrite app_nil_r in Hne |- *. by destruct cur.
  - apply Forall_cons in Hs as [Hc Hs]. rewrite Hc.
    rewrite IH; [by rewrite <- (assoc_L (++)) | done |].
    rewrite <- (assoc_L (++)). by destruct cur.
Qed.











End OneLine.

Section ReturnConstant.
Import PyStr PyList Ast RankFunc.

Ltac lookup_chain :=
  repeat (rewrite lookup_insert_ne by done); rewrite ?lookup_insert_eq.



End ReturnConstant.

(** ** rank_func.py: what the score depends on *)

Section ScorerInputs.
Import PyStr PyList Ast RankFunc.

Ltac in_list :=
  apply list_elem_of_In; simpl; repeat (first [left; reflexivity | right]).

(** C4, as stated, fails: two nodes with the same code get the same
    normalised metrics (all 0 here), and the one labelled [setup] is scored
    0.15 lower than the one labelled [helper]. *)
Lemma same_metrics_different_triviality :
  (ds ← @scored_rows no_parser
          [Dict {[ "id" := VStr (lit "a"); "label" := VStr (lit "setup");
                   "code" := VStr (lit "x") ]};
           Dict {[ "id" := VStr (lit "b"); "label" := VStr (lit "helper");
                   "code" := VStr (lit "x") ]}];
   Some (map (fun d : gmap string value =>
                (map (fun c => d !! (c +:+ "_norm")) numeric_cols,
                 d !! "triviality")) ds))
  = Some [(replicate 10 (Some (VFloat 0)), Some (VFloat 0.7000));
          (replicate 10 (Some (VFloat 0)), Some (VFloat 0.8500))].
Proof. vm_compute. reflexivity. Qed.

(** C4 (amended): the score is a function of the normalised metrics together
    with the flags, the raw counts, the label and the id it reads: two rows
    that agree on the keys of [scorer_reads] get the same score, whatever
    else they hold. *)
Theorem compute_triviality_reads `{RT : Runtime} (r1 r2 : gmap string value) :
  (forall k, k ∈ scorer_reads -> r1 !! k = r2 !! k) ->
  compute_triviality r1 = compute_triviality r2.
Proof.
  intros H.
  unfold compute_triviality, base_score, is_trivial_one_liner, is_critical,
    is_documented, get.
  rewrite (H "loc_norm"), (H "complexity_norm"), (H "num_calls_norm"),
    (H "num_params_norm"), (H "keyword_matches_norm"), (H "doc_len_norm"),
    (H "num_imports_norm"), (H "num_calls"), (H "complexity"), (H "doc_len"),
    (H "one_liner"), (H "has_type_annotations"), (H "label"), (H "id");
    [reflexivity | in_list ..].
Qed.

Lemma compute_triviality_reads_witness :
  @compute_triviality no_parser
    {[ "label" := VStr (lit "setup"); "note" := VInt 1 ]}
  = @compute_triviality no_parser
      {[ "label" := VStr (lit "setup"); "num_funcs" := VInt 3 ]}.
Proof.
  apply (@compute_triviality_reads no_parser).
  intros k Hk. unfold scorer_reads, scorer_numbers in Hk. simpl in Hk.
  repeat (apply elem_of_cons in Hk as [-> | Hk]);
    [.. | by apply elem_of_nil in Hk]; reflexivity.
Defined.

End ScorerInputs.

(** ** rank_func.py: pass-through fields and the objects of the store *)

Section PassThrough.
Import PyStr PyList Ast RankFunc.

Local Open Scope nat_scope.

Lemma score_row_frame `{RT : Runtime} (r r' : gmap string value) (k : string) :
  score_row r = Some r' ->
  k <> "triviality"%string -> k <> "importance"%string ->
  r' !! k = r !! k.
Proof.
  unfold score_row. intros H H1 H2.
  destruct (compute_triviality r); [| discriminate]. simpl in H.
  unfold get in H. rewrite lookup_insert_eq in H. simpl in H.
  injection H as <-. by rewrite !lookup_insert_ne.
Qed.

Lemma written_keys_inv (k : string) :
  k ∉ written_keys ->
  k <> "triviality"%string /\ k <> "importance"%string
  /\ k ∉ map (fun c => c +:+ "_norm") numeric_cols.
Proof.
  unfold written_keys. intros H.
  apply not_elem_of_app in H as [_ H].
  apply not_elem_of_app in H as [Hn H].
  apply not_elem_of_cons in H as [H1 H].
  apply not_elem_of_cons in H as [H2 _]. done.
Qed.

(** Row [i] of the scored rows is the row built for node [i], with the keys
    of the normaliser and of the scorer added. *)
Lemma scored_rows_lookup `{RT : Runtime} (nodes : list obj)
    (ds : list (gmap string value)) (i : nat) (o : obj) :
  scored_rows nodes = Some ds ->
  nodes !! i = Some o ->
  exists cn d,
    map fst cn = numeric_cols
    /\ ds !! i = Some d
    /\ score_row (norm_row cn i (build_row o)) = Some d.
Proof.
  unfold scored_rows. intros Hds Hi.
  destruct (col_norms (map build_row nodes)) as [cn|] eqn:Hcn; [| discriminate].
  simpl in Hds. apply mapM_Some in Hds.
  assert (imap (norm_row cn) (map build_row nodes) !! i
          = Some (norm_row cn i (build_row o))) as Hrow.
  { by rewrite list_lookup_imap, map_fmap, list_lookup_fmap, Hi. }
  destruct (Forall2_lookup_l _ _ _ _ _ Hds Hrow) as (d & Hd & Hscore).
  exists cn, d. split; [by eapply col_norms_columns |]. done.
Qed.

(** C5, as stated, fails: the normaliser creates no object.  The row object
    the extractor made at address 1 is the one that holds [loc_norm]
    afterwards, and the store has not grown. *)
Lemma normalizer_updates_rows_in_place :
  let nodes := [Dict {[ "id" := VStr (lit "a"); "code" := VStr (lit "x") ]}] in
  let h1 := fst (@stage_extract no_parser (seq 0 1) nodes) in
  let rows := snd (@stage_extract no_parser (seq 0 1) nodes) in
  rows = [1]
  /\ dict_at h1 1 !! "loc_norm" = None
  /\ (h2 ← stage_normalize rows h1;
      Some (length h2, dict_at h2 1 !! "loc_norm"))
     = Some (length h1, Some (VFloat 0)).
Proof. cbv zeta. repeat split; vm_compute; reflexivity. Qed.

(** C5 (amended): the script never changes an input object, and makes one
    new row object per node; in the ranked document the row of a node holds,
    under every key the script does not write itself, the value the node
    holds there (and nothing if the node has no such key).  The normaliser
    and the scorer add their keys to these row objects. *)
Theorem pass_through_preserved `{RT : Runtime} (nodes : list obj) :
  exists st,
    rank_functions nodes = Some st
    /\ take (length nodes) (st_heap st) = nodes
    /\ st_rows st = seq (length nodes) (length nodes)
    /\ function_rankings st ≡ₚ map (dict_at (st_heap st)) (st_rows st)
    /\ forall (i : nat) (o : obj) (k : string),
         nodes !! i = Some o ->
         k ∉ written_keys ->
         dict_at (st_heap st) (length nodes + i) !! k = original_node o !! k.
Proof.
  destruct (rank_functions_spec nodes)
    as (ds & sorted & Hds & Hlen & Hinv & Hperm & Hrun).
  eexists. split; [exact Hrun |]. simpl.
  split; [by rewrite take_app_length |].
  split; [done |].
  split.
  { unfold function_rankings. simpl. by rewrite !map_fmap, Hperm. }
  intros i o k Hi Hk.
  destruct (scored_rows_lookup nodes ds i o Hds Hi) as (cn & d & Hcn & Hd & Hs).
  rewrite dict_at_app_r, Hd by (apply lookup_lt_Some in Hd; lia). simpl.
  destruct (written_keys_inv k Hk) as (H1 & H2 & Hn).
  rewrite (score_row_frame _ _ k Hs H1 H2).
  rewrite norm_row_lookup_ne by (by rewrite Hcn).
  by apply build_row_frame.
Qed.

End PassThrough.

(** ** ml.py: orders and frames *)

Section FrameFacts.
Import PyStr PyList ML.





Lemma traverse_ok {A B} (f : A -> outcome B) (g : A -> B) (l : list A) :
  Forall (fun x => f x = Ok (g x)) l -> traverse f l = Ok (map g l).
Proof.
  induction 1 as [|x l Hx _ IH]; simpl; [done |].
  rewrite Hx. simpl. rewrite IH. done.
Qed.


Lemma zip_map_self {A B} (g : A -> B) (l : list A) :
  zip (map g l) l = map (fun x => (g x, x)) l.
Proof. induction l as [|x l IH]; simpl; [done | by rewrite IH]. Qed.

(** Sorting rows paired with a key that is read from the row sorts the rows
    by that key. *)
Lemma sort_keyed_self {A} (le : option Q -> option Q -> bool)
    (g : A -> option Q) (l : list A) :
  map snd (sort_keyed le (map (fun x => (g x, x)) l))
  = stable_sort (fun a b => le (g a) (g b)) l.
Proof.
  unfold sort_keyed. rewrite stable_sort_map, map_map. simpl.
  apply map_id.
Qed.

Lemma sort_keyed_keys {A} (le : option Q -> option Q -> bool)
    (g : A -> option Q) (l : list A) :
  map fst (sort_keyed le (map (fun x => (g x, x)) l))
  = map g (stable_sort (fun a b => le (g a) (g b)) l).
Proof. unfold sort_keyed. by rewrite stable_sort_map, map_map. Qed.

End FrameFacts.

(** ** ml.py: the score combiner *)

Section Combiner.
Import PyStr PyList ML.

Lemma combine_lists (b : bool) (rs : list (gmap string cell)) :
  forall ps : list Q,
    length ps = length rs ->
    let rs1 := zip_with (fun r v => <["model_prob_core" := v]> r) rs
                        (map Num ps) in
    let scores :=
      if b then
        zip_with (fun i p => combined_score (Some i) p)
                 (map (fun r => float_of (cell_at r "importance")) rs1) ps
      else map (combined_score None) ps in
    zip scores (zip_with (fun r v => <["combined_score" := v]> r) rs1
                         (map opt_cell scores))
    = zip_with (combined_row b) rs ps.
Proof.
  cbv zeta. destruct b.
  - induction rs as [|r rs IH]; intros [|p ps] Hlen; try done.
    simpl in *. rewrite IH by lia. f_equal.
    unfold combined_row, cell_at. by rewrite lookup_insert_ne.
  - induction rs as [|r rs IH]; intros [|p ps] Hlen; try done.
    simpl in *. by rewrite IH by lia.
Qed.

Lemma importance_column_kept (df : DataFrame) (vals : list cell) :
  bool_decide ("importance" ∈ columns (assign "model_prob_core" vals df))
  = bool_decide ("importance" ∈ columns df).
Proof.
  unfold assign. simpl.
  destruct (bool_decide ("model_prob_core" ∈ columns df)); [done |].
  apply bool_decide_ext. rewrite elem_of_app, list_elem_of_singleton.
  split; [intros [? | ?]; [done | discriminate] | auto].
Qed.

(** The combiner, row by row, when no cell of the importance column is
    text. *)
Lemma combine_rowwise (df : DataFrame) (prob_core : list Q) :
  length prob_core = length (records df) ->
  Forall (fun r => forall s, cell_at r "importance" <> Str s) (records df) ->
  exists cols,
    combine df prob_core
    = Ok {| columns := cols;
            records :=
              map snd
                  (sort_keyed desc_le
                     (zip_with
                        (combined_row (bool_decide ("importance" ∈ columns df)))
                        (records df) prob_core)) |}.
Proof.
  intros Hlen Hnum. unfold combine.
  rewrite importance_column_kept.
  pose proof (combine_lists (bool_decide ("importance" ∈ columns df))
                (records df) prob_core Hlen) as Hl.
  cbv zeta in Hl.
  destruct (bool_decide ("importance" ∈ columns df)).
  - rewrite (traverse_ok _ (fun r => float_of (cell_at r "importance"))).
    + eexists. cbn -[combined_score]. rewrite Hl. reflexivity.
    + simpl. clear Hl. revert prob_core Hlen.
      induction Hnum as [|r rs Hr _ IH]; intros [|p ps] Hlen; simpl;
        constructor; [| by apply IH; simpl in Hlen; lia].
      unfold cell_at in *. rewrite lookup_insert_ne by done.
      destruct (default NaN (r !! "importance")) eqn:E; try done.
      by destruct (Hr s).
  - eexists. cbn -[combined_score]. rewrite Hl. reflexivity.
Qed.




End Combiner.

(** ** ml.py: the label-candidate sampler *)

Section Sampler.
Import PyStr PyList ML.

Local Open Scope nat_scope.

Lemma float_of_opt_cell (o : option Q) : float_of (opt_cell o) = o.
Proof. by destruct o. Qed.

Lemma with_dist_zip (m : option Q) (s : list (gmap string cell)) :
  zip_with (fun d r => (d, <["dist_med" := opt_cell d]> r))
    (map (fun imp => i ← imp; m' ← m; Some (Qabs (i - m')))
         (map importance_of s)) s
  = map (fun x => (dist_of x, x)) (map (with_dist_med m) s).
Proof.
  induction s as [|r s IH]; [done |]. cbn [map zip_with]. rewrite IH. f_equal.
  unfold with_dist_med, distance_to, dist_of, cell_at.
  rewrite lookup_insert_eq. f_equal. symmetry. apply float_of_opt_cell.
Qed.

Lemma float_column_importance (df : DataFrame) :
  "importance"%string ∈ columns df ->
  Forall (fun r => forall s, cell_at r "importance" <> Str s) (records df) ->
  float_column "importance" df = Ok (map importance_of (records df)).
Proof.
  intros Hcol Hnum. unfold float_column, require_column.
  rewrite bool_decide_eq_true_2 by done. simpl.
  apply traverse_ok. eapply Forall_impl; [exact Hnum |].
  intros r Hr. unfold importance_of. simpl.
  destruct (cell_at r "importance") eqn:E; try done. by destruct (Hr s).
Qed.

(** The three bands of a frame whose importance column holds no text. *)
Lemma select_bands_spec (df : DataFrame) (n_top n_bottom n_mid : Z) :
  "importance"%string ∈ columns df ->
  Forall (fun r => forall s, cell_at r "importance" <> Str s) (records df) ->
  select_bands df n_top n_bottom n_mid
  = Ok {| top := head n_top (by_importance_sorted df);
          mid := slice_to n_mid (by_distance_sorted df);
          bottom := tail n_bottom (by_importance_sorted df) |}.
Proof.
  intros Hcol Hnum. unfold select_bands.
  rewrite float_column_importance by done. simpl.
  rewrite zip_map_self, sort_keyed_self, sort_keyed_keys.
  fold by_importance. fold (by_importance_sorted df).
  rewrite with_dist_zip, sort_keyed_self. done.
Qed.

End Sampler.

Section Deduplication.
Import PyStr PyList ML.

Local Open Scope nat_scope.

Lemma cell_eqb_Str (a : text) (v : cell) :
  cell_eqb (Str a) v = true <-> v = Str a.
Proof.
  destruct v; simpl; try (split; [discriminate | congruence]).
  rewrite bool_decide_eq_true. split; congruence.
Qed.

Lemma seen_Str (a : text) (seen : list cell) :
  existsb (cell_eqb (Str a)) seen = true <-> Str a ∈ seen.
Proof.
  rewrite existsb_exists. split.
  - intros (v & Hv & He). apply cell_eqb_Str in He as ->.
    by apply list_elem_of_In.
  - intros H. exists (Str a). split; [by apply list_elem_of_In |].
    by apply cell_eqb_Str.
Qed.

Lemma drop_duplicates_id_cons (seen : list cell) (r : gmap string cell)
    (l : list (gmap string cell)) :
  (exists s, id_of r = Str s) ->
  drop_duplicates_id seen (r :: l)
  = if decide (id_of r ∈ seen) then drop_duplicates_id seen l
    else r :: drop_duplicates_id (id_of r :: seen) l.
Proof.
  intros [a Ha]. simpl. fold (id_of r). rewrite Ha.
  destruct (decide (Str a ∈ seen)) as [Hin|Hin].
  - apply seen_Str in Hin. by rewrite Hin.
  - destruct (existsb _ seen) eqn:E; [| done].
    by apply seen_Str in E.
Qed.

Lemma drop_duplicates_id_sublist (l : list (gmap string cell)) :
  forall seen, drop_duplicates_id seen l `sublist_of` l.
Proof.
  induction l as [|r l IH]; intros seen; simpl; [done |].
  destruct (existsb _ seen).
  - by apply sublist_cons.
  - by apply sublist_skip.
Qed.

Lemma drop_duplicates_id_not_seen (l : list (gmap string cell)) :
  forall seen r,
    string_ids l -> r ∈ drop_duplicates_id seen l -> id_of r ∉ seen.
Proof.
  induction l as [|x l IH]; intros seen r Hs Hr; [by apply elem_of_nil in Hr |].
  apply Forall_cons in Hs as [Hx Hs].
  rewrite drop_duplicates_id_cons in Hr by done.
  destruct (decide (id_of x ∈ seen)) as [Hin|Hin]; [by apply IH |].
  apply elem_of_cons in Hr as [-> | Hr]; [done |].
  apply IH in Hr; [| done]. by apply not_elem_of_cons in Hr as [_ Hr].
Qed.

(** Rows dropped because of a set of seen ids are the rows a later filter
    on that set drops. *)
Lemma drop_duplicates_id_filter (l : list (gmap string cell)) :
  forall seen,
    string_ids l ->
    drop_duplicates_id seen l
    = filter (fun r => id_of r ∉ seen) (drop_duplicates_id [] l).
Proof.
  induction l as [|x l IH]; intros seen Hs; [done |].
  apply Forall_cons in Hs as [Hx Hs].
  rewrite !drop_duplicates_id_cons by done.
  rewrite (decide_False (P := id_of x ∈ [])) by apply not_elem_of_nil.
  rewrite (IH [id_of x]) by done.
  destruct (decide (id_of x ∈ seen)) as [Hin|Hin].
  - rewrite filter_cons_False by (intros H; by apply H).
    rewrite IH, list_filter_filter by done.
    apply list_filter_iff. intros r. split; [| by intros [? _]].
    intros Hr. split; [done |]. intros H.
    apply list_elem_of_singleton in H. congruence.
  - rewrite filter_cons_True by done. f_equal.
    rewrite IH, list_filter_filter by done.
    apply list_filter_iff. intros r.
    rewrite (not_elem_of_cons seen).
    rewrite <- (list_elem_of_singleton (id_of r) (id_of x)). tauto.
Qed.

Lemma filter_all {A} (P : A -> Prop) `{!forall x, Decision (P x)} (l : list A) :
  Forall P l -> filter P l = l.
Proof.
  induction 1 as [|x l Hx _ IH]; [done |].
  by rewrite filter_cons_True, IH.
Qed.

(** Precedence: a row of the second list is dropped when its id occurs in
    the first. *)
Lemma drop_duplicates_id_app (a b : list (gmap string cell)) :
  string_ids a -> string_ids b ->
  drop_duplicates_id [] (a ++ b)
  = drop_duplicates_id [] a
    ++ filter (fun r => id_of r ∉ map id_of a) (drop_duplicates_id [] b).
Proof.
  intros Ha Hb. induction Ha as [|x a Hx Ha IH].
  - simpl. symmetry. apply filter_all, Forall_forall.
    intros r _. apply not_elem_of_nil.
  - rewrite <- app_comm_cons, !drop_duplicates_id_cons by done.
    rewrite !(decide_False (P := id_of x ∈ [])) by apply not_elem_of_nil.
    rewrite (drop_duplicates_id_filter (a ++ b)), IH
      by (apply Forall_app; split; done).
    rewrite (drop_duplicates_id_filter a [id_of x]) by done.
    rewrite filter_app, list_filter_filter. simpl. do 2 f_equal.
    apply list_filter_iff. intros r.
    rewrite (not_elem_of_cons (map id_of a)).
    rewrite <- (list_elem_of_singleton (id_of r) (id_of x)). tauto.
Qed.

Lemma distinct_ids_kept (l : list (gmap string cell)) :
  string_ids l -> NoDup (map id_of l) ->
  drop_duplicates_id [] l = l.
Proof.
  intros Hs. induction Hs as [|x l Hx Hs IH]; intros Hnd; [done |].
  simpl in Hnd. apply NoDup_cons in Hnd as [Hx' Hnd].
  rewrite drop_duplicates_id_cons by done.
  rewrite decide_False by apply not_elem_of_nil.
  rewrite drop_duplicates_id_filter, IH by done. f_equal.
  apply filter_all, Forall_forall. intros r Hr H.
  apply list_elem_of_singleton in H. apply Hx'. rewrite <- H.
  rewrite map_fmap. by apply list_elem_of_fmap_2.
Qed.

(** Every id of the list is the id of a kept row, and kept ids are distinct. *)
Lemma drop_duplicates_id_covers (l : list (gmap string cell))
    (x : gmap string cell) :
  string_ids l -> x ∈ l ->
  id_of x ∈ map id_of (drop_duplicates_id [] l).
Proof.
  intros Hs. induction Hs as [|y l Hy Hs IH]; intros Hx;
    [by apply elem_of_nil in Hx |].
  rewrite drop_duplicates_id_cons by done.
  rewrite decide_False by apply not_elem_of_nil. simpl.
  apply elem_of_cons in Hx as [-> | Hx]; [by left |].
  destruct (decide (id_of x = id_of y)) as [-> | Hne]; [by left |].
  right. specialize (IH Hx). rewrite map_fmap in IH |- *.
  apply list_elem_of_fmap in IH as (z & Hz & Hin).
  apply list_elem_of_fmap. exists z. split; [done |].
  rewrite drop_duplicates_id_filter by done.
  apply list_elem_of_filter. split; [| done].
  intros H. apply list_elem_of_singleton in H. congruence.
Qed.

Lemma drop_duplicates_id_NoDup (l : list (gmap string cell)) :
  string_ids l -> NoDup (map id_of (drop_duplicates_id [] l)).
Proof.
  intros Hs. induction Hs as [|y l Hy Hs IH]; [constructor |].
  rewrite drop_duplicates_id_cons by done.
  rewrite decide_False by apply not_elem_of_nil. simpl.
  rewrite drop_duplicates_id_filter by done.
  apply NoDup_cons. split.
  - rewrite map_fmap. intros H.
    apply list_elem_of_fmap in H as (z & Hz & Hin).
    apply list_elem_of_filter in Hin as [Hin _]. apply Hin.
    apply list_elem_of_singleton. done.
  - rewrite map_fmap in IH |- *.
    eapply sublist_NoDup; [exact IH |].
    apply fmap_sublist, sublist_filter.
Qed.

Lemma drop_duplicates_id_length (l : list (gmap string cell)) :
  length (drop_duplicates_id [] l) <= length l.
Proof. apply sublist_length, drop_duplicates_id_sublist. Qed.

End Deduplication.

Section Candidates.
Import PyStr PyList ML.

Local Open Scope nat_scope.

Lemma ensure_column_keeps (c k : string) (df : DataFrame) :
  k ∈ columns df ->
  k ∈ columns (ensure_column c df)
  /\ map (fun r => cell_at r k) (records (ensure_column c df))
     = map (fun r => cell_at r k) (records df).
Proof.
  intros Hk. unfold ensure_column.
  destruct (bool_decide (c ∈ columns df)) eqn:Hc; [done |].
  apply bool_decide_eq_false in Hc. unfold assign. simpl.
  rewrite bool_decide_eq_false_2 by done. split.
  - apply elem_of_app. by left.
  - assert (c <> k) as Hne by (intros ->; done).
    induction (records df) as [|r rs IH]; simpl; [done |].
    rewrite IH. f_equal. unfold cell_at. by rewrite lookup_insert_ne.
Qed.

Lemma ensure_columns_keep (cs : list string) (k : string) :
  forall df : DataFrame,
    k ∈ columns df ->
    map (fun r => cell_at r k)
        (records (fold_left (fun df c => ensure_column c df) cs df))
    = map (fun r => cell_at r k) (records df).
Proof.
  induction cs as [|c cs IH]; intros df Hk; simpl; [done |].
  destruct (ensure_column_keeps c k df Hk) as [Hk' Hrec].
  by rewrite IH, Hrec.
Qed.

Lemma ensure_columns_columns (cs : list string) (k : string) :
  forall df : DataFrame,
    k ∈ columns df ->
    k ∈ columns (fold_left (fun df c => ensure_column c df) cs df).
Proof.
  induction cs as [|c cs IH]; intros df Hk; simpl; [done |].
  apply IH. by apply ensure_column_keeps.
Qed.

Lemma ensure_all_keep (k : string) (cands : DataFrame) :
  k ∈ columns cands ->
  map (fun r => cell_at r k)
      (records (ensure_column "human_label"
                  (fold_left (fun df c => ensure_column c df) label_cols cands)))
  = map (fun r => cell_at r k) (records cands).
Proof.
  intros Hk.
  destruct (ensure_column_keeps "human_label" k
              (fold_left (fun df c => ensure_column c df) label_cols cands))
    as [_ ->]; [by apply ensure_columns_columns |].
  by apply ensure_columns_keep.
Qed.

(** The table of candidates: the rows kept from the three bands, with their
    ids and importances as they are in the bands. *)
Lemma prepare_label_candidates_spec (df : DataFrame) (n_top n_bottom n_mid : Z) :
  "id"%string ∈ columns df ->
  "importance"%string ∈ columns df ->
  Forall (fun r => forall s, cell_at r "importance" <> Str s) (records df) ->
  exists b out,
    select_bands df n_top n_bottom n_mid = Ok b
    /\ top b = head n_top (by_importance_sorted df)
    /\ mid b = slice_to n_mid (by_distance_sorted df)
    /\ bottom b = tail n_bottom (by_importance_sorted df)
    /\ prepare_label_candidates df n_top n_bottom n_mid = Ok out
    /\ map id_of (records out)
       = map id_of (drop_duplicates_id [] (top b ++ mid b ++ bottom b))
    /\ map importance_of (records out)
       = map importance_of
           (drop_duplicates_id [] (top b ++ mid b ++ bottom b)).
Proof.
  intros Hid Himp Hnum.
  eexists _, _. split; [by apply select_bands_spec |].
  do 3 (split; [reflexivity |]).
  unfold prepare_label_candidates.
  rewrite select_bands_spec by done. cbn [mbind outcome_bind].
  set (concat_cols := if bool_decide ("dist_med"%string ∈ columns df)
                      then columns df else columns df ++ ["dist_med"%string]).
  assert ("id"%string ∈ concat_cols /\ "importance"%string ∈ concat_cols)
    as [Hid' Himp'].
  { unfold concat_cols. destruct (bool_decide _); [done |].
    split; apply elem_of_app; by left. }
  unfold require_column. cbn [columns].
  rewrite bool_decide_eq_true_2 by done. cbn [mbind outcome_bind records top mid bottom].
  split; [reflexivity |]. cbn [records].
  split.
  - change id_of with (fun r : gmap string cell => cell_at r "id").
    by rewrite ensure_all_keep.
  - unfold importance_of.
    rewrite <- !(map_map (fun r => cell_at r "importance") float_of).
    by rewrite ensure_all_keep.
Qed.

(** *** The two sorted frames *)





Lemma by_importance_sorted_Permutation (df : DataFrame) :
  by_importance_sorted df ≡ₚ records df.
Proof. apply stable_sort_Permutation. Qed.


Lemma by_distance_sorted_Permutation (df : DataFrame) :
  by_distance_sorted df
  ≡ₚ map (with_dist_med (median (map importance_of (by_importance_sorted df))))
         (by_importance_sorted df).
Proof. apply stable_sort_Permutation. Qed.


Lemma with_dist_med_id (m : option Q) (r : gmap string cell) :
  id_of (with_dist_med m r) = id_of r.
Proof. unfold with_dist_med, id_of, cell_at. by rewrite lookup_insert_ne. Qed.

Lemma by_distance_sorted_ids (df : DataFrame) :
  map id_of (by_distance_sorted df) ≡ₚ map id_of (records df).
Proof.
  transitivity (map id_of (by_importance_sorted df)).
  - etransitivity;
      [apply Permutation_map, by_distance_sorted_Permutation |].
    rewrite map_map.
    erewrite map_ext; [reflexivity |]. intros r. apply with_dist_med_id.
  - apply Permutation_map, by_importance_sorted_Permutation.
Qed.

End Candidates.

Section Bands.
Import PyStr PyList ML.

Local Open Scope nat_scope.

Lemma slice_to_sublist {A} (n : Z) (l : list A) : slice_to n l `sublist_of` l.
Proof. unfold slice_to. destruct (0 <=? n)%Z; apply sublist_take. Qed.

Lemma slice_from_sublist {A} (n : Z) (l : list A) :
  slice_from n l `sublist_of` l.
Proof. unfold slice_from. destruct (0 <=? n)%Z; apply sublist_drop. Qed.

Lemma head_sublist {A} (n : Z) (l : list A) : head n l `sublist_of` l.
Proof. apply slice_to_sublist. Qed.

Lemma tail_sublist {A} (n : Z) (l : list A) : tail n l `sublist_of` l.
Proof.
  unfold tail. destruct (n =? 0)%Z;
    [apply sublist_nil_l | apply slice_from_sublist].
Qed.

Lemma sublist_string_ids (k l : list (gmap string cell)) :
  k `sublist_of` l -> string_ids l -> string_ids k.
Proof.
  unfold string_ids. rewrite !Forall_forall. intros Hsub H r Hr.
  apply H. by eapply elem_of_sublist.
Qed.

Lemma sublist_distinct_ids (k l : list (gmap string cell)) :
  k `sublist_of` l -> NoDup (map id_of l) -> NoDup (map id_of k).
Proof.
  intros Hsub Hnd. rewrite map_fmap in Hnd |- *.
  eapply sublist_NoDup; [exact Hnd |]. by apply fmap_sublist.
Qed.

Lemma by_importance_sorted_ids (df : DataFrame) :
  string_ids (records df) -> NoDup (map id_of (records df)) ->
  string_ids (by_importance_sorted df)
  /\ NoDup (map id_of (by_importance_sorted df)).
Proof.
  intros Hs Hnd. split.
  - unfold string_ids. by rewrite by_importance_sorted_Permutation.
  - eapply NoDup_Permutation_proper; [| exact Hnd].
    apply Permutation_map, by_importance_sorted_Permutation.
Qed.

Lemma by_distance_sorted_string_ids (df : DataFrame) :
  string_ids (records df) -> NoDup (map id_of (records df)) ->
  string_ids (by_distance_sorted df)
  /\ NoDup (map id_of (by_distance_sorted df)).
Proof.
  intros Hs Hnd. split.
  - unfold string_ids. rewrite by_distance_sorted_Permutation.
    rewrite map_fmap. apply Forall_fmap.
    destruct (by_importance_sorted_ids df Hs Hnd) as [Hs' _].
    eapply Forall_impl; [exact Hs' |].
    intros r [a Ha]. exists a. simpl. by rewrite with_dist_med_id.
  - eapply NoDup_Permutation_proper; [| exact Hnd].
    apply by_distance_sorted_ids.
Qed.

(** The rows kept from three bands of rows with distinct string ids. *)
Lemma bands_precedence (t m b : list (gmap string cell)) :
  string_ids t -> string_ids m -> string_ids b ->
  NoDup (map id_of t) -> NoDup (map id_of m) -> NoDup (map id_of b) ->
  drop_duplicates_id [] (t ++ m ++ b)
  = t ++ filter (fun r => id_of r ∉ map id_of t) m
      ++ filter (fun r => id_of r ∉ map id_of (t ++ m)) b.
Proof.
  intros Ht Hm Hb Nt Nm Nb.
  rewrite drop_duplicates_id_app by (try apply Forall_app; done).
  rewrite drop_duplicates_id_app by done.
  rewrite !distinct_ids_kept by done.
  rewrite filter_app, list_filter_filter. do 3 f_equal.
  apply list_filter_iff. intros r.
  rewrite map_app, not_elem_of_app. tauto.
Qed.



End Bands.

Section SamplerScenario.
Import PyStr PyList ML.

Local Open Scope nat_scope.






End SamplerScenario.

Section SamplerWitness.
Import PyStr PyList ML.

Local Open Scope nat_scope.



End SamplerWitness.

(** ** ml.py: the candidate count of the command line *)

Section CandidateCount.
Import PyStr PyList ML.

Local Open Scope nat_scope.


Lemma tail_positive {A} (n : nat) (l : list A) :
  0 < n -> tail (Z.of_nat n) l = drop (length l - n) l.
Proof.
  intros Hn. unfold tail, slice_from.
  destruct (Z.of_nat n =? 0)%Z eqn:E; [apply Z.eqb_eq in E; lia |].
  destruct (0 <=? - Z.of_nat n)%Z eqn:E'; [apply Z.leb_le in E'; lia |].
  f_equal. lia.
Qed.




End CandidateCount.

(** ** ml.py: training *)

Section Training.
Import PyStr PyList ML.
Context `{CL : Classifier}.

Local Open Scope nat_scope.







End Training.

Section TrainingWitness.
Import PyStr PyList ML.

Local Open Scope nat_scope.


End TrainingWitness.

(** * Further properties *)

(** ** rank_func.py: min-max normalisation *)

Section MinMax.
Import PyStr PyList Ast RankFunc.

Local Open Scope Q_scope.

Lemma epsilon_pos : 0 < 1e-12.
Proof. reflexivity. Qed.

Ltac with_epsilon :=
  pose proof epsilon_pos; set (eps := 1e-12) in *; clearbody eps.

Lemma list_min_le_init (vs : list Q) : forall v, list_min v vs <= v.
Proof.
  unfold list_min. induction vs as [|a vs IH]; intros v; simpl; [lra |].
  eapply Qle_trans; [apply IH | apply Q.le_min_l].
Qed.

Lemma list_min_le (vs : list Q) :
  forall v x, x ∈ vs -> list_min v vs <= x.
Proof.
  unfold list_min. induction vs as [|a vs IH]; intros v x Hx; simpl.
  - by apply elem_of_nil in Hx.
  - apply elem_of_cons in Hx as [-> | Hx]; [| by apply IH].
    eapply Qle_trans; [apply (list_min_le_init vs) | apply Q.le_min_r].
Qed.

Lemma list_max_ge_init (vs : list Q) : forall v, v <= list_max v vs.
Proof.
  unfold list_max. induction vs as [|a vs IH]; intros v; simpl; [lra |].
  eapply Qle_trans; [apply Q.le_max_l | apply IH].
Qed.

Lemma list_max_ge (vs : list Q) :
  forall v x, x ∈ vs -> x <= list_max v vs.
Proof.
  unfold list_max. induction vs as [|a vs IH]; intros v x Hx; simpl.
  - by apply elem_of_nil in Hx.
  - apply elem_of_cons in Hx as [-> | Hx]; [| by apply IH].
    eapply Qle_trans; [apply Q.le_max_r | apply (list_max_ge_init vs)].
Qed.

Lemma list_min_elem (vs : list Q) :
  forall v, exists x, x ∈ v :: vs /\ list_min v vs == x.
Proof.
  unfold list_min. induction vs as [|a vs IH]; intros v; simpl.
  - exists v. split; [by left | reflexivity].
  - destruct (IH (Qmin v a)) as (x & Hx & He).
    apply elem_of_cons in Hx as [-> | Hx].
    + destruct (Q.min_dec v a) as [Hm | Hm].
      * exists v. split; [by left |]. by rewrite He.
      * exists a. split; [right; by left |]. by rewrite He.
    + exists x. split; [by do 2 right | done].
Qed.

Lemma list_max_elem (vs : list Q) :
  forall v, exists x, x ∈ v :: vs /\ list_max v vs == x.
Proof.
  unfold list_max. induction vs as [|a vs IH]; intros v; simpl.
  - exists v. split; [by left | reflexivity].
  - destruct (IH (Qmax v a)) as (x & Hx & He).
    apply elem_of_cons in Hx as [-> | Hx].
    + destruct (Q.max_dec v a) as [Hm | Hm].
      * exists v. split; [by left |]. by rewrite He.
      * exists a. split; [right; by left |]. by rewrite He.
    + exists x. split; [by do 2 right | done].
Qed.

(** The bounds of a non-empty column. *)
Lemma min_max_bounds (v : Q) (vs : list Q) (x : Q) :
  x ∈ v :: vs -> list_min v vs <= x <= list_max v vs.
Proof.
  intros Hx. apply elem_of_cons in Hx as [-> | Hx]; split.
  - apply list_min_le_init.
  - apply list_max_ge_init.
  - by apply list_min_le.
  - by apply list_max_ge.
Qed.

Lemma min_max_cases (v : Q) (vs : list Q) :
  let mn := list_min v vs in
  let mx := list_max v vs in
  (mx - mn < 1e-12 /\ min_max (v :: vs) = map (fun _ => 0) (v :: vs))
  \/ (1e-12 <= mx - mn
      /\ min_max (v :: vs) = map (fun x => (x - mn) / (mx - mn)) (v :: vs)).
Proof.
  cbv zeta. unfold min_max.
  assert (list_min v vs <= list_max v vs) as Hle.
  { eapply Qle_trans; [apply list_min_le_init | apply list_max_ge_init]. }
  assert (Qabs (list_max v vs - list_min v vs)
          == list_max v vs - list_min v vs) as Habs.
  { apply Qabs_pos. lra. }
  destruct (Qlt_le_dec _ _) as [H | H]; [left | right];
    (split; [| reflexivity]); by rewrite <- Habs.
Qed.

Lemma normalised_unit (mn mx x : Q) :
  1e-12 <= mx - mn -> mn <= x <= mx -> 0 <= (x - mn) / (mx - mn) <= 1.
Proof.
  intros Hd [H1 H2].
  assert (0 < mx - mn) as Hpos by (with_epsilon; lra).
  split.
  - apply Qle_shift_div_l; lra.
  - apply Qle_shift_div_r; lra.
Qed.

Lemma min_max_length (vals : list Q) : length (min_max vals) = length vals.
Proof.
  destruct vals as [|v vs]; [done |].
  destruct (min_max_cases v vs) as [[_ ->] | [_ ->]]; apply length_map.
Qed.

Lemma min_max_unit (vals : list Q) :
  Forall (fun q => 0 <= q <= 1) (min_max vals).
Proof.
  destruct vals as [|v vs]; [constructor |].
  destruct (min_max_cases v vs) as [[_ ->] | [Hd ->]];
    rewrite map_fmap; apply Forall_fmap, Forall_forall; intros x Hx; simpl.
  - lra.
  - apply normalised_unit; [done |]. by apply min_max_bounds.
Qed.

(** X1: min-max normalisation (lines 145-152) keeps the length of the
    column and maps every value into [0, 1], in the order of the values.
    When two values differ by 1e-12 or more, the smallest value is mapped to
    0 and the largest to 1; when all values lie within 1e-12 of each other,
    every value is mapped to 0. *)
Theorem min_max_range (vals : list Q) :
  length (min_max vals) = length vals
  /\ Forall (fun q => 0 <= q <= 1) (min_max vals)
  /\ (forall (i j : nat) (a b a' b' : Q),
        vals !! i = Some a -> vals !! j = Some b ->
        min_max vals !! i = Some a' -> min_max vals !! j = Some b' ->
        a <= b -> a' <= b')
  /\ (forall a b : Q,
        a ∈ vals -> b ∈ vals -> 1e-12 <= b - a ->
        Exists (fun q => q == 0) (min_max vals)
        /\ Exists (fun q => q == 1) (min_max vals))
  /\ ((forall a b : Q, a ∈ vals -> b ∈ vals -> b - a < 1e-12) ->
      Forall (fun q => q == 0) (min_max vals)).
Proof.
  split; [apply min_max_length |].
  split; [apply min_max_unit |].
  destruct vals as [|v vs].
  { split; [intros i j a b a' b' Hi; done |].
    split; [intros a b Ha; by apply elem_of_nil in Ha | constructor]. }
  pose proof (min_max_bounds v vs) as Hb.
  destruct (list_min_elem vs v) as (lo & Hlo & Elo).
  destruct (list_max_elem vs v) as (hi & Hhi & Ehi).
  destruct (min_max_cases v vs) as [[Hd ->] | [Hd ->]]; rewrite !map_fmap.
  - split; [| split].
    + intros i j a b a' b' _ _ Hi Hj _.
      rewrite list_lookup_fmap in Hi, Hj.
      destruct ((v :: vs) !! i); [| done]. destruct ((v :: vs) !! j); [| done].
      simpl in *. injection Hi as <-. injection Hj as <-. lra.
    + intros a b Ha Hb' Hab. exfalso.
      destruct (Hb a Ha) as [? _]. destruct (Hb b Hb') as [_ ?].
      with_epsilon. lra.
    + intros _. apply Forall_fmap, Forall_forall. intros x _. simpl. reflexivity.
  - assert (0 < list_max v vs - list_min v vs) as Hpos by (with_epsilon; lra).
    split; [| split].
    + intros i j a b a' b' Ha Hb' Hi Hj Hab.
      rewrite list_lookup_fmap in Hi, Hj. rewrite Ha in Hi. rewrite Hb' in Hj.
      simpl in *. injection Hi as <-. injection Hj as <-.
      unfold Qdiv. apply Qmult_le_compat_r; [lra |].
      apply Qinv_le_0_compat. lra.
    + intros _ _ _ _ _. split; apply Exists_fmap, Exists_exists.
      * exists lo. split; [done |]. simpl. rewrite <- Elo. field. lra.
      * exists hi. split; [done |]. simpl. rewrite <- Ehi. field. lra.
    + intros Hall. exfalso. specialize (Hall lo hi Hlo Hhi).
      rewrite <- Elo, <- Ehi in Hall. with_epsilon. lra.
Qed.

Lemma min_max_range_witness :
  Exists (fun q => q == 1) (min_max [3; 1; 2]).
Proof.
  destruct (min_max_range [3; 1; 2]) as (_ & _ & _ & H & _).
  apply (H 1 3).
  - right. by left.
  - by left.
  - vm_compute. discriminate.
Defined.

End MinMax.

(** ** Stability of the sort *)

Section PyListStable.
Import PyList.
Context {A : Type} (le : A -> A -> bool).
Context (P : A -> Prop) `{!forall x, Decision (P x)}.
Hypothesis le_within : forall x y, P x -> P y -> le x y = true.

Lemma insert_by_filter (x : A) (l : list A) :
  filter P (insert_by le x l) = filter P (x :: l).
Proof.
  induction l as [|y l IH]; simpl; [done |].
  destruct (le x y) eqn:Hxy; [done |].
  rewrite filter_cons, IH, !filter_cons.
  destruct (decide (P y)) as [Hy|Hy], (decide (P x)) as [Hx|Hx]; try done.
  rewrite le_within in Hxy by done. discriminate.
Qed.

(** Elements the order does not tell apart keep their relative order. *)
Lemma stable_sort_filter (l : list A) :
  filter P (stable_sort le l) = filter P l.
Proof.
  induction l as [|x l IH]; simpl; [done |].
  fold (stable_sort le l). rewrite insert_by_filter, !filter_cons, IH. done.
Qed.

End PyListStable.

(** ** rank_func.py: the rows of the ranked document *)

Section RankedRows.
Import PyStr PyList Ast RankFunc.
Context `{RT : Runtime}.

Local Open Scope nat_scope.

Lemma mapM_Some_map {A B} (f : A -> option B) (g : A -> B) (l : list A) :
  Forall (fun x => f x = Some (g x)) l -> mapM f l = Some (map g l).
Proof.
  induction 1 as [|x l Hx _ IH]; simpl; [done |].
  rewrite Hx. simpl. rewrite IH. done.
Qed.

(** Row [i] when the script ends: the row built for node [i], normalised
    with the columns of all rows, then scored. *)
Lemma scored_row_at (nodes : list obj) (ds : list (gmap string value))
    (i : nat) (d : gmap string value) :
  scored_rows nodes = Some ds ->
  ds !! i = Some d ->
  exists cn o,
    col_norms (map build_row nodes) = Some cn
    /\ nodes !! i = Some o
    /\ score_row (norm_row cn i (build_row o)) = Some d.
Proof.
  unfold scored_rows. intros Hds Hd.
  destruct (col_norms (map build_row nodes)) as [cn|] eqn:Hcn; [| discriminate].
  simpl in Hds. apply mapM_Some in Hds.
  destruct (Forall2_lookup_r _ _ _ _ _ Hds Hd) as (r & Hr & Hscore).
  rewrite list_lookup_imap, map_fmap, list_lookup_fmap in Hr.
  destruct (nodes !! i) as [o|]; [| done]. simpl in Hr. injection Hr as <-.
  by exists cn, o.
Qed.

(** A property of every scored row is a property of every row of the
    ranked document. *)
Lemma function_rankings_Forall (P : gmap string value -> Prop)
    (nodes : list obj) :
  (forall cn i o d,
     col_norms (map build_row nodes) = Some cn ->
     nodes !! i = Some o ->
     score_row (norm_row cn i (build_row o)) = Some d -> P d) ->
  exists st,
    rank_functions nodes = Some st /\ Forall P (function_rankings st).
Proof.
  intros HP.
  destruct (rank_functions_spec nodes)
    as (ds & sorted & Hds & Hlen & Hinv & Hperm & Hrun).
  eexists. split; [exact Hrun |].
  rewrite (function_rankings_Permutation nodes ds sorted Hlen Hperm).
  apply Forall_forall. intros d Hd.
  apply list_elem_of_lookup in Hd as [i Hi].
  destruct (scored_row_at nodes ds i d Hds Hi) as (cn & o & Hcn & Ho & Hs).
  by eapply HP.
Qed.

Lemma numeric_cols_norm_keys (c : string) :
  c ∈ numeric_cols ->
  (c +:+ "_norm")%string <> "triviality"%string
  /\ (c +:+ "_norm")%string <> "importance"%string.
Proof.
  intros Hc. unfold numeric_cols in Hc.
  repeat (apply elem_of_cons in Hc as [-> | Hc]);
    [.. | by apply elem_of_nil in Hc]; split; discriminate.
Qed.

Lemma col_norms_unit (ds : list (gmap string value))
    (cn : list (string * list Q)) :
  col_norms ds = Some cn ->
  Forall (fun cv => Forall (fun q => 0 <= q <= 1)%Q (snd cv)) cn.
Proof.
  unfold col_norms. intros H. apply mapM_Some in H.
  induction H as [|c y cs ys Hy _ IH]; constructor; [| done].
  destruct (mapM _ ds); simpl in Hy; [| discriminate].
  injection Hy as <-. simpl. apply min_max_unit.
Qed.

Lemma nth_unit (i : nat) (vals : list Q) :
  Forall (fun q => 0 <= q <= 1)%Q vals -> (0 <= nth i vals 0 <= 1)%Q.
Proof.
  intros H. destruct (decide (i < length vals)) as [Hi|Hi].
  - by apply Forall_nth.
  - rewrite nth_overflow by lia. lra.
Qed.

Lemma norm_row_lookup_prop (P : Q -> Prop) (cn : list (string * list Q))
    (i : nat) (d : gmap string value) (c : string) :
  Forall (fun cv => P (nth i (snd cv) 0%Q)) cn ->
  c ∈ map fst cn ->
  exists q, norm_row cn i d !! (c +:+ "_norm") = Some (VFloat q) /\ P q.
Proof.
  induction cn as [|x cn IH] using rev_ind; intros HP Hc.
  - by apply elem_of_nil in Hc.
  - rewrite norm_row_snoc. rewrite map_app in Hc. simpl in Hc.
    apply Forall_app in HP as [HP Hx]. apply Forall_cons in Hx as [Hx _].
    destruct (decide (fst x +:+ "_norm" = c +:+ "_norm")) as [->|Hne].
    + rewrite lookup_insert_eq. eauto.
    + rewrite lookup_insert_ne by done. apply IH; [done |].
      apply elem_of_app in Hc as [Hc | Hc]; [done |].
      apply list_elem_of_singleton in Hc. by subst.
Qed.

(** The normalised metrics of a scored row. *)
Lemma scored_row_norms (nodes : list obj) (cn : list (string * list Q))
    (i : nat) (o : obj) (d : gmap string value) (c : string) :
  col_norms (map build_row nodes) = Some cn ->
  score_row (norm_row cn i (build_row o)) = Some d ->
  c ∈ numeric_cols ->
  exists q, d !! (c +:+ "_norm") = Some (VFloat q) /\ (0 <= q <= 1)%Q.
Proof.
  intros Hcn Hs Hc.
  destruct (numeric_cols_norm_keys c Hc) as [H1 H2].
  rewrite (score_row_frame _ _ _ Hs H1 H2).
  apply norm_row_lookup_prop.
  - eapply Forall_impl; [by eapply col_norms_unit |].
    intros cv Hcv. by apply nth_unit.
  - by rewrite (col_norms_columns _ _ Hcn).
Qed.

End RankedRows.

Section NormalisedMetrics.
Import PyStr PyList Ast RankFunc.

(** X2: on every input the script ends normally, and every row of the
    ranked document holds, for each of the ten numeric columns, a float
    between 0 and 1 under the key of the column followed by [_norm]. *)
Theorem normalised_metrics_unit `{RT : Runtime} (nodes : list obj) :
  exists st,
    rank_functions nodes = Some st
    /\ Forall (fun r =>
                 forall c, c ∈ numeric_cols ->
                   exists q, r !! (c +:+ "_norm") = Some (VFloat q)
                             /\ (0 <= q <= 1)%Q)
              (function_rankings st).
Proof.
  apply function_rankings_Forall.
  intros cn i o d Hcn Ho Hs c Hc. by eapply scored_row_norms.
Qed.

End NormalisedMetrics.

Section RankingOrder.
Import PyStr PyList Ast RankFunc.
Context `{RT : Runtime}.

Local Open Scope nat_scope.

Lemma Sorted_weaken {A} (R1 R2 : relation A) (l : list A) :
  (forall x y, R1 x y -> R2 x y) -> Sorted R1 l -> Sorted R2 l.
Proof.
  intros HR. induction 1 as [|x l _ IH Hhd]; constructor; [done |].
  destruct Hhd; constructor. by apply HR.
Qed.

(** The script up to the sort, in terms of the scored rows. *)
Lemma rank_functions_rows (nodes : list obj) (ds : list (gmap string value)) :
  scored_rows nodes = Some ds ->
  rank_functions nodes
  = sorted ← rows_sorted (seq (length nodes) (length nodes))
                         (nodes ++ map Dict ds);
    Some {| st_heap := nodes ++ map Dict ds;
            st_rows := seq (length nodes) (length nodes);
            st_rows_sorted := sorted |}.
Proof.
  intros Hds. unfold rank_functions. rewrite stage_extract_spec.
  pose proof (stage_normalize_spec nodes (map build_row nodes)) as Hn.
  rewrite length_map, map_map in Hn. rewrite Hn. clear Hn.
  unfold scored_rows in Hds.
  destruct (col_norms (map build_row nodes)) as [cn|]; [| discriminate].
  simpl in Hds |- *.
  pose proof (stage_score_spec (imap (norm_row cn) (map build_row nodes)) nodes)
    as Hs.
  rewrite length_imap, length_map in Hs. rewrite Hs, Hds. done.
Qed.

Lemma importance_key_invariant (d : gmap string value) :
  score_invariant d ->
  num (get d "importance" (VFloat 0)) = Some (importance_key d).
Proof.
  intros (t & i & _ & Hi & _). unfold importance_key, get. by rewrite Hi.
Qed.

(** The sorted addresses are the addresses sorted by the key of their row. *)
Lemma rows_sorted_spec (pre : heap) (ds : list (gmap string value)) :
  Forall score_invariant ds ->
  let h := pre ++ map Dict ds in
  rows_sorted (seq (length pre) (length ds)) h
  = Some (stable_sort
            (fun a b => Qle_bool (importance_key (dict_at h b))
                                 (importance_key (dict_at h a)))
            (seq (length pre) (length ds))).
Proof.
  intros Hinv h. unfold rows_sorted.
  rewrite (mapM_Some_map _ (fun r => (importance_key (dict_at h r), r))).
  - simpl. f_equal. unfold sorted_desc.
    rewrite (stable_sort_map
               (fun x y : Q * addr => Qle_bool (fst y) (fst x))
               (fun r => (importance_key (dict_at h r), r))).
    rewrite map_map. simpl. apply map_id.
  - apply Forall_forall. intros r Hr. apply elem_of_seq in Hr as [Hr1 Hr2].
    rewrite importance_key_invariant; [done |].
    replace r with (length pre + (r - length pre)) by lia.
    unfold h. rewrite dict_at_app_r by lia.
    destruct (lookup_lt_is_Some_2 ds (r - length pre)) as [d Hd]; [lia |].
    rewrite Hd. simpl. rewrite Forall_forall in Hinv. apply Hinv.
    by eapply list_elem_of_lookup_2.
Qed.

(** The ranked document is the list of scored rows, sorted. *)
Lemma function_rankings_sorted_desc (nodes : list obj) :
  exists st ds,
    rank_functions nodes = Some st
    /\ scored_rows nodes = Some ds
    /\ rows_in_input_order st = ds
    /\ function_rankings st = sorted_desc importance_key ds.
Proof.
  destruct (scored_rows_total nodes) as (ds & Hds & Hlen & Hinv).
  pose proof (rank_functions_rows nodes ds Hds) as Hrun.
  pose proof (rows_sorted_spec nodes ds Hinv) as Hsort. cbv zeta in Hsort.
  rewrite Hlen in Hsort. rewrite Hsort in Hrun. simpl in Hrun.
  eexists _, ds. split; [exact Hrun |]. split; [done |].
  assert (map (dict_at (nodes ++ map Dict ds)) (seq (length nodes) (length nodes))
          = ds) as Hrows.
  { rewrite <- Hlen at 2. apply dict_at_rows. }
  split; [exact Hrows |].
  unfold function_rankings, sorted_desc. simpl.
  rewrite <- Hrows at 2.
  by rewrite (stable_sort_map
                (fun x y => Qle_bool (importance_key y) (importance_key x))
                (dict_at (nodes ++ map Dict ds))).
Qed.

End RankingOrder.

Section RankingSorted.
Import PyStr PyList Ast RankFunc.

(** X3: the ranked document holds the rows of the input nodes, in
    descending order of importance; rows of equal importance stay in the
    order of their nodes in the input. *)
Theorem function_rankings_sorted `{RT : Runtime} (nodes : list obj) :
  exists st,
    rank_functions nodes = Some st
    /\ function_rankings st ≡ₚ rows_in_input_order st
    /\ Sorted (fun a b => (importance_key b <= importance_key a)%Q)
              (function_rankings st)
    /\ forall q : Q,
         filter (fun r => Qeq_bool (importance_key r) q = true)
                (function_rankings st)
         = filter (fun r => Qeq_bool (importance_key r) q = true)
                  (rows_in_input_order st).
Proof.
  destruct (function_rankings_sorted_desc nodes)
    as (st & ds & Hrun & _ & Hrows & Hsorted).
  exists st. split; [done |]. rewrite Hsorted, Hrows. unfold sorted_desc.
  split; [apply stable_sort_Permutation |]. split.
  - eapply Sorted_weaken; [| apply stable_sort_Sorted].
    + intros x y H. by apply Qle_bool_iff.
    + intros x y. simpl.
      destruct (Qlt_le_dec (importance_key x) (importance_key y)) as [H|H].
      * right. apply Qle_bool_iff. by apply Qlt_le_weak.
      * left. by apply Qle_bool_iff.
  - intros q. apply stable_sort_filter.
    intros x y Hx Hy. apply Qeq_bool_iff in Hx, Hy. apply Qle_bool_iff.
    rewrite Hx, Hy. apply Qle_refl.
Qed.

End RankingSorted.

Section IdsPreserved.
Import PyStr PyList Ast RankFunc.

Ltac lookup_chain :=
  repeat (rewrite lookup_insert_ne by done); rewrite ?lookup_insert_eq.

Lemma norm_row_keeps `{RT : Runtime} (cn : list (string * list Q)) (i : nat)
    (d : gmap string value) (k : string) :
  map fst cn = numeric_cols ->
  k ∉ map (fun c => c +:+ "_norm") numeric_cols ->
  norm_row cn i d !! k = d !! k.
Proof. intros Hcn Hk. apply norm_row_lookup_ne. by rewrite Hcn. Qed.

(** The id and the label of a scored row are those of its node. *)
Lemma scored_row_id_label `{RT : Runtime} (cn : list (string * list Q))
    (i : nat) (o : obj) (d : gmap string value) :
  map fst cn = numeric_cols ->
  score_row (norm_row cn i (build_row o)) = Some d ->
  d !! "id" = Some (get (original_node o) "id" VNone)
  /\ d !! "label"
     = Some (py_or (get (original_node o) "label" (VStr [])) (VStr [])).
Proof.
  intros Hcols Hs. split.
  - rewrite (score_row_frame _ _ "id" Hs) by done.
    rewrite norm_row_keeps;
      [| done | apply (bool_decide_unpack _); vm_compute; exact I].
    unfold build_row. cbv zeta. by lookup_chain.
  - rewrite (score_row_frame _ _ "label" Hs) by done.
    rewrite norm_row_keeps;
      [| done | apply (bool_decide_unpack _); vm_compute; exact I].
    unfold build_row. cbv zeta. by lookup_chain.
Qed.

(** X4: the script makes one row per node, and the row of a node carries
    the id of the node ([None] when the node has none; [str(node)] for a
    node that is not a dictionary) and its label (the empty text when the
    label is missing or falsy); the ranked document is a permutation of
    these rows. *)
Theorem ids_and_labels_preserved `{RT : Runtime} (nodes : list obj) :
  exists st,
    rank_functions nodes = Some st
    /\ function_rankings st ≡ₚ rows_in_input_order st
    /\ length (rows_in_input_order st) = length nodes
    /\ forall (i : nat) (o : obj) (row : gmap string value),
         nodes !! i = Some o ->
         rows_in_input_order st !! i = Some row ->
         row !! "id" = Some (get (original_node o) "id" VNone)
         /\ row !! "label"
            = Some (py_or (get (original_node o) "label" (VStr [])) (VStr [])).
Proof.
  destruct (function_rankings_sorted_desc nodes)
    as (st & ds & Hrun & Hds & Hrows & Hsorted).
  exists st. split; [done |]. rewrite Hsorted, Hrows.
  split; [apply stable_sort_Permutation |].
  destruct (scored_rows_total nodes) as (ds' & Hds' & Hlen & _).
  assert (ds' = ds) as -> by congruence.
  split; [done |].
  intros i o row Ho Hrow.
  destruct (scored_row_at nodes ds i row Hds Hrow) as (cn & o' & Hcn & Ho' & Hs).
  assert (o' = o) as -> by congruence.
  eapply scored_row_id_label; [by eapply col_norms_columns | done].
Qed.

End IdsPreserved.

Section ScoreRange.
Import PyStr PyList Ast RankFunc.
Context `{RT : Runtime}.

Local Open Scope Q_scope.

Ltac in_list :=
  apply list_elem_of_In; simpl; repeat (first [left; reflexivity | right]).

Lemma score_row_inv (r d : gmap string value) :
  score_row r = Some d ->
  exists t,
    compute_triviality r = Some t
    /\ d = <["importance" := VFloat (round4 (1 - round4 t))]>
             (<["triviality" := VFloat (round4 t)]> r).
Proof.
  unfold score_row. intros H.
  destruct (compute_triviality r) as [t|]; [| discriminate]. simpl in H.
  unfold get in H. rewrite lookup_insert_eq in H. simpl in H.
  injection H as <-. by exists t.
Qed.

Lemma weights_values :
  weight "loc_norm" = 0.35 /\ weight "complexity_norm" = 0.20
  /\ weight "num_calls_norm" = 0.05 /\ weight "num_params_norm" = 0.05
  /\ weight "keyword_matches_norm" = 0.20 /\ weight "doc_len_norm" = 0.05
  /\ weight "num_imports_norm" = 0.05.
Proof. repeat split; reflexivity. Qed.

(** The weights add up to 0.95: so does the weighted sum at most. *)
Lemma base_score_unit (r : gmap string value) :
  (forall c, c ∈ numeric_cols ->
     exists q, r !! (c +:+ "_norm") = Some (VFloat q) /\ 0 <= q <= 1) ->
  exists s, base_score r = Some s /\ 0 <= s <= 0.95.
Proof.
  intros H.
  destruct (H "loc") as (q1 & E1 & B1); [in_list |].
  destruct (H "complexity") as (q2 & E2 & B2); [in_list |].
  destruct (H "num_calls") as (q3 & E3 & B3); [in_list |].
  destruct (H "num_params") as (q4 & E4 & B4); [in_list |].
  destruct (H "keyword_matches") as (q5 & E5 & B5); [in_list |].
  destruct (H "doc_len") as (q6 & E6 & B6); [in_list |].
  destruct (H "num_imports") as (q7 & E7 & B7); [in_list |].
  cbv [String.append] in E1, E2, E3, E4, E5, E6, E7.
  unfold base_score, get. rewrite E1, E2, E3, E4, E5, E6, E7. simpl.
  eexists. split; [reflexivity |].
  destruct weights_values as (-> & -> & -> & -> & -> & -> & ->). lra.
Qed.

Lemma lowered_le (x c b : Q) : 0 <= c -> 0 <= b -> x <= b -> Qmax 0 (x - c) <= b.
Proof. intros Hc Hb Hx. apply Q.max_lub; lra. Qed.

Lemma compute_triviality_no_bonus (r : gmap string value) (s t : Q) :
  base_score r = Some s -> s <= 0.95 ->
  is_trivial_one_liner r = Some false ->
  compute_triviality r = Some t -> t <= 0.95.
Proof.
  intros Hs Hle Htriv. unfold compute_triviality. rewrite Hs, Htriv. simpl.
  destruct (is_documented r) as [documented|]; [| discriminate]. simpl.
  intros [= <-].
  apply Q.max_lub; [lra |].
  eapply Qle_trans; [apply Q.le_min_r |].
  destruct (is_critical r), documented;
    repeat (apply lowered_le; [lra | lra |]); lra.
Qed.

Lemma round4_le (t : Q) (n : Z) :
  0 <= t -> t * 10000 <= inject_Z n ->
  exists k : Z, (0 <= k <= n)%Z /\ round4 t = inject_Z k / 10000.
Proof.
  intros H0 Hn. exists (round_half_even (t * 10000)). split; [| reflexivity].
  apply round_half_even_bounds. lra.
Qed.

Lemma is_trivial_one_liner_reads (r1 r2 : gmap string value) :
  r1 !! "one_liner" = r2 !! "one_liner" ->
  r1 !! "num_calls" = r2 !! "num_calls" ->
  r1 !! "complexity" = r2 !! "complexity" ->
  is_trivial_one_liner r1 = is_trivial_one_liner r2.
Proof.
  intros H1 H2 H3. unfold is_trivial_one_liner, get. by rewrite H1, H2, H3.
Qed.

(** A scored row whose importance is below 0.05 got the first adjustment. *)
Lemma scored_row_low_importance (nodes : list obj)
    (cn : list (string * list Q)) (i : nat) (o : obj)
    (d : gmap string value) (imp : Q) :
  col_norms (map build_row nodes) = Some cn ->
  score_row (norm_row cn i (build_row o)) = Some d ->
  d !! "importance" = Some (VFloat imp) ->
  imp < 0.05 ->
  is_trivial_one_liner d = Some true.
Proof.
  intros Hcn Hs Himp Hlow.
  set (pre := norm_row cn i (build_row o)) in *.
  assert (is_trivial_one_liner d = is_trivial_one_liner pre) as ->.
  { apply is_trivial_one_liner_reads; by apply (score_row_frame _ _ _ Hs). }
  destruct (score_row_inv _ _ Hs) as (t & Ht & ->).
  rewrite lookup_insert_eq in Himp. injection Himp as <-.
  destruct (base_score_unit pre) as (s & Hbase & Hs0 & Hs1).
  { intros c Hc. apply norm_row_lookup_prop.
    - eapply Forall_impl; [by eapply col_norms_unit |].
      intros cv Hcv. by apply nth_unit.
    - by rewrite (col_norms_columns _ _ Hcn). }
  pose proof Ht as Hrun. unfold compute_triviality in Hrun.
  rewrite Hbase in Hrun. simpl in Hrun.
  destruct (is_trivial_one_liner pre) as [[|]|] eqn:Htriv;
    [done | | discriminate].
  exfalso.
  pose proof (compute_triviality_no_bonus pre s t Hbase Hs1 Htriv Ht) as Hle.
  pose proof (compute_triviality_bounds pre t Ht) as [Ht0 _].
  destruct (round4_le t 9500) as (k & Hk & Hr); [done | |].
  { change (inject_Z 9500) with 9500. lra. }
  rewrite Hr, round4_complement in Hlow.
  assert (inject_Z 500 <= inject_Z (10000 - k)) as Hq.
  { rewrite <- Zle_Qle. lia. }
  change (inject_Z 500) with 500 in Hq.
  assert (500 / 10000 <= inject_Z (10000 - k) / 10000) as Hdiv.
  { unfold Qdiv. apply Qmult_le_compat_r; [done | discriminate]. }
  assert (500 / 10000 == 0.05) as Heq by reflexivity.
  rewrite Heq in Hdiv. lra.
Qed.

End ScoreRange.

Section LowImportance.
Import PyStr PyList Ast RankFunc.

(** X5: the weights add up to 0.95, so a row of the ranked document whose
    importance is below 0.05 got the first adjustment of the scorer: it is
    flagged as a one-liner, with at most one call and a complexity of at
    most 2. *)
Theorem low_importance_only_one_liners `{RT : Runtime} (nodes : list obj) :
  exists st,
    rank_functions nodes = Some st
    /\ Forall (fun r =>
                 forall imp : Q,
                   r !! "importance" = Some (VFloat imp) ->
                   (imp < 0.05)%Q ->
                   is_trivial_one_liner r = Some true)
              (function_rankings st).
Proof.
  apply function_rankings_Forall.
  intros cn i o d Hcn Ho Hs imp Himp Hlow.
  by eapply scored_row_low_importance.
Qed.

End LowImportance.

Section TableColumns.
Import PyStr PyList Ast RankFunc.
Context `{RT : Runtime}.

Ltac lookup_chain :=
  repeat (rewrite lookup_insert_ne by done); rewrite ?lookup_insert_eq.

Lemma build_row_csv_columns (o : obj) (c : string) :
  c ∈ csv_columns -> c <> "importance"%string -> c <> "triviality"%string ->
  is_Some (build_row o !! c).
Proof.
  intros Hc H1 H2. unfold csv_columns in Hc.
  repeat (apply elem_of_cons in Hc as [-> | Hc]);
    [.. | by apply elem_of_nil in Hc]; try done;
    unfold build_row; cbv zeta; lookup_chain; eauto.
Qed.

Lemma csv_columns_not_norm (c : string) :
  c ∈ csv_columns -> c ∉ map (fun c => c +:+ "_norm") numeric_cols.
Proof.
  intros Hc. unfold csv_columns in Hc.
  repeat (apply elem_of_cons in Hc as [-> | Hc]);
    [.. | by apply elem_of_nil in Hc];
    apply (bool_decide_unpack _); vm_compute; exact I.
Qed.

(** Every scored row has a value under each of the fixed columns. *)
Lemma scored_row_csv_columns (cn : list (string * list Q)) (i : nat) (o : obj)
    (d : gmap string value) :
  map fst cn = numeric_cols ->
  score_row (norm_row cn i (build_row o)) = Some d ->
  Forall (fun c => is_Some (d !! c)) csv_columns.
Proof.
  intros Hcn Hs. apply Forall_forall. intros c Hc.
  destruct (decide (c = "importance"%string)) as [-> | H1].
  { destruct (score_row_inv _ _ Hs) as (t & _ & ->).
    rewrite lookup_insert_eq. eauto. }
  destruct (decide (c = "triviality"%string)) as [-> | H2].
  { destruct (score_row_inv _ _ Hs) as (t & _ & ->).
    rewrite lookup_insert_ne, lookup_insert_eq by done. eauto. }
  rewrite (score_row_frame _ _ c Hs) by done.
  rewrite norm_row_keeps by auto using csv_columns_not_norm.
  by apply build_row_csv_columns.
Qed.

Lemma cols_present_all (rows : list (gmap string value)) :
  rows <> [] ->
  Forall (fun r => Forall (fun c => is_Some (r !! c)) csv_columns) rows ->
  cols_present rows = csv_columns.
Proof.
  intros Hne Hall. unfold cols_present. apply filter_all, Forall_forall.
  intros c Hc. destruct rows as [|r rows]; [done |].
  apply Forall_cons in Hall as [Hr _]. rewrite Forall_forall in Hr.
  unfold has_key. simpl. by rewrite bool_decide_eq_true_2 by auto.
Qed.

End TableColumns.

Section TableColumnsFixed.
Import PyStr PyList Ast RankFunc.

(** X6: every row of the ranked document has a value under each of the
    sixteen fixed columns, so the default of the csv branch is never used
    and, for a non-empty input, the pandas branch and the csv branch write
    the same columns; on an empty input the pandas branch finds no column at
    all while the csv branch still writes the sixteen. *)
Theorem table_columns_fixed `{RT : Runtime} (nodes : list obj) :
  exists st,
    rank_functions nodes = Some st
    /\ Forall (fun r => Forall (fun c => is_Some (r !! c)) csv_columns)
              (function_rankings st)
    /\ table_columns false (function_rankings st) = csv_columns
    /\ (nodes <> [] -> table_columns true (function_rankings st) = csv_columns)
    /\ (nodes = [] -> table_columns true (function_rankings st) = []).
Proof.
  destruct (function_rankings_Forall
              (fun r => Forall (fun c => is_Some (r !! c)) csv_columns) nodes)
    as (st & Hrun & Hall).
  { intros cn i o d Hcn Ho Hs.
    eapply scored_row_csv_columns; [by eapply col_norms_columns | done]. }
  destruct (rank_functions_spec nodes)
    as (ds & sorted & _ & Hlen & _ & Hperm & Hrun').
  rewrite Hrun in Hrun'. injection Hrun' as ->.
  pose proof (function_rankings_Permutation nodes ds sorted Hlen Hperm) as Hp.
  eexists. split; [exact Hrun |]. split; [exact Hall |].
  split; [reflexivity |]. split.
  - intros Hne. apply cols_present_all; [| exact Hall].
    intros Hnil. rewrite Hnil in Hp. apply Permutation_nil_l in Hp.
    subst ds. by destruct nodes.
  - intros ->. simpl in Hlen. destruct ds; [| done].
    apply Permutation_nil_r in Hp. by rewrite Hp.
Qed.

Lemma table_columns_fixed_witness :
  exists st,
    @rank_functions no_parser [Atom (VInt 7)] = Some st
    /\ table_columns true (function_rankings st) = csv_columns.
Proof.
  destruct (@table_columns_fixed no_parser [Atom (VInt 7)])
    as (st & Hrun & _ & _ & Hcols & _).
  exists st. split; [exact Hrun |]. by apply Hcols.
Defined.

End TableColumnsFixed.

Section NoCode.
Import PyStr PyList Ast RankFunc.

Ltac lookup_chain :=
  repeat (rewrite lookup_insert_ne by done); rewrite ?lookup_insert_eq.

(** X7: a node with no code (no [code] key, a falsy value such as null or
    the empty text, or a node that is not a dictionary) gets a row with all
    counts 0, complexity 0.0 and an empty snippet, without the parser being
    called; it is flagged as a one-liner and receives the first adjustment of
    the scorer. *)
Theorem node_without_code `{RT : Runtime} (o : obj) :
  truthy (get (original_node o) "code" (VStr [])) = false ->
  let row := build_row o in
  (forall c,
     c ∈ ["loc"; "num_funcs"; "num_params"; "num_calls"; "num_returns";
          "num_assigns"; "num_imports"; "doc_len"; "keyword_matches";
          "has_type_annotations"]%string ->
     row !! c = Some (VInt 0))
  /\ row !! "complexity" = Some (VFloat 0)
  /\ row !! "one_liner" = Some (VInt 1)
  /\ row !! "code_snippet" = Some (VStr [])
  /\ forall (col_norm : list (string * list Q)) (i : nat),
       map fst col_norm = numeric_cols ->
       is_trivial_one_liner (norm_row col_norm i row) = Some true.
Proof.
  intros Hcode. cbv zeta.
  assert (py_or (get (original_node o) "code" (VStr [])) (VStr []) = VStr [])
    as Hc.
  { unfold py_or. by rewrite Hcode. }
  assert (build_row o !! "complexity" = Some (VFloat 0)) as Hcomp.
  { unfold build_row. cbv zeta. lookup_chain. by rewrite Hc. }
  assert (build_row o !! "one_liner" = Some (VInt 1)) as Hone.
  { unfold build_row. cbv zeta. lookup_chain. by rewrite Hc. }
  assert (build_row o !! "num_calls" = Some (VInt 0)) as Hcalls.
  { unfold build_row. cbv zeta. lookup_chain. by rewrite Hc. }
  split; [| split; [done | split; [done | split]]].
  - intros c Hin.
    repeat (apply elem_of_cons in Hin as [-> | Hin]);
      [.. | by apply elem_of_nil in Hin];
      unfold build_row; cbv zeta; lookup_chain; by rewrite Hc.
  - unfold build_row. cbv zeta. lookup_chain. by rewrite Hc.
  - intros cn i Hcn. unfold is_trivial_one_liner, get.
    rewrite !norm_row_keeps, Hone, Hcalls, Hcomp;
      [reflexivity | try done ..];
      apply (bool_decide_unpack _); vm_compute; exact I.
Qed.

(** A node that is not a dictionary, and a dictionary whose code is null. *)
Lemma node_without_code_witness :
  @build_row no_parser (Atom (VInt 7)) !! "one_liner" = Some (VInt 1)
  /\ @build_row no_parser (Dict {[ "code" := VNone ]}) !! "loc"
     = Some (VInt 0).
Proof.
  split.
  - destruct (@node_without_code no_parser (Atom (VInt 7)))
      as (_ & _ & H & _); [reflexivity | exact H].
  - destruct (@node_without_code no_parser (Dict {[ "code" := VNone ]}))
      as (H & _); [reflexivity |].
    apply H. by left.
Defined.

End NoCode.

(** ** rank_func.py: the counts over the tree *)

Section TreeCounts.
Import PyStr PyList Ast RankFunc.

Lemma sum_Z_app (l k : list Z) : sum_Z (l ++ k) = sum_Z l + sum_Z k.
Proof. unfold sum_Z. induction l as [|x l IH]; simpl; lia. Qed.

Lemma sum_Z_cons (x : Z) (l : list Z) : sum_Z (x :: l) = x + sum_Z l.
Proof. reflexivity. Qed.

Lemma sum_Z_Permutation (l k : list Z) : l ≡ₚ k -> sum_Z l = sum_Z k.
Proof. unfold sum_Z. induction 1; simpl; lia. Qed.

Lemma decision_points_nonneg (n : AST) : 0 <= decision_points n.
Proof.
  unfold decision_points.
  destruct (is_branch (node_ty n)), (node_ty n); lia.
Qed.

Lemma sum_decision_points_nonneg (l : list AST) :
  0 <= sum_Z (map decision_points l).
Proof.
  induction l as [|n l IH]; simpl; [done |].
  pose proof (decision_points_nonneg n). unfold sum_Z in *. simpl. lia.
Qed.

Lemma count_decision_points (l : list AST) :
  forall count : Z,
    fold_left
      (fun count node =>
         let count :=
           if is_branch (node_ty node) then count + 1 else count in
         match node_ty node with
         | ast_BoolOp n => count + Z.max 0 (Z.of_nat n - 1)
         | _ => count
         end) l count
    = count + sum_Z (map decision_points l).
Proof.
  induction l as [|n l IH]; intros count; simpl.
  - unfold sum_Z. simpl. lia.
  - rewrite IH. unfold sum_Z, decision_points. simpl.
    destruct (is_branch (node_ty n)), (node_ty n); lia.
Qed.

Lemma complexity_sum (t : AST) :
  compute_cyclomatic_complexity (Some t)
  = 1 + sum_Z (map decision_points (nodes_of t)).
Proof.
  unfold compute_cyclomatic_complexity. rewrite count_decision_points.
  rewrite (sum_Z_Permutation _ (map decision_points (nodes_of t)))
    by (apply Permutation_map, walk_Permutation).
  pose proof (sum_decision_points_nonneg (nodes_of t)). lia.
Qed.

Lemma sum_flat_map (f : AST -> Z) (cs : list AST) :
  sum_Z (map f (flat_map nodes_of cs))
  = sum_Z (map (fun c => sum_Z (map f (nodes_of c))) cs).
Proof.
  induction cs as [|c cs IH]; simpl; [done |].
  rewrite map_app, sum_Z_app, IH. done.
Qed.

(** X8: the complexity of a parsed unit is 1 plus the decision points of
    all its nodes, each node counted once (a branch node counts 1, a boolean
    operation its number of operands less one); it is at least 1, it is 1
    plus the decision points of the root plus the excess over 1 of the
    complexities of the children, and the complexity 0 is exactly that of a
    unit that did not parse. *)
Theorem complexity_decision_points (t : AST) :
  compute_cyclomatic_complexity (Some t)
  = 1 + sum_Z (map decision_points (nodes_of t))
  /\ 1 <= compute_cyclomatic_complexity (Some t)
  /\ compute_cyclomatic_complexity (Some t)
     = 1 + decision_points t
       + sum_Z (map (fun c => compute_cyclomatic_complexity (Some c) - 1)
                    (child_nodes t))
  /\ forall tree : option AST,
       compute_cyclomatic_complexity tree = 0 <-> tree = None.
Proof.
  split; [apply complexity_sum |].
  assert (forall t, 1 <= compute_cyclomatic_complexity (Some t)) as Hpos.
  { intros t'. rewrite complexity_sum.
    pose proof (sum_decision_points_nonneg (nodes_of t')). lia. }
  split; [apply Hpos |]. split.
  - rewrite (map_ext _ (fun c => sum_Z (map decision_points (nodes_of c))))
      by (intros c; rewrite complexity_sum; lia).
    rewrite complexity_sum. destruct t as [ty cs].
    cbn [child_nodes nodes_of map]. rewrite sum_Z_cons, sum_flat_map. lia.
  - intros [t'|]; split; try done.
    intros H. specialize (Hpos t'). lia.
Qed.

(** The nodes counted are the nodes of the tree. *)
Lemma count_nodes_of_type_nodes (t : AST) (p : node_type -> bool) :
  count_nodes_of_type (Some t) p
  = Z.of_nat (length (filter (fun n => p (node_ty n) = true) (nodes_of t))).
Proof.
  unfold count_nodes_of_type. by rewrite walk_Permutation.
Qed.

Lemma nodes_of_wrapper (body : list AST) :
  nodes_of (wrapper_of body)
  = wrapper_of body
    :: Node (ast_FunctionDef 0 None) (Node ast_Other [] :: body)
    :: Node ast_Other []
    :: flat_map nodes_of body.
Proof. unfold wrapper_of. simpl. by rewrite app_nil_r. Qed.

Lemma nodes_of_module (body : list AST) :
  nodes_of (module_of body) = module_of body :: flat_map nodes_of body.
Proof. reflexivity. Qed.

(** X9: a fragment parsed inside the synthetic function gets one more
    function definition than the same statements parsed directly, the same
    count of every other node class and the same complexity, and its
    parameter count is 0: the first function definition [ast.walk] meets is
    the synthetic one. *)
Theorem wrapper_features (body : list AST) :
  let direct := Some (module_of body) in
  let wrapped := Some (wrapper_of body) in
  count_nodes_of_type wrapped is_FunctionDef
  = count_nodes_of_type direct is_FunctionDef + 1
  /\ (forall p : node_type -> bool,
        p (ast_FunctionDef 0 None) = false -> p ast_Other = false ->
        count_nodes_of_type wrapped p = count_nodes_of_type direct p)
  /\ compute_cyclomatic_complexity wrapped
     = compute_cyclomatic_complexity direct
  /\ count_params wrapped = 0.
Proof.
  cbv zeta. split; [| split; [| split]].
  - rewrite !count_nodes_of_type_nodes, nodes_of_wrapper, nodes_of_module.
    rewrite !filter_cons. simpl. lia.
  - intros p HF HO.
    rewrite !count_nodes_of_type_nodes, nodes_of_wrapper, nodes_of_module.
    rewrite !filter_cons. simpl. rewrite HF, HO. simpl.
    by destruct (decide _).
  - rewrite !complexity_sum, nodes_of_wrapper, nodes_of_module.
    unfold sum_Z. simpl. unfold decision_points. simpl. lia.
  - unfold count_params, walk, wrapper_of. simpl. done.
Qed.

Lemma wrapper_features_witness :
  count_nodes_of_type (Some (wrapper_of [return_constant])) is_Return
  = count_nodes_of_type (Some (module_of [return_constant])) is_Return.
Proof.
  destruct (wrapper_features [return_constant]) as (_ & H & _).
  apply H; reflexivity.
Defined.

End TreeCounts.

(** ** rank_func.py: the text of the second parse *)

Section WrappedText.
Import PyStr PyList Ast RankFunc.

Local Open Scope nat_scope.

Lemma splitlines_from_app (l : text) :
  forall cur rest : text,
    Forall (fun c => is_linebreak c = false) l ->
    splitlines_from false cur (l ++ rest)
    = splitlines_from false (cur ++ l) rest.
Proof.
  induction l as [|c l IH]; intros cur rest Hl; simpl.
  - by rewrite app_nil_r.
  - apply Forall_cons in Hl as [Hc Hl]. rewrite Hc.
    rewrite IH by done. by rewrite <- (assoc_L (++)).
Qed.

Lemma splitlines_from_LF (cur rest : text) :
  splitlines_from false cur (LF :: rest) = cur :: splitlines_from false [] rest.
Proof. reflexivity. Qed.

(** Splitting the lines joined by line feeds gives the lines back. *)
Lemma splitlines_join (lines : list text) :
  Forall (Forall (fun c => is_linebreak c = false)) lines ->
  last lines <> Some [] ->
  splitlines (join [LF] lines) = lines.
Proof.
  unfold splitlines.
  induction lines as [|l lines IH]; intros Hl Hlast; [done |].
  apply Forall_cons in Hl as [Hl Hls].
  destruct lines as [|l2 lines].
  - simpl. apply (splitlines_from_one_line l []); [done |].
    simpl. intros ->. by apply Hlast.
  - change (join [LF] (l :: l2 :: lines))
      with (l ++ LF :: join [LF] (l2 :: lines)).
    rewrite splitlines_from_app, splitlines_from_LF by done. simpl.
    f_equal. by apply IH.
Qed.

Lemma splitlines_from_lines (s : text) :
  forall (after_cr : bool) (cur : text),
    Forall (fun c => is_linebreak c = false) cur ->
    Forall (Forall (fun c => is_linebreak c = false)) (splitlines_from after_cr cur s).
Proof.
  induction s as [|c s IH]; intros after_cr cur Hcur; simpl.
  - destruct cur; simpl; [constructor | constructor; [done | constructor]].
  - destruct (after_cr && eqc c LF)%bool; [by apply IH |].
    destruct (is_linebreak c) eqn:Hc.
    + constructor; [done |]. apply IH. constructor.
    + apply IH. apply Forall_app. split; [done |]. by repeat constructor.
Qed.

(** X10: the text of the second parse attempt consists of the header
    line followed by the lines of the code, each behind four spaces: no line
    is lost, merged or split.  It is the text [safe_parse] hands to the
    parser when the first attempt on a non-empty text fails. *)
Theorem wrapped_text_lines `{RT : Runtime} (s : text) :
  splitlines (wrapped s)
  = lit "def __wrapper__():"
    :: map (fun ln => lit "    " ++ ln) (splitlines s)
  /\ (s <> [] -> ast_parse s = None ->
      safe_parse (VStr s) = ast_parse (wrapped s)).
Proof.
  split.
  - unfold wrapped.
    set (lines := map (fun ln => lit "    " ++ ln) (splitlines s)).
    assert (Forall (Forall (fun c => is_linebreak c = false)) lines) as Hl.
    { unfold lines. rewrite map_fmap. apply Forall_fmap.
      eapply Forall_impl; [apply (splitlines_from_lines s false []) |].
      - constructor.
      - intros l Hl. simpl. by repeat constructor. }
    assert (last lines <> Some []) as Hlast.
    { intros H. apply last_Some in H as [l' H].
      assert ([] ∈ lines) as Hin.
      { rewrite H. apply elem_of_app. right. by left. }
      unfold lines in Hin. rewrite map_fmap in Hin.
      apply list_elem_of_fmap in Hin as (ln & Heq & _). discriminate. }
    unfold splitlines at 1.
    rewrite splitlines_from_app by (by repeat constructor).
    simpl app. rewrite splitlines_from_LF. f_equal.
    by apply splitlines_join.
  - intros Hne Hparse. unfold safe_parse, wrapped.
    assert (truthy (VStr s) = true) as -> by (by destruct s).
    by rewrite Hparse.
Qed.

Lemma wrapped_text_lines_witness :
  @safe_parse no_parser (VStr (lit "return 1"))
  = @ast_parse no_parser (wrapped (lit "return 1")).
Proof.
  destruct (@wrapped_text_lines no_parser (lit "return 1")) as [_ H].
  apply H; [discriminate | reflexivity].
Defined.

End WrappedText.

(** ** rank_func.py: the features of a row *)

Section RowSchema.
Import PyStr PyList Ast RankFunc.
Context `{RT : Runtime}.

Ltac lookup_chain :=
  repeat (rewrite lookup_insert_ne by done); rewrite ?lookup_insert_eq.

Lemma count_nodes_of_type_nonneg (tree : option AST) (p : node_type -> bool) :
  0 <= count_nodes_of_type tree p.
Proof. destruct tree; simpl; lia. Qed.

Lemma count_params_nonneg (tree : option AST) : 0 <= count_params tree.
Proof.
  assert (forall ty, 0 <= n_args ty) as H by (intros []; simpl; lia).
  unfold count_params. destruct tree as [t|]; [| done].
  destruct (filter _ (walk t)); [| apply H].
  destruct (filter _ (walk t)); [done | apply H].
Qed.

Lemma extract_docstring_length_nonneg (tree : option AST) :
  0 <= extract_docstring_length tree.
Proof.
  unfold extract_docstring_length. destruct tree as [t|]; [| done].
  destruct (nonempty (get_docstring t)); [lia |].
  destruct (list_find _ _) as [[]|]; lia.
Qed.

Lemma complexity_nonneg (tree : option AST) :
  0 <= compute_cyclomatic_complexity tree.
Proof. destruct tree; simpl; lia. Qed.

Lemma code_snippet_length (code : text) :
  (length (code_snippet code) <= 1003)%nat
  /\ take 1000 (code_snippet code) = take 1000 code
  /\ ((length code <= 1000)%nat -> code_snippet code = code).
Proof.
  unfold code_snippet. destruct (1000 <? length code)%nat eqn:E.
  - apply Nat.ltb_lt in E. split; [| split].
    + rewrite length_app, length_take.
      change (length (lit "...")) with 3%nat. lia.
    + rewrite take_app_le by (rewrite length_take; lia).
      apply take_take.
    + lia.
  - apply Nat.ltb_ge in E. split; [lia | done].
Qed.

(** X11: the features of a row: the nine counts are non-negative
    integers, the complexity is a non-negative whole float, the two flags are
    0 or 1, the snippet has at most 1003 characters, agrees with the code on
    the first 1000 and is the code itself when that has at most 1000; a row
    flagged as a one-liner has at most 3 lines of code. *)
Theorem build_row_schema (o : obj) :
  let code :=
    py_str (py_or (get (original_node o) "code" (VStr [])) (VStr [])) in
  let row := build_row o in
  (forall c,
     c ∈ ["loc"; "num_funcs"; "num_params"; "num_calls"; "num_returns";
          "num_assigns"; "num_imports"; "doc_len"; "keyword_matches"]%string ->
     exists n : Z, row !! c = Some (VInt n) /\ 0 <= n)
  /\ (exists n : Z, row !! "complexity" = Some (VFloat (inject_Z n)) /\ 0 <= n)
  /\ (forall c,
        c ∈ ["one_liner"; "has_type_annotations"]%string ->
        row !! c = Some (VInt 0) \/ row !! c = Some (VInt 1))
  /\ (exists s,
        row !! "code_snippet" = Some (VStr s)
        /\ (length s <= 1003)%nat
        /\ take 1000 s = take 1000 code
        /\ ((length code <= 1000)%nat -> s = code))
  /\ (row !! "one_liner" = Some (VInt 1) ->
      exists n : Z, row !! "loc" = Some (VInt n) /\ n <= 3).
Proof.
  cbv zeta. split; [| split; [| split; [| split]]].
  - intros c Hc.
    repeat (apply elem_of_cons in Hc as [-> | Hc]);
      [.. | by apply elem_of_nil in Hc];
      unfold build_row; cbv zeta; lookup_chain; eexists;
      (split; [reflexivity |]);
      auto using count_nodes_of_type_nonneg, count_params_nonneg,
        extract_docstring_length_nonneg, Z.add_nonneg_nonneg;
      try (unfold count_loc; lia); lia.
  - unfold build_row. cbv zeta. lookup_chain. eexists.
    split; [reflexivity | apply complexity_nonneg].
  - intros c Hc.
    repeat (apply elem_of_cons in Hc as [-> | Hc]);
      [.. | by apply elem_of_nil in Hc];
      unfold build_row; cbv zeta; lookup_chain.
    + destruct (is_one_liner _); auto.
    + destruct (has_type_annotations _); auto.
  - unfold build_row. cbv zeta. lookup_chain. eexists.
    split; [reflexivity |]. apply code_snippet_length.
  - intros H. eexists. split.
    + unfold build_row. cbv zeta. lookup_chain. reflexivity.
    + revert H. unfold build_row. cbv zeta. lookup_chain.
      destruct (is_one_liner _) eqn:E; [intros _ | discriminate].
      unfold is_one_liner in E. apply andb_true_iff in E as [E _].
      by apply Z.leb_le in E.
Qed.

End RowSchema.

(** ** rank_func.py: the score follows the weighted sum *)

Section Monotone.
Import PyStr PyList Ast RankFunc.
Context `{RT : Runtime}.

Local Open Scope Q_scope.

Lemma is_documented_reads (r1 r2 : gmap string value) :
  r1 !! "has_type_annotations" = r2 !! "has_type_annotations" ->
  r1 !! "doc_len" = r2 !! "doc_len" ->
  is_documented r1 = is_documented r2.
Proof. intros H1 H2. unfold is_documented, get. by rewrite H1, H2. Qed.

Lemma is_critical_reads (r1 r2 : gmap string value) :
  r1 !! "label" = r2 !! "label" -> r1 !! "id" = r2 !! "id" ->
  is_critical r1 = is_critical r2.
Proof. intros H1 H2. unfold is_critical, get. by rewrite H1, H2. Qed.

Lemma raised_mono (a b c : Q) : a <= b -> Qmin 1 (a + c) <= Qmin 1 (b + c).
Proof. intros H. apply Q.min_le_compat_l. lra. Qed.

Lemma lowered_mono (a b c : Q) : a <= b -> Qmax 0 (a - c) <= Qmax 0 (b - c).
Proof. intros H. apply Q.max_le_compat_l. lra. Qed.

Lemma clamp_mono (a b : Q) : a <= b -> Qmax 0 (Qmin 1 a) <= Qmax 0 (Qmin 1 b).
Proof. intros H. by apply Q.max_le_compat_l, Q.min_le_compat_l. Qed.

(** With the same flags, the score is monotone in the weighted sum. *)
Lemma compute_triviality_mono (r1 r2 : gmap string value) (s1 s2 t1 t2 : Q) :
  (forall k,
     k ∈ ["one_liner"; "num_calls"; "complexity"; "label"; "id";
          "has_type_annotations"; "doc_len"]%string ->
     r1 !! k = r2 !! k) ->
  base_score r1 = Some s1 -> base_score r2 = Some s2 -> s1 <= s2 ->
  compute_triviality r1 = Some t1 -> compute_triviality r2 = Some t2 ->
  t1 <= t2.
Proof.
  intros H Hs1 Hs2 Hle. unfold compute_triviality. rewrite Hs1, Hs2. simpl.
  rewrite (is_trivial_one_liner_reads r1 r2),
    (is_critical_reads r1 r2), (is_documented_reads r1 r2)
    by (apply H; set_solver).
  destruct (is_trivial_one_liner r2) as [trivial|]; [| discriminate]. simpl.
  destruct (is_documented r2) as [documented|]; [| discriminate]. simpl.
  intros [= <-] [= <-].
  apply clamp_mono.
  destruct trivial, (is_critical r2), documented;
    repeat first [apply lowered_mono | apply raised_mono]; done.
Qed.

Lemma compute_triviality_base (r : gmap string value) (t : Q) :
  compute_triviality r = Some t -> exists s, base_score r = Some s.
Proof.
  unfold compute_triviality. destruct (base_score r); [eauto | discriminate].
Qed.

Ltac base_scores Hs1 Hs2 :=
  unfold base_score, get in Hs1, Hs2;
  rewrite ?lookup_insert_eq in Hs1, Hs2;
  rewrite ?lookup_insert_ne in Hs1, Hs2 by done;
  simpl in Hs1, Hs2;
  repeat match type of Hs1 with
         | context [num ?x] =>
             destruct (num x); simpl in Hs1, Hs2; [| discriminate]
         end;
  injection Hs1 as <-; injection Hs2 as <-;
  destruct weights_values as (-> & -> & -> & -> & -> & -> & ->).

(** X12: other keys being equal, a larger normalised loc, complexity,
    number of calls, number of parameters, docstring length or number of
    imports never gives a larger triviality, and a larger normalised keyword
    count never gives a smaller one. *)
Theorem triviality_monotone (r : gmap string value) (k : string)
    (q1 q2 t1 t2 : Q) :
  q1 <= q2 ->
  compute_triviality (<[k := VFloat q1]> r) = Some t1 ->
  compute_triviality (<[k := VFloat q2]> r) = Some t2 ->
  (k ∈ ["loc_norm"; "complexity_norm"; "num_calls_norm"; "num_params_norm";
        "doc_len_norm"; "num_imports_norm"]%string -> t2 <= t1)
  /\ (k = "keyword_matches_norm"%string -> t1 <= t2).
Proof.
  intros Hq Ht1 Ht2.
  destruct (compute_triviality_base _ _ Ht1) as [s1 Hs1].
  destruct (compute_triviality_base _ _ Ht2) as [s2 Hs2].
  split.
  - intros Hk.
    apply (compute_triviality_mono (<[k := VFloat q2]> r)
             (<[k := VFloat q1]> r) s2 s1 t2 t1); try done.
    + intros k' Hk'.
      repeat (apply elem_of_cons in Hk as [-> | Hk]);
        [.. | by apply elem_of_nil in Hk];
        repeat (apply elem_of_cons in Hk' as [-> | Hk']);
        try (by apply elem_of_nil in Hk');
        by rewrite !lookup_insert_ne.
    + repeat (apply elem_of_cons in Hk as [-> | Hk]);
        [.. | by apply elem_of_nil in Hk];
        base_scores Hs1 Hs2; lra.
  - intros ->.
    apply (compute_triviality_mono
             (<["keyword_matches_norm" := VFloat q1]> r)
             (<["keyword_matches_norm" := VFloat q2]> r) s1 s2 t1 t2);
      try done.
    + intros k' Hk'.
      repeat (apply elem_of_cons in Hk' as [-> | Hk']);
        try (by apply elem_of_nil in Hk');
        by rewrite !lookup_insert_ne.
    + base_scores Hs1 Hs2. lra.
Qed.

End Monotone.

Section MonotoneWitness.
Import PyStr PyList Ast RankFunc.

Local Open Scope Q_scope.

Lemma triviality_monotone_witness :
  match @compute_triviality no_parser (<["loc_norm" := VFloat 0.2]> ∅),
        @compute_triviality no_parser (<["loc_norm" := VFloat 0.9]> ∅) with
  | Some t1, Some t2 => t2 <= t1
  | _, _ => False
  end.
Proof.
  destruct (@compute_triviality no_parser (<["loc_norm" := VFloat 0.2]> ∅))
    as [t1|] eqn:E1; [| by vm_compute in E1].
  destruct (@compute_triviality no_parser (<["loc_norm" := VFloat 0.9]> ∅))
    as [t2|] eqn:E2; [| by vm_compute in E2].
  refine (proj1 (@triviality_monotone no_parser ∅ "loc_norm" 0.2 0.9 t1 t2
                   _ E1 E2) _).
  - lra.
  - by left.
Defined.

End MonotoneWitness.


(** ** rank_func.py: the keyword count *)

Section Keywords.
Import PyStr PyList Ast RankFunc.

Local Open Scope nat_scope.

Lemma match_literal_length (p : text) :
  forall s rest : text,
    match_literal p s = Some rest -> length s = length p + length rest.
Proof.
  induction p as [|a p IH]; intros [|b s] rest H; simpl in *; try done.
  - by injection H as <-.
  - by injection H as <-.
  - destruct (eqc_nocase a b); [| done]. by rewrite (IH s rest H).
Qed.

Lemma skip_word_length (s : text) : length (skip_word s) <= length s.
Proof.
  induction s as [|c s IH]; simpl; [done |].
  destruct (isword c); simpl; lia.
Qed.

Lemma match_literal_word_length (p s rest : text) :
  match_literal_word p s = Some rest ->
  length p + 1 + length rest <= length s.
Proof.
  unfold match_literal_word.
  destruct (match_literal p s) as [[|c s']|] eqn:E; try done.
  destruct (isword c); [| done]. intros [= <-].
  apply match_literal_length in E. simpl in E.
  pose proof (skip_word_length s'). lia.
Qed.

Lemma first_match_Forall (P : text -> Prop) (ms : list (text -> option text))
    (s rest : text) :
  Forall (fun m => forall r, m s = Some r -> P r) ms ->
  first_match ms s = Some rest -> P rest.
Proof.
  induction 1 as [|m ms Hm _ IH]; simpl; [done |].
  destruct (m s) as [r|] eqn:E; [| done].
  intros [= <-]. by apply Hm.
Qed.

(** A match of the pattern is at least three characters long. *)
Lemma match_keyword_length (s rest : text) :
  match_keyword s = Some rest -> length rest + 3 <= length s.
Proof.
  unfold match_keyword.
  apply (first_match_Forall (fun r => length r + 3 <= length s)).
  repeat (apply Forall_app; split).
  - rewrite map_fmap. apply Forall_fmap, Forall_forall. intros k Hk.
    unfold keyword_literals in Hk.
    repeat (apply elem_of_cons in Hk as [-> | Hk]);
      [.. | by apply elem_of_nil in Hk];
      intros r Hr; apply match_literal_length in Hr; simpl in Hr; lia.
  - apply Forall_forall. intros m Hm.
    repeat (apply elem_of_cons in Hm as [-> | Hm]);
      [.. | by apply elem_of_nil in Hm];
      intros r Hr; apply match_literal_word_length in Hr; simpl in Hr; lia.
  - rewrite map_fmap. apply Forall_fmap, Forall_forall. intros k Hk.
    unfold keyword_calls in Hk.
    repeat (apply elem_of_cons in Hk as [-> | Hk]);
      [.. | by apply elem_of_nil in Hk];
      intros r Hr; apply match_literal_length in Hr; simpl in Hr; lia.
Qed.

Lemma count_keywords_bound (s : text) :
  forall (skip : nat) (prev_word : bool),
    3 * count_keywords skip prev_word s <= length s - skip.
Proof.
  induction s as [|c s IH]; intros skip prev_word; [simpl; lia |].
  cbn [count_keywords]. destruct skip as [|k].
  - destruct (negb prev_word && isword c)%bool.
    + destruct (match_keyword (c :: s)) as [rest|] eqn:E.
      * apply match_keyword_length in E. simpl in E.
        specialize (IH (length (c :: s) - length rest - 1) (isword c)).
        simpl in *. lia.
      * specialize (IH 0 (isword c)). simpl. lia.
    + specialize (IH 0 (isword c)). simpl. lia.
  - specialize (IH k (isword c)). simpl. lia.
Qed.

(** X13: keyword matches do not overlap and each takes at least three
    characters: three times the keyword count is at most the length of the
    code, and a code of fewer than three characters has no match. *)
Theorem keyword_matches_bound (code : text) :
  3 * keyword_findall_count code <= length code
  /\ (length code < 3 -> keyword_findall_count code = 0).
Proof.
  pose proof (count_keywords_bound code 0 false) as H.
  unfold keyword_findall_count. split; lia.
Qed.

Lemma keyword_matches_bound_witness :
  keyword_findall_count (lit "ab") = 0.
Proof.
  apply (proj2 (keyword_matches_bound (lit "ab"))). simpl. lia.
Defined.

End Keywords.

Section KeywordCase.
Import PyStr PyList Ast RankFunc.

Local Open Scope nat_scope.











End KeywordCase.

(** ** verify.py: every way the command can end *)

Section VerifyStatus.
Import PyList Verify.

Local Open Scope nat_scope.

Lemma set_difference_elem_of (x : id) (a b : list id) :
  x ∈ set_difference a b <-> x ∈ a /\ x ∉ b.
Proof.
  unfold set_difference. rewrite list_elem_of_filter, elem_of_remove_dups. tauto.
Qed.

Lemma not_None_is_Some (l : list id) : None ∉ l <-> Forall is_Some l.
Proof.
  rewrite Forall_forall. split.
  - intros H [x|] Hx; [eauto | done].
  - intros H Hn. by destruct (H None Hn).
Qed.

(** Sorting fails only on a list that holds [None] and something else. *)
Lemma sorted_ids_cases (l : list id) :
  (sorted_ids l = None /\ None ∈ l)
  \/ (exists l', sorted_ids l = Some l' /\ l' ≡ₚ l
                 /\ (None ∈ l -> l' = [None])).
Proof.
  unfold sorted_ids.
  destruct (existsb _ l) eqn:Hex; simpl.
  - apply existsb_exists in Hex as (x & Hx & Hn).
    apply bool_decide_eq_true in Hn. subst x. apply list_elem_of_In in Hx.
    destruct (1 <? length l) eqn:Hlen; [by left | right].
    apply Nat.ltb_ge in Hlen.
    eexists. split; [reflexivity |]. split; [apply stable_sort_Permutation |].
    intros _. destruct l as [|y [|z l]]; simpl in *; [| | lia].
    + by apply elem_of_nil in Hx.
    + apply list_elem_of_singleton in Hx. by subst y.
  - right. eexists. split; [reflexivity |].
    split; [apply stable_sort_Permutation |].
    intros Hn. exfalso.
    assert (existsb (fun x : id => bool_decide (x = None)) l = true) as H.
    { apply existsb_exists. exists None. split; [by apply list_elem_of_In |].
      by apply bool_decide_eq_true. }
    congruence.
Qed.

Lemma joinable_items_iff (l : list id) :
  joinable (map Item l) = true <-> None ∉ l.
Proof.
  rewrite not_None_is_Some. split; [| apply joinable_items].
  induction l as [|[x|] l IH]; simpl; intros H; [constructor | | done].
  constructor; [eauto | by apply IH].
Qed.

Lemma joinable_report (a b c m1 m2 e1 e2 : list id) :
  joinable (snd (report a b c m1 m2 e1 e2))
  = (joinable (map Item (take 200 m1)) && joinable (map Item (take 200 m2))
     && joinable (map Item (take 50 e1)) && joinable (map Item (take 50 e2)))%bool.
Proof.
  unfold report.
  destruct m1 as [|x1 m1], m2 as [|x2 m2], e1 as [|y1 e1], e2 as [|y2 e2];
    cbn [nonempty snd]; rewrite ?joinable_app; cbn [take map];
    rewrite ?andb_true_r;
    repeat match goal with
           | |- context [joinable (?x :: ?l)] =>
               lazymatch x with
               | Item _ => fail
               | _ => change (joinable (x :: l)) with (joinable l)
               end
           end;
    change (joinable []) with true; rewrite ?andb_true_r, ?andb_true_l;
    rewrite ?andb_assoc; reflexivity.
Qed.

Lemma None_in_take (n : nat) (l : list id) :
  0 < n -> (None ∈ l -> l = [None]) -> None ∈ take n l <-> None ∈ l.
Proof.
  intros Hn Hl. split.
  - intros H. apply elem_of_take in H as (i & Hi & _).
    by eapply list_elem_of_lookup_2.
  - intros H. rewrite (Hl H). destruct n; [lia |]. by left.
Qed.

(** The status as a function of the three lists. *)
Lemma main_cases (a b c : list id) :
  main a b c
  = if bool_decide (None ∈ set_difference a b \/ None ∈ set_difference a c
                    \/ None ∈ set_difference b a \/ None ∈ set_difference c a)
    then Uncaught
    else if bool_decide (a ⊆ b /\ a ⊆ c) then Exit 0 else Exit 2.
Proof.
  unfold main.
  destruct (sorted_ids_cases (set_difference a b))
    as [[-> N1] | (m1 & -> & P1 & L1)];
    [by rewrite bool_decide_eq_true_2 by auto |].
  destruct (sorted_ids_cases (set_difference a c))
    as [[-> N2] | (m2 & -> & P2 & L2)];
    [by rewrite bool_decide_eq_true_2 by auto |].
  destruct (sorted_ids_cases (set_difference b a))
    as [[-> N3] | (e1 & -> & P3 & L3)];
    [by rewrite bool_decide_eq_true_2 by auto |].
  destruct (sorted_ids_cases (set_difference c a))
    as [[-> N4] | (e2 & -> & P4 & L4)];
    [by rewrite bool_decide_eq_true_2 by auto |].
  pose proof (report_ok a b c m1 m2 e1 e2) as Hok.
  pose proof (joinable_report a b c m1 m2 e1 e2) as Hj.
  destruct (report a b c m1 m2 e1 e2) as [ok ls]. simpl in Hok, Hj.
  assert (joinable ls = true
          <-> ~ ((None ∈ set_difference a b) \/ (None ∈ set_difference a c)
                 \/ (None ∈ set_difference b a)
                 \/ (None ∈ set_difference c a)))
    as Hjoin.
  { rewrite <- P1 in L1. rewrite <- P2 in L2.
    rewrite <- P3 in L3. rewrite <- P4 in L4.
    rewrite Hj, !andb_true_iff, !joinable_items_iff.
    rewrite (None_in_take 200 m1), (None_in_take 200 m2),
      (None_in_take 50 e1), (None_in_take 50 e2) by first [lia | done].
    rewrite P1, P2, P3, P4. tauto. }
  case_bool_decide as Hnone.
  - destruct (joinable ls); [| done]. exfalso. by apply Hjoin.
  - rewrite (proj2 Hjoin Hnone). subst ok.
    rewrite (nonempty_Permutation _ _ P1), (nonempty_Permutation _ _ P2).
    case_bool_decide as Hsub.
    + destruct Hsub as [S1 S2].
      apply set_difference_nil in S1, S2. by rewrite S1, S2.
    + destruct (set_difference a b) eqn:E1;
        destruct (set_difference a c) eqn:E2; simpl; try reflexivity.
      exfalso. apply Hsub. by rewrite <- !set_difference_nil.
Qed.

(** An id that is [None] on one side only. *)
Lemma None_differs (a b c : list id) :
  ((None ∈ set_difference a b) \/ (None ∈ set_difference a c)
   \/ (None ∈ set_difference b a) \/ (None ∈ set_difference c a))
  <-> ((None ∈ a) /\ ((None ∉ b) \/ (None ∉ c)))
      \/ ((None ∉ a) /\ ((None ∈ b) \/ (None ∈ c))).
Proof.
  rewrite !set_difference_elem_of.
  destruct (decide (None ∈ a)), (decide (None ∈ b)), (decide (None ∈ c));
    tauto.
Qed.

End VerifyStatus.

Section VerifyTotal.
Import PyList Verify.


(** X16: the verification compares sets of ids: lists with the same
    members give the same outcome, whatever the order and the number of
    occurrences.  A node dropped from the outputs goes unnoticed when
    another node has the same id. *)
Theorem verify_compares_sets (a a' b b' c c' : list id) :
  (forall x, x ∈ a <-> x ∈ a') ->
  (forall x, x ∈ b <-> x ∈ b') ->
  (forall x, x ∈ c <-> x ∈ c') ->
  main a b c = main a' b' c'.
Proof.
  intros Ha Hb Hc. rewrite !main_cases.
  assert ((a ⊆ b /\ a ⊆ c) <-> (a' ⊆ b' /\ a' ⊆ c')) as Hsub.
  { split; intros [H1 H2]; split; intros x Hx.
    - apply Hb, H1, Ha, Hx.
    - apply Hc, H2, Ha, Hx.
    - apply Hb, H1, Ha, Hx.
    - apply Hc, H2, Ha, Hx. }
  rewrite (bool_decide_ext _ _ Hsub).
  erewrite (bool_decide_ext (_ \/ _)); [reflexivity |].
  rewrite !set_difference_elem_of, !Ha, !Hb, !Hc. tauto.
Qed.

(** A node is dropped from both outputs, and the id it shares with another
    node hides it. *)
Lemma verify_compares_sets_witness :
  let a := Some (PyStr.lit "a") in
  main [a; a] [a] [a] = main [a] [a] [a].
Proof.
  cbv zeta. apply verify_compares_sets; intros x;
    rewrite ?elem_of_cons, ?elem_of_nil; tauto.
Defined.

End VerifyTotal.

Section VerifyReport.
Import PyList Verify.

Local Open Scope nat_scope.

(** X17: the report starts with the three counts and an empty line, has
    between 8 and 510 lines, and lists ids only among the first 200 missing
    from each output and the first 50 found only in each output. *)
Theorem report_bounded (in_ids out_json_ids csv_ids : list id)
    (missing_in_json missing_in_csv extra_in_json extra_in_csv : list id) :
  let report_lines :=
    snd (report in_ids out_json_ids csv_ids
                missing_in_json missing_in_csv extra_in_json extra_in_csv) in
  take 4 report_lines
  = [Count "Input nodes: " (length in_ids);
     Count "Output JSON rows: " (length out_json_ids);
     Count "Output CSV rows: " (length csv_ids);
     Text ""]
  /\ 8 <= length report_lines <= 510
  /\ forall i : id,
       Item i ∈ report_lines ->
       i ∈ take 200 missing_in_json ++ take 200 missing_in_csv
           ++ take 50 extra_in_json ++ take 50 extra_in_csv.
Proof.
  cbv zeta. unfold report.
  assert (forall (i : id) (l : list id),
            Item i ∈ map Item l -> i ∈ l) as Hitem.
  { intros i l Hi. rewrite map_fmap in Hi.
    apply list_elem_of_fmap in Hi as (x & [= ->] & Hx). done. }
  destruct (nonempty missing_in_json), (nonempty missing_in_csv),
    (nonempty extra_in_json), (nonempty extra_in_csv); cbn [snd];
    (split; [reflexivity |]);
    (split; [rewrite ?length_app, ?length_map, ?length_take; cbn [length];
             lia |]);
    intros i Hi;
    repeat (apply elem_of_app in Hi as [Hi | Hi]);
    repeat match goal with
           | H : Item _ ∈ _ :: _ |- _ =>
               apply elem_of_cons in H as [H | H]; [discriminate |]
           | H : Item _ ∈ [] |- _ => by apply elem_of_nil in H
           | H : Item _ ∈ map Item _ |- _ => apply Hitem in H
           end;
    rewrite !elem_of_app; tauto.
Qed.

(** X18: without the input file the verification ends in an exception.
    An output file that does not exist counts as an output without rows: on
    ids that are strings, the status is then 2 for every non-empty input,
    and with neither output an empty input still passes with status 0. *)
Theorem verify_without_outputs (in_ids : list id) :
  run None None None = Uncaught
  /\ (Forall is_Some in_ids ->
      run (Some in_ids) None None
      = match in_ids with [] => Exit 0 | _ => Exit 2 end
      /\ forall out : option (list id),
           in_ids <> [] ->
           Forall is_Some (load_out_ids out) ->
           run (Some in_ids) None out = Exit 2
           /\ run (Some in_ids) out None = Exit 2).
Proof.
  split; [reflexivity |]. intros Hin.
  assert (forall b c, Forall is_Some b -> Forall is_Some c ->
            main in_ids b c
            = if bool_decide (in_ids ⊆ b /\ in_ids ⊆ c)
              then Exit 0 else Exit 2) as Hmain.
  { intros b c Hb Hc. rewrite main_cases.
    rewrite bool_decide_eq_false_2; [done |].
    rewrite None_differs. apply not_None_is_Some in Hin, Hb, Hc. tauto. }
  assert (in_ids <> [] -> ~ in_ids ⊆ []) as Hnil.
  { intros Hne Hsub. destruct in_ids as [|x l]; [done |].
    by apply (elem_of_nil x), Hsub; left. }
  split.
  - unfold run, load_out_ids. simpl. rewrite Hmain by constructor.
    destruct in_ids as [|x l]; [done |].
    rewrite bool_decide_eq_false_2; [done |].
    intros [H _]. by apply Hnil in H.
  - intros out Hne Hout. unfold run. simpl (load_out_ids None).
    rewrite !Hmain by (done || constructor).
    rewrite !bool_decide_eq_false_2; [done | |]; intros [H1 H2]; by eapply Hnil.
Qed.

Lemma verify_without_outputs_witness :
  run (Some [Some (PyStr.lit "a")]) None None = Exit 2.
Proof.
  destruct (verify_without_outputs [Some (PyStr.lit "a")]) as [_ H].
  destruct H as [H _]; [| exact H].
  repeat constructor. eexists. reflexivity.
Defined.

End VerifyReport.

(** ** rank_func.py, then verify.py *)

Section RankThenVerify.
Import PyStr PyList Ast RankFunc.

Local Open Scope nat_scope.

Lemma is_Some_map_Some {A} (l : list A) : Forall is_Some (map Some l).
Proof. induction l; constructor; eauto. Qed.

(** X19: on nodes that are dictionaries with string ids, the ranked
    document holds exactly the ids of the input, each as often as in the
    input; the verification finds no id missing from it, its status being
    decided by the ranked table alone, and it is 0 when the table holds the
    ids of the document. *)
Theorem ranked_document_verifies `{RT : Runtime}
    (nodes : list obj) (ids : list text) :
  Forall2 (fun o s => exists d, o = Dict d /\ d !! "id" = Some (VStr s))
          nodes ids ->
  exists st out_ids,
    rank_functions nodes = Some st
    /\ Forall2 (fun r s => r !! "id" = Some (VStr s))
               (function_rankings st) out_ids
    /\ out_ids ≡ₚ ids
    /\ (forall csv_ids : list Verify.id,
          Forall is_Some csv_ids ->
          Verify.main (map Some ids) (map Some out_ids) csv_ids
          = if bool_decide (map Some ids ⊆ csv_ids)
            then Verify.Exit 0 else Verify.Exit 2)
    /\ Verify.main (map Some ids) (map Some out_ids) (map Some out_ids)
       = Verify.Exit 0.
Proof.
  intros Hnodes.
  destruct (function_rankings_sorted_desc nodes)
    as (st & ds & Hrun & Hds & Hrows & Hsorted).
  destruct (scored_rows_total nodes) as (ds' & Hds' & Hlen & _).
  assert (ds' = ds) as -> by congruence.
  assert (Forall2 (fun d s => d !! "id" = Some (VStr s)) ds ids) as Hids.
  { apply Forall2_same_length_lookup_2.
    - apply Forall2_length in Hnodes. congruence.
    - intros i d s Hd Hs.
      destruct (scored_row_at nodes ds i d Hds Hd)
        as (cn & o & Hcn & Ho & Hscore).
      destruct (Forall2_lookup_l _ _ _ _ _ Hnodes Ho)
        as (s' & Hs' & d0 & -> & Hid).
      assert (s' = s) as -> by congruence.
      destruct (scored_row_id_label cn i (Dict d0) d) as [-> _];
        [by eapply col_norms_columns | done |].
      unfold get. simpl. by rewrite Hid. }
  set (f := fun r : gmap string value =>
              match r !! "id" with Some (VStr s) => s | _ => [] end).
  assert (map f ds = ids) as Hmap.
  { clear -Hids. induction Hids as [|d s ds ids Hd _ IH]; simpl; [done |].
    rewrite IH. unfold f. by rewrite Hd. }
  assert (function_rankings st ≡ₚ ds) as Hperm.
  { rewrite Hsorted. apply stable_sort_Permutation. }
  assert (map f (function_rankings st) ≡ₚ ids) as Hout.
  { rewrite <- Hmap. by apply Permutation_map. }
  exists st, (map f (function_rankings st)).
  split; [done |]. split; [| split; [done |]].
  { assert (Forall (fun r => exists s, r !! "id" = Some (VStr s))
                   (function_rankings st)) as Hall.
    { rewrite Hperm. eapply Forall2_Forall_l; [exact Hids |].
      apply Forall_forall. eauto. }
    clear -Hall. induction Hall as [|r l [s Hs] _ IH]; simpl; constructor;
      [| done].
    unfold f. by rewrite Hs. }
  assert (forall c : list Verify.id, Forall is_Some c ->
            Verify.main (map Some ids) (map Some (map f (function_rankings st))) c
            = if bool_decide (map Some ids ⊆ c)
              then Verify.Exit 0 else Verify.Exit 2) as Hmain.
  { intros c Hc. rewrite main_cases.
    rewrite bool_decide_eq_false_2.
    - erewrite (bool_decide_ext (_ /\ _) (map Some ids ⊆ c)); [reflexivity |].
      split; [by intros [_ ?] |].
      intros H. split; [| done]. intros x Hx.
      rewrite map_fmap in Hx |- *. by rewrite Hout.
    - rewrite None_differs.
      pose proof (is_Some_map_Some ids) as H1.
      pose proof (is_Some_map_Some (map f (function_rankings st))) as H2.
      apply not_None_is_Some in H1, H2, Hc. tauto. }
  split; [exact Hmain |].
  rewrite Hmain by apply is_Some_map_Some.
  rewrite bool_decide_eq_true_2; [done |]. intros x Hx.
  rewrite map_fmap in Hx |- *. by rewrite Hout.
Qed.

Lemma ranked_document_verifies_witness :
  exists st out_ids,
    @rank_functions no_parser
      [Dict {[ "id" := VStr (lit "a") ]}; Dict {[ "id" := VStr (lit "b") ]}]
    = Some st
    /\ Verify.main [Some (lit "a"); Some (lit "b")] (map Some out_ids)
                   (map Some out_ids)
       = Verify.Exit 0.
Proof.
  destruct (@ranked_document_verifies no_parser
              [Dict {[ "id" := VStr (lit "a") ]};
               Dict {[ "id" := VStr (lit "b") ]}]
              [lit "a"; lit "b"])
    as (st & out_ids & Hrun & _ & _ & _ & Hmain).
  - repeat constructor; eexists; (split; [reflexivity |]); reflexivity.
  - exists st, out_ids. split; [exact Hrun | exact Hmain].
Defined.

End RankThenVerify.

(** ** ml.py: the sampler on any counts *)

Section SamplerBounds.
Import PyStr PyList ML.

Local Open Scope nat_scope.

Lemma string_ids_ids (l : list (gmap string cell)) :
  string_ids l <-> Forall (fun i => exists s, i = Str s) (map id_of l).
Proof. unfold string_ids. by rewrite map_fmap, Forall_fmap. Qed.

Lemma by_importance_sorted_strings (df : DataFrame) :
  string_ids (records df) -> string_ids (by_importance_sorted df).
Proof. unfold string_ids. by rewrite by_importance_sorted_Permutation. Qed.

Lemma by_distance_sorted_strings (df : DataFrame) :
  string_ids (records df) -> string_ids (by_distance_sorted df).
Proof. rewrite !string_ids_ids. by rewrite by_distance_sorted_ids. Qed.

(** The bands are parts of the frame sorted one way or the other. *)
Lemma bands_string_ids (df : DataFrame) (n_top n_bottom n_mid : Z) :
  string_ids (records df) ->
  string_ids (head n_top (by_importance_sorted df)
              ++ slice_to n_mid (by_distance_sorted df)
              ++ tail n_bottom (by_importance_sorted df)).
Proof.
  intros Hs. repeat (apply Forall_app; split).
  - eapply sublist_string_ids;
      [apply head_sublist | by apply by_importance_sorted_strings].
  - eapply sublist_string_ids;
      [apply slice_to_sublist | by apply by_distance_sorted_strings].
  - eapply sublist_string_ids;
      [apply tail_sublist | by apply by_importance_sorted_strings].
Qed.

Lemma bands_ids (df : DataFrame) (n_top n_bottom n_mid : Z)
    (r : gmap string cell) :
  r ∈ head n_top (by_importance_sorted df)
      ++ slice_to n_mid (by_distance_sorted df)
      ++ tail n_bottom (by_importance_sorted df) ->
  id_of r ∈ map id_of (records df).
Proof.
  intros Hr. rewrite !elem_of_app in Hr.
  assert (forall l : list (gmap string cell),
            r ∈ l -> id_of r ∈ map id_of l) as Hmap.
  { intros l Hl. rewrite map_fmap. by apply list_elem_of_fmap_2. }
  destruct Hr as [Hr | [Hr | Hr]].
  - rewrite <- (Permutation_map id_of (by_importance_sorted_Permutation df)).
    apply Hmap. eapply elem_of_sublist; [exact Hr | apply head_sublist].
  - rewrite <- (by_distance_sorted_ids df).
    apply Hmap. eapply elem_of_sublist; [exact Hr | apply slice_to_sublist].
  - rewrite <- (Permutation_map id_of (by_importance_sorted_Permutation df)).
    apply Hmap. eapply elem_of_sublist; [exact Hr | apply tail_sublist].
Qed.

Lemma slice_to_length {A} (n : Z) (l : list A) :
  (0 <= n)%Z -> length (slice_to n l) <= Z.to_nat n.
Proof.
  intros Hn. unfold slice_to.
  destruct (0 <=? n)%Z eqn:E; [| apply Z.leb_gt in E; lia].
  rewrite length_take. lia.
Qed.

Lemma tail_length {A} (n : Z) (l : list A) :
  (0 <= n)%Z -> length (tail n l) <= Z.to_nat n.
Proof.
  intros Hn. unfold tail, slice_from.
  destruct (n =? 0)%Z eqn:E; [simpl; lia |]. apply Z.eqb_neq in E.
  destruct (0 <=? - n)%Z eqn:E'; [apply Z.leb_le in E'; lia |].
  rewrite length_drop. lia.
Qed.

(** X20: with any non-negative counts, on a frame with string ids and no
    text in the importance column, the sampler returns a table in which no id
    occurs twice, all ids are ids of the frame, and the number of rows is at
    most the sum of the three counts and at most the number of rows of the
    frame.  When the ids of the frame are distinct, the table holds the top
    band, then the rows of the mid band not in the top band, then the rows of
    the bottom band in neither. *)
Theorem sampler_bounds (df : DataFrame) (n_top n_bottom n_mid : Z) :
  "id"%string ∈ columns df ->
  "importance"%string ∈ columns df ->
  Forall (fun r => forall s, cell_at r "importance" <> Str s) (records df) ->
  string_ids (records df) ->
  (0 <= n_top)%Z -> (0 <= n_bottom)%Z -> (0 <= n_mid)%Z ->
  exists b out,
    select_bands df n_top n_bottom n_mid = Ok b
    /\ prepare_label_candidates df n_top n_bottom n_mid = Ok out
    /\ NoDup (candidate_ids out)
    /\ candidate_ids out ⊆ map id_of (records df)
    /\ length (candidate_ids out) <= Z.to_nat (n_top + n_mid + n_bottom)
    /\ length (candidate_ids out) <= length (records df)
    /\ (NoDup (map id_of (records df)) ->
        candidate_ids out
        = map id_of
            (top b
             ++ filter (fun r => id_of r ∉ map id_of (top b)) (mid b)
             ++ filter (fun r => id_of r ∉ map id_of (top b ++ mid b))
                       (bottom b))).
Proof.
  intros Hid Himp Hnum Hsid Ht Hb Hm.
  destruct (prepare_label_candidates_spec df n_top n_bottom n_mid Hid Himp Hnum)
    as (b & out & Hbands & Htop & Hmid & Hbot & Hout & Hids & _).
  exists b, out. do 2 (split; [done |]).
  pose proof (bands_string_ids df n_top n_bottom n_mid Hsid) as Hsc.
  rewrite <- Htop, <- Hmid, <- Hbot in Hsc.
  assert (NoDup (candidate_ids out)) as Hnd.
  { unfold candidate_ids. rewrite Hids. by apply drop_duplicates_id_NoDup. }
  assert (candidate_ids out ⊆ map id_of (records df)) as Hsub.
  { intros i Hi. unfold candidate_ids in Hi. rewrite Hids, map_fmap in Hi.
    apply list_elem_of_fmap in Hi as (r & -> & Hr).
    apply (bands_ids df n_top n_bottom n_mid).
    rewrite <- Htop, <- Hmid, <- Hbot.
    eapply elem_of_sublist; [exact Hr | apply drop_duplicates_id_sublist]. }
  split; [done |]. split; [done |]. split; [| split].
  - unfold candidate_ids. rewrite Hids, length_map.
    etransitivity; [apply drop_duplicates_id_length |].
    rewrite !length_app, Htop, Hmid, Hbot.
    pose proof (slice_to_length n_top (by_importance_sorted df) Ht).
    pose proof (slice_to_length n_mid (by_distance_sorted df) Hm).
    pose proof (tail_length n_bottom (by_importance_sorted df) Hb).
    unfold head. lia.
  - rewrite <- (length_map id_of (records df)).
    by apply submseteq_length, NoDup_submseteq.
  - intros Hdistinct. unfold candidate_ids. rewrite Hids. f_equal.
    destruct (by_importance_sorted_ids df Hsid Hdistinct) as [HsS HnS].
    destruct (by_distance_sorted_string_ids df Hsid Hdistinct) as [HsD HnD].
    apply Forall_app in Hsc as [Hst Hsc]. apply Forall_app in Hsc as [Hsm Hsb].
    apply bands_precedence; try done.
    + rewrite Htop. eapply sublist_distinct_ids; [apply head_sublist | done].
    + rewrite Hmid. eapply sublist_distinct_ids; [apply slice_to_sublist | done].
    + rewrite Hbot. eapply sublist_distinct_ids; [apply tail_sublist | done].
Qed.

Lemma sampler_bounds_witness :
  let row (i : string) (q : Q) : gmap string cell :=
    {[ "id" := Str (lit i); "importance" := Num q ]} in
  let df :=
    {| columns := ["id"; "importance"]%string;
       records := [row "a" 0.5; row "b" 0.1; row "a" 0.9; row "d" 0.3]%Q |} in
  exists out,
    prepare_label_candidates df 1 1 1 = Ok out
    /\ length (candidate_ids out) <= 3.
Proof.
  cbv zeta.
  match goal with |- exists out, prepare_label_candidates ?df _ _ _ = _ /\ _ =>
    destruct (sampler_bounds df 1 1 1)
      as (b & out & _ & Hout & _ & _ & Hlen & _)
  end.
  - apply (bool_decide_unpack _). vm_compute. exact I.
  - apply (bool_decide_unpack _). vm_compute. exact I.
  - repeat constructor; intros s; vm_compute; discriminate.
  - repeat constructor; eexists; vm_compute; reflexivity.
  - lia.
  - lia.
  - lia.
  - exists out. split; [exact Hout | exact Hlen].
Defined.

End SamplerBounds.

Section SmallRanking.
Import PyStr PyList ML.

Local Open Scope nat_scope.

Lemma top_bottom_all {A} (l : list A) (x : A) :
  length l <= 100 -> x ∈ l -> x ∈ take 50 l ++ drop (length l - 50) l.
Proof.
  intros Hlen Hx. apply list_elem_of_lookup in Hx as [i Hi].
  pose proof (lookup_lt_Some _ _ _ Hi) as Hlt.
  apply elem_of_app.
  destruct (decide (i < 50)) as [Hi50|Hi50].
  - left. apply (list_elem_of_lookup_2 _ i). by rewrite lookup_take_lt.
  - right. apply (list_elem_of_lookup_2 _ (i - (length l - 50))).
    rewrite lookup_drop. rewrite <- Hi. f_equal. lia.
Qed.

(** X21: on a ranking of at most 100 rows, preparing the labels proposes
    every id of the ranking, each once, whatever the candidate count given on
    the command line. *)
Theorem small_ranking_all_proposed `{CL : Classifier}
    (df : DataFrame) (labels : option DataFrame) (train_flag : bool) (n : Z) :
  "id"%string ∈ columns df ->
  "importance"%string ∈ columns df ->
  Forall (fun r => forall s, cell_at r "importance" <> Str s) (records df) ->
  string_ids (records df) ->
  length (records df) <= 100 ->
  exists out,
    main {| prepare_labels := true; train := train_flag; candidates := n |}
         (Some df) labels
    = Ok (WroteCandidates out)
    /\ NoDup (candidate_ids out)
    /\ (forall i, i ∈ candidate_ids out <-> i ∈ map id_of (records df))
    /\ (NoDup (map id_of (records df)) ->
        candidate_ids out ≡ₚ map id_of (records df)).
Proof.
  intros Hid Himp Hnum Hsid Hlen.
  destruct (prepare_label_candidates_spec df 50 50 (n - 100) Hid Himp Hnum)
    as (b & out & Hbands & Htop & Hmid & Hbot & Hout & Hids & _).
  exists out. split; [by unfold main; simpl; rewrite Hout |].
  pose proof (bands_string_ids df 50 50 (n - 100) Hsid) as Hsc.
  rewrite <- Htop, <- Hmid, <- Hbot in Hsc.
  assert (NoDup (candidate_ids out)) as Hnd.
  { unfold candidate_ids. rewrite Hids. by apply drop_duplicates_id_NoDup. }
  assert (forall i, i ∈ candidate_ids out <-> i ∈ map id_of (records df))
    as Hiff.
  { intros i. split.
    - intros Hi. unfold candidate_ids in Hi. rewrite Hids, map_fmap in Hi.
      apply list_elem_of_fmap in Hi as (r & -> & Hr).
      apply (bands_ids df 50 50 (n - 100)).
      rewrite <- Htop, <- Hmid, <- Hbot.
      eapply elem_of_sublist; [exact Hr | apply drop_duplicates_id_sublist].
    - intros Hi.
      rewrite <- (Permutation_map id_of (by_importance_sorted_Permutation df))
        in Hi.
      rewrite map_fmap in Hi. apply list_elem_of_fmap in Hi as (r & -> & Hr).
      unfold candidate_ids. rewrite Hids.
      apply drop_duplicates_id_covers; [done |].
      assert (length (by_importance_sorted df) <= 100) as Hl.
      { by rewrite by_importance_sorted_Permutation. }
      apply (top_bottom_all _ _ Hl) in Hr.
      assert (bottom b = drop (length (by_importance_sorted df) - 50)
                              (by_importance_sorted df)) as Hbottom.
      { rewrite Hbot. apply (tail_positive 50). lia. }
      assert (top b = take 50 (by_importance_sorted df)) as Htop' by exact Htop.
      rewrite <- Htop', <- Hbottom in Hr.
      rewrite elem_of_app in Hr. rewrite !elem_of_app. tauto. }
  do 2 (split; [done |]).
  intros Hdistinct. by apply NoDup_Permutation.
Qed.

Lemma small_ranking_all_proposed_witness :
  let row (i : string) (q : Q) : gmap string cell :=
    {[ "id" := Str (lit i); "importance" := Num q ]} in
  let df :=
    {| columns := ["id"; "importance"]%string;
       records := [row "a" 0.5; row "b" 0.1; row "c" 0.9]%Q |} in
  let CL : Classifier :=
    {| model := unit;
       cross_validate := fun _ _ => Ok tt;
       fit := fun _ _ => Ok tt;
       predict_proba_core := fun _ _ => Ok 0%Q |} in
  exists out,
    main {| prepare_labels := true; train := false; candidates := 150 |}
         (Some df) None
    = Ok (WroteCandidates out)
    /\ Str (lit "b") ∈ candidate_ids out.
Proof.
  cbv zeta.
  match goal with
  | |- exists out, @main ?cl {| candidates := ?n |} (Some ?df) ?lab = _ /\ _ =>
      destruct (@small_ranking_all_proposed cl df lab false n)
        as (out & Hmain & _ & Hiff & _)
  end.
  - apply (bool_decide_unpack _). vm_compute. exact I.
  - apply (bool_decide_unpack _). vm_compute. exact I.
  - repeat constructor; intros s; vm_compute; discriminate.
  - repeat constructor; eexists; vm_compute; reflexivity.
  - simpl. lia.
  - exists out. split; [exact Hmain |]. apply Hiff.
    apply (bool_decide_unpack _). vm_compute. exact I.
Defined.

End SmallRanking.

(** ** ml.py: the columns of the table of candidates *)

Section CandidateColumns.
Import PyStr PyList ML.

Local Open Scope nat_scope.

Lemma Ok_inj {A} (a b : A) : Ok a = Ok b -> a = b.
Proof. by intros [= ->]. Qed.

Lemma ensure_column_has (c : string) (df : DataFrame) :
  c ∈ columns (ensure_column c df).
Proof.
  unfold ensure_column. case_bool_decide as Hc; [done |].
  unfold assign. simpl. rewrite bool_decide_eq_false_2 by done.
  apply elem_of_app. right. by left.
Qed.

Lemma ensure_columns_has (cs : list string) (c : string) :
  forall df : DataFrame,
    c ∈ cs -> c ∈ columns (fold_left (fun df c => ensure_column c df) cs df).
Proof.
  induction cs as [|x cs IH]; intros df Hc; simpl.
  - by apply elem_of_nil in Hc.
  - apply elem_of_cons in Hc as [-> | Hc]; [| by apply IH].
    apply ensure_columns_columns, ensure_column_has.
Qed.

Lemma ensure_column_other (c k : string) (df : DataFrame) :
  k <> c -> k ∉ columns df -> k ∉ columns (ensure_column c df).
Proof.
  intros Hne Hk. unfold ensure_column. case_bool_decide as Hc; [done |].
  unfold assign. simpl. rewrite bool_decide_eq_false_2 by done.
  apply not_elem_of_app. split; [done |].
  intros H. apply list_elem_of_singleton in H. done.
Qed.

Lemma ensure_columns_other (cs : list string) (k : string) :
  forall df : DataFrame,
    k ∉ cs -> k ∉ columns df ->
    k ∉ columns (fold_left (fun df c => ensure_column c df) cs df).
Proof.
  induction cs as [|x cs IH]; intros df Hcs Hk; simpl; [done |].
  apply not_elem_of_cons in Hcs as [Hne Hcs].
  apply IH; [done |]. by apply ensure_column_other.
Qed.

Lemma ensure_column_blank (c : string) (df : DataFrame) :
  c ∉ columns df ->
  Forall (fun r => cell_at r c = Str []) (records (ensure_column c df)).
Proof.
  intros Hc. unfold ensure_column. rewrite bool_decide_eq_false_2 by done.
  unfold assign. simpl.
  induction (records df) as [|r rs IH]; simpl; constructor; [| done].
  unfold cell_at. by rewrite lookup_insert_eq.
Qed.

(** X22: the table of candidates keeps the columns of the ranking and
    their cells, and has the twelve labelling columns, [dist_med] and
    [human_label]; a ranking without a [human_label] column gets an empty
    text in every row of it. *)
Theorem candidates_columns (df : DataFrame) (n_top n_bottom n_mid : Z)
    (out : DataFrame) :
  prepare_label_candidates df n_top n_bottom n_mid = Ok out ->
  (forall c, c ∈ columns df -> c ∈ columns out)
  /\ (forall c, c ∈ label_cols -> c ∈ columns out)
  /\ "human_label"%string ∈ columns out
  /\ "dist_med"%string ∈ columns out
  /\ ("human_label"%string ∉ columns df ->
      Forall (fun r => cell_at r "human_label" = Str []) (records out))
  /\ exists b,
       select_bands df n_top n_bottom n_mid = Ok b
       /\ forall k, k ∈ columns df ->
            map (fun r => cell_at r k) (records out)
            = map (fun r => cell_at r k)
                  (drop_duplicates_id [] (top b ++ mid b ++ bottom b)).
Proof.
  unfold prepare_label_candidates.
  destruct (select_bands df n_top n_bottom n_mid) as [b|e]; [| discriminate].
  cbn [mbind outcome_bind].
  set (concat_cols := if bool_decide ("dist_med"%string ∈ columns df)
                      then columns df else columns df ++ ["dist_med"%string]).
  assert (forall c, c ∈ columns df -> c ∈ concat_cols) as Hcols.
  { intros c Hc. unfold concat_cols. destruct (bool_decide _); [done |].
    apply elem_of_app. by left. }
  assert ("dist_med"%string ∈ concat_cols) as Hdist.
  { unfold concat_cols. case_bool_decide; [done |].
    apply elem_of_app. right. by left. }
  unfold require_column. cbn [columns].
  destruct (bool_decide ("id"%string ∈ concat_cols)); [| discriminate].
  cbn [mbind outcome_bind records]. intros Hout.
  apply Ok_inj in Hout. subst out.
  set (cands := {| columns := concat_cols;
                   records := drop_duplicates_id [] (top b ++ mid b ++ bottom b) |}).
  set (ensured := fold_left (fun df c => ensure_column c df) label_cols cands).
  assert (forall c, c ∈ concat_cols ->
            c ∈ columns (ensure_column "human_label" ensured)) as Hkeep.
  { intros c Hc. apply ensure_column_keeps.
    by apply ensure_columns_columns. }
  split; [intros c Hc; by apply Hkeep, Hcols |].
  split.
  { intros c Hc. apply ensure_column_keeps. by apply ensure_columns_has. }
  split; [apply ensure_column_has |].
  split; [by apply Hkeep |].
  split.
  - intros Hno. apply ensure_column_blank, ensure_columns_other.
    + apply (bool_decide_unpack _). vm_compute. exact I.
    + unfold cands. simpl. unfold concat_cols.
      destruct (bool_decide _); [done |].
      apply not_elem_of_app. split; [done |].
      intros H. apply list_elem_of_singleton in H. discriminate.
  - exists b. split; [done |]. intros k Hk.
    by apply (ensure_all_keep k cands), Hcols.
Qed.

Lemma candidates_columns_witness :
  let df :=
    {| columns := ["id"; "importance"]%string;
       records := [ {[ "id" := Str (lit "a"); "importance" := Num 0.5%Q ]} ] |} in
  exists out,
    prepare_label_candidates df 1 1 1 = Ok out
    /\ "human_label"%string ∈ columns out.
Proof.
  cbv zeta.
  match goal with |- exists out, prepare_label_candidates ?df _ _ _ = _ /\ _ =>
    destruct (prepare_label_candidates_spec df 1 1 1)
      as (b & out & _ & _ & _ & _ & Hout & _)
  end.
  - apply (bool_decide_unpack _). vm_compute. exact I.
  - apply (bool_decide_unpack _). vm_compute. exact I.
  - repeat constructor; intros s; vm_compute; discriminate.
  - exists out. split; [exact Hout |].
    destruct (candidates_columns _ 1 1 1 out Hout) as (_ & _ & H & _).
    exact H.
Defined.

(** X23: the sampler raises KeyError for [importance] on a ranking
    without that column, before it looks at the ids, and KeyError for [id]
    when only the id column is missing; from the command line the first
    error escapes. *)
Theorem candidates_missing_columns (df : DataFrame) (n_top n_bottom n_mid : Z) :
  ("importance"%string ∉ columns df ->
   prepare_label_candidates df n_top n_bottom n_mid
   = Raise (KeyError "importance"))
  /\ ("importance"%string ∈ columns df ->
      Forall (fun r => forall s, cell_at r "importance" <> Str s) (records df) ->
      "id"%string ∉ columns df ->
      prepare_label_candidates df n_top n_bottom n_mid = Raise (KeyError "id"))
  /\ forall CL : Classifier,
       forall (labels : option DataFrame) (train_flag : bool) (n : Z),
         "importance"%string ∉ columns df ->
         main {| prepare_labels := true; train := train_flag; candidates := n |}
              (Some df) labels
         = Raise (KeyError "importance").
Proof.
  assert (forall a b c,
            "importance"%string ∉ columns df ->
            prepare_label_candidates df a b c = Raise (KeyError "importance"))
    as Himp.
  { intros a b c H.
    unfold prepare_label_candidates, select_bands, float_column, require_column.
    rewrite (bool_decide_eq_false_2 ("importance"%string ∈ columns df)) by done.
    reflexivity. }
  split; [apply Himp |]. split.
  - intros Hcol Hnum Hid. unfold prepare_label_candidates.
    rewrite select_bands_spec by done. cbn [mbind outcome_bind].
    unfold require_column. cbn [columns].
    set (concat_cols := if bool_decide ("dist_med"%string ∈ columns df)
                        then columns df else columns df ++ ["dist_med"%string]).
    rewrite (bool_decide_eq_false_2 ("id"%string ∈ concat_cols)); [done |].
    unfold concat_cols. destruct (bool_decide _); [done |].
    apply not_elem_of_app. split; [done |].
    intros H. apply list_elem_of_singleton in H. discriminate.
  - intros CL labels train_flag n H. unfold main. simpl.
    by rewrite Himp.
Qed.

Lemma candidates_missing_columns_witness :
  prepare_label_candidates
    {| columns := ["id"]%string; records := [ {[ "id" := Str (lit "a") ]} ] |}
    50 50 50
  = Raise (KeyError "importance").
Proof.
  apply (proj1 (candidates_missing_columns _ 50 50 50)).
  apply (bool_decide_unpack _). vm_compute. exact I.
Defined.

End CandidateColumns.

(** ** ml.py: the feature matrix *)

Section FeatureMatrix.
Import PyStr PyList ML.

Local Open Scope nat_scope.

Lemma traverse_Ok_iff {A B} (f : A -> outcome B) (l : list A) (ys : list B) :
  traverse f l = Ok ys <-> Forall2 (fun x y => f x = Ok y) l ys.
Proof.
  revert ys. induction l as [|x l IH]; intros ys; simpl.
  - split; [intros [= <-]; constructor | by inversion 1].
  - destruct (f x) as [y|e] eqn:Hx; cbn [mbind outcome_bind].
    + destruct (traverse f l) as [ys'|e] eqn:Hl; cbn [mbind outcome_bind].
      * split.
        -- intros H. apply Ok_inj in H. subst ys.
           constructor; [done | by apply IH].
        -- inversion 1 as [|? y' ? ys'' Hy Hys]; subst.
           apply IH in Hys. congruence.
      * split; [done |].
        inversion 1 as [|? y' ? ys'' Hy Hys]; subst.
        apply IH in Hys. done.
    + split; [done |]. inversion 1; congruence.
Qed.





End FeatureMatrix.

(** ** ml.py: the rows of the predictions *)

Section Predictions.
Import PyStr PyList ML.

Local Open Scope nat_scope.

Lemma assign_columns (c : string) (vals vals' : list cell) (df : DataFrame) :
  columns (assign c vals df) = columns (assign c vals' df).
Proof. reflexivity. Qed.

Lemma assign_columns_keep (c k : string) (vals : list cell) (df : DataFrame) :
  k ∈ columns df -> k ∈ columns (assign c vals df).
Proof.
  intros Hk. unfold assign. simpl. destruct (bool_decide _); [done |].
  apply elem_of_app. by left.
Qed.

Lemma assign_columns_has (c : string) (vals : list cell) (df : DataFrame) :
  c ∈ columns (assign c vals df).
Proof.
  unfold assign. simpl. case_bool_decide; [done |].
  apply elem_of_app. right. by left.
Qed.

Lemma combine_columns (df out : DataFrame) (prob_core : list Q) :
  combine df prob_core = Ok out ->
  columns out
  = columns (assign "combined_score" [] (assign "model_prob_core" [] df)).
Proof.
  unfold combine.
  match goal with
  | |- context [mbind _ ?m] => destruct m as [scores|e]
  end; cbn [mbind outcome_bind]; [| discriminate].
  intros H. apply Ok_inj in H. subst out. reflexivity.
Qed.

Lemma combined_row_original (b : bool) (r : gmap string cell) (p : Q) :
  delete "combined_score" (delete "model_prob_core" (snd (combined_row b r p)))
  = delete "combined_score" (delete "model_prob_core" r).
Proof.
  unfold combined_row. cbn [snd].
  rewrite delete_insert_ne by done.
  by rewrite delete_insert_eq, delete_insert_eq.
Qed.

(** X25: the frame of predictions keeps the columns of the ranking and
    adds [model_prob_core] and [combined_score]; without these two, its rows
    are the rows of the ranking in another order, so the cells of every other
    column are the same. *)
Theorem predictions_keep_rows (df : DataFrame) (prob_core : list Q) :
  length prob_core = length (records df) ->
  Forall (fun r => forall s, cell_at r "importance" <> Str s) (records df) ->
  exists out,
    combine df prob_core = Ok out
    /\ (forall c, c ∈ columns df -> c ∈ columns out)
    /\ "model_prob_core"%string ∈ columns out
    /\ "combined_score"%string ∈ columns out
    /\ map (fun r => delete "combined_score" (delete "model_prob_core" r))
           (records out)
       ≡ₚ map (fun r => delete "combined_score" (delete "model_prob_core" r))
              (records df)
    /\ forall k, k <> "model_prob_core"%string -> k <> "combined_score"%string ->
         map (fun r => cell_at r k) (records out)
         ≡ₚ map (fun r => cell_at r k) (records df).
Proof.
  intros Hlen Hnum.
  destruct (combine_rowwise df prob_core Hlen Hnum) as [cols Hc].
  eexists. split; [exact Hc |].
  pose proof (combine_columns _ _ _ Hc) as Hcols. cbn [columns] in Hcols.
  rewrite Hcols. cbn [records].
  split; [intros c Hin; by do 2 apply assign_columns_keep |].
  split; [apply assign_columns_keep, assign_columns_has |].
  split; [apply assign_columns_has |].
  set (b := bool_decide ("importance" ∈ columns df)).
  assert (forall (g : gmap string cell -> gmap string cell)
                 (h : gmap string cell -> gmap string cell),
            (forall r p, h (snd (combined_row b r p)) = g r) ->
            map h (map snd (zip_with (combined_row b) (records df) prob_core))
            = map g (records df)) as Hmap.
  { intros g h Hgh. clear -Hlen Hgh. revert prob_core Hlen.
    induction (records df) as [|r rs IH]; intros [|p ps] Hlen; simpl in *;
      try done.
    rewrite IH by lia. by rewrite Hgh. }
  assert (forall {B} (h : gmap string cell -> B)
                 (g : gmap string cell -> B),
            (forall r p, h (snd (combined_row b r p)) = g r) ->
            map h (map snd (sort_keyed desc_le
                              (zip_with (combined_row b) (records df) prob_core)))
            ≡ₚ map g (records df)) as Hperm.
  { intros B h g Hgh.
    transitivity (map h (map snd (zip_with (combined_row b) (records df)
                                           prob_core))).
    - do 2 apply Permutation_map. apply stable_sort_Permutation.
    - clear -Hlen Hgh. revert prob_core Hlen.
      induction (records df) as [|r rs IH]; intros [|p ps] Hlen; simpl in *;
        try done.
      rewrite Hgh. constructor. apply IH. lia. }
  split.
  - apply Hperm. intros r p. apply combined_row_original.
  - intros k H1 H2. apply Hperm. intros r p.
    unfold combined_row, cell_at. cbn [snd]. by rewrite !lookup_insert_ne.
Qed.

Lemma predictions_keep_rows_witness :
  let df := {| columns := ["id"; "importance"]%string;
               records := [ {[ "id" := Str (lit "a"); "importance" := Num 0.2 ]};
                            {[ "id" := Str (lit "b"); "importance" := Num 0.9 ]} ] |} in
  exists out, combine df [0.5%Q; 0.5%Q] = Ok out
              /\ "combined_score"%string ∈ columns out.
Proof.
  cbv zeta.
  match goal with |- exists out, combine ?df ?ps = _ /\ _ =>
    destruct (predictions_keep_rows df ps) as (out & Hout & _ & _ & Hcol & _)
  end.
  - reflexivity.
  - repeat constructor; intros s; vm_compute; discriminate.
  - exists out. split; [exact Hout | exact Hcol].
Defined.

End Predictions.

(** ** label.py *)

Section GuessLabel.
Import PyStr PyList ML Label.
Context `{BI : Builtins}.

Local Open Scope nat_scope.

(** The numbers [guess_label] reads from a row. *)
Lemma guess_label_Ok (cols : list string) (row : gmap string cell) (l : text) :
  guess_label cols row = Ok l ->
  exists loc comp kw one_liner,
    py_float (row_get cols row "loc" (Num 0)) = Ok loc
    /\ py_float (row_get cols row "complexity" (Num 0)) = Ok comp
    /\ py_float (row_get cols row "keyword_matches" (Num 0)) = Ok kw
    /\ py_int (row_get cols row "one_liner" (Num 0)) = Ok one_liner.
Proof.
  unfold guess_label.
  destruct (py_float (row_get cols row "loc" _)) as [loc|]; [| done].
  destruct (py_float (row_get cols row "complexity" _)) as [comp|]; [| done].
  destruct (py_float (row_get cols row "keyword_matches" _)) as [kw|]; [| done].
  destruct (py_int (row_get cols row "one_liner" _)) as [one|]; [| done].
  intros _. by exists loc, comp, kw, one.
Qed.

Lemma guess_label_vocabulary (cols : list string) (row : gmap string cell)
    (l : text) :
  guess_label cols row = Ok l -> l = utility \/ l = core \/ l = uncertain.
Proof.
  unfold guess_label.
  destruct (py_float (row_get cols row "loc" _)) as [loc|]; [| done].
  destruct (py_float (row_get cols row "complexity" _)) as [comp|]; [| done].
  destruct (py_float (row_get cols row "keyword_matches" _)) as [kw|]; [| done].
  destruct (py_int (row_get cols row "one_liner" _)) as [one|]; [| done].
  cbn [mbind outcome_bind].
  repeat match goal with
         | |- context [if ?b then _ else _] => destruct b
         end;
    intros H; apply Ok_inj in H; subst l; auto.
Qed.




End GuessLabel.

Section GuessLabelFacts.
Import PyStr PyList ML Label.

Local Open Scope nat_scope.

(** X26: a label is utility, core or empty.  The utility tests come
    first: a row of at most 3 lines, a row flagged as a one-liner, a row with
    2 or more keyword matches and a row whose name holds a utility keyword
    are utility whatever else they hold; and on a table without a [loc]
    column every row is utility. *)
Theorem guess_label_utility_first `{BI : Builtins}
    (cols : list string) (row : gmap string cell) (l : text) :
  guess_label cols row = Ok l ->
  (l = utility \/ l = core \/ l = uncertain)
  /\ (forall loc, py_float (row_get cols row "loc" (Num 0)) = Ok loc ->
                  float_le loc 3 = true -> l = utility)
  /\ (forall n, py_int (row_get cols row "one_liner" (Num 0)) = Ok n ->
                n <> 0%Z -> l = utility)
  /\ (forall kw, py_float (row_get cols row "keyword_matches" (Num 0)) = Ok kw ->
                 float_ge kw 2 = true -> l = utility)
  /\ (RankFunc.any_in util_keywords
        (lower (py_str (row_get cols row "label" (Str [])))) = true ->
      l = utility)
  /\ ("loc"%string ∉ cols -> l = utility).
Proof.
  intros H. split; [by eapply guess_label_vocabulary |].
  destruct (guess_label_Ok _ _ _ H) as (loc & comp & kw & one & E1 & E2 & E3 & E4).
  assert ((RankFunc.any_in util_keywords
             (lower (py_str (row_get cols row "label" (Str []))))
           || negb (one =? 0)%Z || float_le loc 3 || float_ge kw 2)%bool = true
          -> l = utility) as Hfirst.
  { intros Hc. unfold guess_label in H. rewrite E1, E2, E3, E4 in H.
    cbn [mbind outcome_bind] in H. rewrite Hc in H. by apply Ok_inj in H. }
  split; [| split; [| split; [| split]]].
  - intros loc' Hloc Hle. assert (loc' = loc) as -> by congruence.
    apply Hfirst. rewrite Hle. by rewrite !orb_true_r.
  - intros n Hn Hne. assert (n = one) as -> by congruence.
    apply Hfirst. apply Z.eqb_neq in Hne. rewrite Hne. simpl.
    by rewrite !orb_true_r.
  - intros kw' Hkw Hge. assert (kw' = kw) as -> by congruence.
    apply Hfirst. rewrite Hge. by rewrite !orb_true_r.
  - intros Hname. apply Hfirst. by rewrite Hname.
  - intros Hno. apply Hfirst.
    unfold row_get in E1. rewrite bool_decide_eq_false_2 in E1 by done.
    simpl in E1. injection E1 as <-. simpl. by rewrite !orb_true_r.
Qed.

Lemma guess_label_utility_first_witness :
  let BI : Builtins :=
    {| str_of_number := fun _ => [];
       float_of_text := fun _ => None;
       int_of_text := fun _ => None |} in
  @guess_label BI ["label"; "complexity"]%string
    {[ "label" := Str (lit "app_router"); "complexity" := Num 9 ]}
  = Ok utility.
Proof.
  cbv zeta.
  match goal with |- @guess_label ?bi ?cols ?row = _ =>
    destruct (@guess_label bi cols row) as [l|e] eqn:E; [| by vm_compute in E];
    destruct (@guess_label_utility_first bi cols row l E)
      as (_ & _ & _ & _ & _ & H)
  end.
  rewrite H; [done |]. apply (bool_decide_unpack _). vm_compute. exact I.
Defined.



End GuessLabelFacts.

Section AutoLabel.
Import PyStr PyList ML Label.
Context `{BI : Builtins}.

Local Open Scope nat_scope.

Lemma Forall_map_iff {A B} (f : A -> B) (P : B -> Prop) (l : list A) :
  Forall P (map f l) <-> Forall (fun x => P (f x)) l.
Proof. by rewrite map_fmap, Forall_fmap. Qed.

Lemma assign_records (c : string) (vals : list cell) (df : DataFrame) :
  length vals = length (records df) ->
  length (records (assign c vals df)) = length (records df)
  /\ map (fun r => cell_at r c) (records (assign c vals df)) = vals
  /\ forall k, k <> c ->
       map (fun r => cell_at r k) (records (assign c vals df))
       = map (fun r => cell_at r k) (records df).
Proof.
  unfold assign. simpl. revert vals.
  induction (records df) as [|r rs IH]; intros [|v vs] Hlen; simpl in *;
    try done.
  destruct (IH vs) as (H1 & H2 & H3); [lia |].
  split; [by rewrite H1 |]. split.
  - rewrite H2. unfold cell_at. by rewrite lookup_insert_eq.
  - intros k Hk. rewrite (H3 k Hk). unfold cell_at.
    by rewrite lookup_insert_ne.
Qed.

Lemma three_way_count (l : list (gmap string cell)) :
  Forall (fun r => cell_at r "human_label" = Str utility
                   \/ cell_at r "human_label" = Str core
                   \/ cell_at r "human_label" = Str uncertain) l ->
  length (filter (fun r => cell_at r "human_label" = Str core) l)
  + length (filter (fun r => cell_at r "human_label" = Str utility) l)
  + length (filter (fun r => cell_at r "human_label" = Str uncertain) l)
  = length l.
Proof.
  induction 1 as [|r l Hr _ IH]; [done |].
  rewrite !filter_cons.
  destruct Hr as [Hr | [Hr | Hr]]; rewrite Hr;
    repeat match goal with
           | |- context [decide (?a = ?b)] =>
               first [rewrite (decide_True (P := a = b)) by done
                     | rewrite (decide_False (P := a = b)) by done]
           end; simpl; lia.
Qed.

(** What the script leaves behind when it ends normally. *)
Lemma auto_label_Ok (df : DataFrame) (w : written) :
  auto_label (Some df) = Ok w ->
  exists labels,
    Forall2 (fun r l => guess_label (columns df) r = Ok l) (records df) labels
    /\ labels_out w = assign "human_label" (map Str labels) df
    /\ uncertain_out w
       = (if (0 <? length (labelled uncertain (labels_out w)))
          then Some {| columns := columns (labels_out w);
                       records := labelled uncertain (labels_out w) |}
          else None)
    /\ summary w
       = {| n_total := length (records (labels_out w));
            n_core := length (labelled core (labels_out w));
            n_util := length (labelled utility (labels_out w));
            n_uncertain := length (labelled uncertain (labels_out w)) |}.
Proof.
  unfold auto_label.
  destruct (traverse _ (records df)) as [labels|e] eqn:E; [| done].
  cbn [mbind outcome_bind]. intros H. apply Ok_inj in H. subst w.
  exists labels. split; [by apply traverse_Ok_iff |]. done.
Qed.

Lemma auto_label_labels (df : DataFrame) (w : written) :
  auto_label (Some df) = Ok w ->
  length (records (labels_out w)) = length (records df)
  /\ Forall (fun r => cell_at r "human_label" = Str utility
                      \/ cell_at r "human_label" = Str core
                      \/ cell_at r "human_label" = Str uncertain)
            (records (labels_out w))
  /\ forall k, k <> "human_label"%string ->
       map (fun r => cell_at r k) (records (labels_out w))
       = map (fun r => cell_at r k) (records df).
Proof.
  intros H. destruct (auto_label_Ok df w H) as (labels & Hl & -> & _).
  destruct (assign_records "human_label" (map Str labels) df)
    as (H1 & H2 & H3).
  { rewrite length_map. symmetry. by eapply Forall2_length. }
  split; [done |]. split; [| done].
  apply (Forall_map_iff (fun r => cell_at r "human_label")
           (fun v => v = Str utility \/ v = Str core \/ v = Str uncertain)).
  rewrite H2. apply Forall_map_iff.
  eapply Forall2_Forall_r; [exact Hl |]. apply Forall_forall.
  intros r _ l Hg.
  destruct (guess_label_vocabulary _ _ _ Hg) as [-> | [-> | ->]]; auto.
Qed.

End AutoLabel.

Section AutoLabelFacts.
Import PyStr PyList ML Label.

Local Open Scope nat_scope.

(** X28: when the labelling ends normally, every row of the table has
    one of the three labels and its other cells untouched; the counts of
    core, utility and uncertain rows add up to the total; and the table of
    uncertain rows is written exactly when there is such a row, holding
    these rows in order. *)
Theorem auto_label_summary `{BI : Builtins} (df : DataFrame) (w : written) :
  auto_label (Some df) = Ok w ->
  n_total (summary w) = length (records df)
  /\ length (records (labels_out w)) = length (records df)
  /\ n_core (summary w) + n_util (summary w) + n_uncertain (summary w)
     = n_total (summary w)
  /\ Forall (fun r => cell_at r "human_label" = Str utility
                      \/ cell_at r "human_label" = Str core
                      \/ cell_at r "human_label" = Str uncertain)
            (records (labels_out w))
  /\ (forall k, k <> "human_label"%string ->
        map (fun r => cell_at r k) (records (labels_out w))
        = map (fun r => cell_at r k) (records df))
  /\ (uncertain_out w = None <-> n_uncertain (summary w) = 0)
  /\ (forall u, uncertain_out w = Some u ->
        records u
        = filter (fun r => cell_at r "human_label" = Str uncertain)
                 (records (labels_out w))
        /\ length (records u) = n_uncertain (summary w)).
Proof.
  intros H.
  destruct (auto_label_labels df w H) as (Hlen & Hvoc & Hkeep).
  destruct (auto_label_Ok df w H) as (labels & _ & _ & Hunc & Hsum).
  rewrite Hsum. cbn [n_total n_core n_util n_uncertain].
  split; [done |]. split; [done |].
  split; [by apply three_way_count |].
  split; [done |]. split; [done |].
  rewrite Hunc.
  destruct (0 <? length (labelled uncertain (labels_out w))) eqn:E.
  - apply Nat.ltb_lt in E. split; [split; [done | lia] |].
    intros u [= <-]. done.
  - apply Nat.ltb_ge in E. split; [split; [lia | done] | done].
Qed.

Lemma auto_label_summary_witness :
  let BI : Builtins :=
    {| str_of_number := fun _ => [];
       float_of_text := fun _ => None;
       int_of_text := fun _ => None |} in
  let df :=
    {| columns := ["id"; "label"; "loc"; "complexity"]%string;
       records := [ {[ "id" := Str (lit "a"); "label" := Str (lit "run_app");
                       "loc" := Num 30; "complexity" := Num 7 ]};
                    {[ "id" := Str (lit "b"); "label" := Str (lit "f");
                       "loc" := Num 10; "complexity" := Num 1 ]} ] |} in
  exists w, @auto_label BI (Some df) = Ok w
            /\ n_total (summary w) = 2.
Proof.
  cbv zeta.
  match goal with |- exists w, @auto_label ?bi (Some ?df) = _ /\ _ =>
    destruct (@auto_label bi (Some df)) as [w|e] eqn:E;
      [| by vm_compute in E];
    destruct (@auto_label_summary bi df w E) as (H & _)
  end.
  exists w. split; [reflexivity | exact H].
Defined.

(** X29: the labelled table has the column the training requires, and
    the rows the training keeps from it are the rows with an id and a label
    that is not empty: when no id is missing, their number is the number of
    core rows plus the number of utility rows. *)
Theorem auto_labels_for_training `{BI : Builtins} (df : DataFrame)
    (w : written) :
  auto_label (Some df) = Ok w ->
  "human_label"%string ∈ columns (labels_out w)
  /\ valid_labels (labels_out w)
     = filter (fun r => cell_at r "id" <> NaN
                        /\ cell_at r "human_label" <> Str uncertain)
              (records (labels_out w))
  /\ (Forall (fun r => cell_at r "id" <> NaN) (records df) ->
      length (valid_labels (labels_out w))
      = n_core (summary w) + n_util (summary w)).
Proof.
  intros H.
  destruct (auto_label_labels df w H) as (Hlen & Hvoc & Hkeep).
  destruct (auto_label_Ok df w H) as (labels & _ & Hout & _ & Hsum).
  split; [rewrite Hout; apply assign_columns_has |].
  assert (valid_labels (labels_out w)
          = filter (fun r => cell_at r "id" <> NaN
                             /\ cell_at r "human_label" <> Str uncertain)
                   (records (labels_out w))) as Hvalid.
  { unfold valid_labels. rewrite list_filter_filter.
    clear -Hvoc. induction Hvoc as [|r l Hr _ IH]; [done |].
    rewrite !filter_cons, IH.
    assert ((is_category (cell_at r "human_label") = true
             /\ is_missing (cell_at r "id") = false
             /\ is_missing (cell_at r "human_label") = false)
            <-> (cell_at r "id" <> NaN
                 /\ cell_at r "human_label" <> Str uncertain)) as Hiff.
    { assert (is_missing (cell_at r "id") = false <-> cell_at r "id" <> NaN)
        as Hid by (destruct (cell_at r "id"); simpl; split; done).
      rewrite Hid.
      destruct Hr as [Hr | [Hr | Hr]]; rewrite Hr.
      - change (is_category (Str utility)) with true.
        change (is_missing (Str utility)) with false.
        split; [intros (_ & ? & _) | intros [? _]]; repeat split; done.
      - change (is_category (Str core)) with true.
        change (is_missing (Str core)) with false.
        split; [intros (_ & ? & _) | intros [? _]]; repeat split; done.
      - change (is_category (Str uncertain)) with false.
        split; [intros [? _] | intros [_ ?]]; done. }
    destruct (decide (is_category _ = true /\ _)) as [Hd|Hd];
      [rewrite decide_True by tauto | rewrite decide_False by tauto]; done. }
  split; [done |].
  intros Hids. rewrite Hvalid, Hsum. cbn [n_core n_util].
  assert (Forall (fun r => cell_at r "id" <> NaN) (records (labels_out w)))
    as Hids'.
  { apply (Forall_map_iff (fun r => cell_at r "id") (fun v => v <> NaN)).
    rewrite (Hkeep "id") by done. by apply Forall_map_iff. }
  pose proof (three_way_count _ Hvoc) as Hcount.
  unfold labelled. fold (labelled core (labels_out w)).
  revert Hcount. unfold labelled.
  generalize (records (labels_out w)) Hvoc Hids'. clear.
  intros l Hvoc Hids.
  induction Hvoc as [|r l Hr _ IH]; [done |].
  apply Forall_cons in Hids as [Hid Hids].
  rewrite !filter_cons. intros Hcount.
  destruct Hr as [Hr | [Hr | Hr]]; rewrite Hr in *;
    repeat match goal with
           | |- context [decide (Str ?a = Str ?b)] =>
               first [rewrite (decide_True (P := Str a = Str b)) by done
                     | rewrite (decide_False (P := Str a = Str b)) by done]
           | H : context [decide (Str ?a = Str ?b)] |- _ =>
               first [rewrite (decide_True (P := Str a = Str b)) in H by done
                     | rewrite (decide_False (P := Str a = Str b)) in H by done]
           end;
    first [rewrite decide_True by (split; done)
          | rewrite decide_False by (intros [_ ?]; done)];
    simpl in *; rewrite IH by (assumption || lia); lia.
Qed.

Lemma auto_labels_for_training_witness :
  let BI : Builtins :=
    {| str_of_number := fun _ => [];
       float_of_text := fun _ => None;
       int_of_text := fun _ => None |} in
  let df :=
    {| columns := ["id"; "label"; "loc"; "complexity"]%string;
       records := [ {[ "id" := Str (lit "a"); "label" := Str (lit "run_app");
                       "loc" := Num 30; "complexity" := Num 7 ]};
                    {[ "id" := Str (lit "b"); "label" := Str (lit "f");
                       "loc" := Num 10; "complexity" := Num 1 ]} ] |} in
  exists w, @auto_label BI (Some df) = Ok w
            /\ "human_label"%string ∈ columns (labels_out w).
Proof.
  cbv zeta.
  match goal with |- exists w, @auto_label ?bi (Some ?df) = _ /\ _ =>
    destruct (@auto_label bi (Some df)) as [w|e] eqn:E;
      [| by vm_compute in E];
    destruct (@auto_labels_for_training bi df w E) as (H & _)
  end.
  exists w. split; [reflexivity | exact H].
Defined.

End AutoLabelFacts.
